(** * Question-extraction pipeline: a shallow embedding of directPdfProcessor.ts
      and utils/concurrency.ts, with the properties of its components.

    Conventions of the embedding.
    - A JavaScript string is a [string]: the sequence of its code units.  The
      code below only inspects ASCII characters (digits, letters, [_], [-],
      [:]) and white space.
    - The page range of a unit, counters and indices are JavaScript numbers
      holding integers: they are [Z] (or [nat] for array indices).  Numbers
      coming out of JSON may be fractional: they are rationals ([Q]), with
      [NaN] kept apart, and sums and differences of them are rounded to the
      nearest double.
    - A function that may throw returns [exc A]: [inl msg] is the thrown
      error, [inr v] the value.
    - A loop that may run forever takes fuel and returns [None] when the fuel
      is used up. *)

From Stdlib Require Import ZArith QArith Ascii String List Lia Bool.
From Stdlib Require Import DecimalString DecimalZ.
From stdpp Require Import base tactics option list strings gmap.

Open Scope Z_scope.

(** ** Errors *)

Definition exc (A : Type) : Type := (string + A)%type.

Definition throw {A} (msg : string) : exc A := inl msg.

#[global] Instance exc_ret : MRet exc := fun _ a => inr a.
#[global] Instance exc_bind : MBind exc := fun _ _ k m =>
  match m with
  | inl e => inl e
  | inr a => k a
  end.

(** ** Segmenter: [splitPdfIntoChunks] *)

Module Segmenter.

(** A unit of work.  The copied pages ([base64]) are opaque bytes and are
    left out; the page range is what the rest of the pipeline reads. *)
Record Chunk : Type := mkChunk { fromPage : Z; toPage : Z }.

(** The [for (let start = 0; start < totalPages; start += pagesPerChunk)]
    loop; [out] is the array being pushed to. *)
Fixpoint splitLoop (fuel : nat) (totalPages pagesPerChunk start : Z)
    (out : list Chunk) : option (list Chunk) :=
  if start <? totalPages then
    match fuel with
    | O => None
    | S fuel' =>
        let end_ := Z.min (start + pagesPerChunk - 1) (totalPages - 1) in
        splitLoop fuel' totalPages pagesPerChunk (start + pagesPerChunk)
          (out ++ [mkChunk (start + 1) (end_ + 1)])
    end
  else Some out.

(** [totalPages] is [srcDoc.getPageCount()].  One iteration per page is
    always enough when the loop terminates at all. *)
Definition splitPdfIntoChunks (totalPages pagesPerChunk : Z) : option (list Chunk) :=
  splitLoop (Z.to_nat totalPages) totalPages pagesPerChunk 0 [].

Definition pages (u : Chunk) : Z := toPage u - fromPage u + 1.

(** [tiles lo units hi]: the units, in order, cover [lo..hi] with neither gap
    nor overlap, and none is empty. *)
Fixpoint tiles (lo : Z) (units : list Chunk) (hi : Z) : Prop :=
  match units with
  | [] => lo = hi + 1
  | u :: rest => fromPage u = lo /\ fromPage u <= toPage u /\ tiles (toPage u + 1) rest hi
  end.

(** Every unit but the last has exactly [s] pages, the last at most [s]. *)
Fixpoint full_but_last (s : Z) (units : list Chunk) : Prop :=
  match units with
  | [] => True
  | [u] => pages u <= s
  | u :: rest => pages u = s /\ full_but_last s rest
  end.

Definition covers (u : Chunk) (p : Z) : Prop := fromPage u <= p <= toPage u.

End Segmenter.

(** ** Regular expressions, as far as the year patterns use them *)

Module Regex.

Definition code (c : ascii) : nat := nat_of_ascii c.
Definition between (lo hi : nat) (c : ascii) : bool :=
  (lo <=? code c)%nat && (code c <=? hi)%nat.

(** [\d], and [\w] = [A-Za-z0-9_]. *)
Definition is_digit (c : ascii) : bool := between 48 57 c.
Definition is_upper (c : ascii) : bool := between 65 90 c.
Definition is_lower (c : ascii) : bool := between 97 122 c.
Definition is_word (c : ascii) : bool :=
  is_digit c || is_upper c || is_lower c || Ascii.eqb c "_".

(** Case folding of the [i] flag: without the [u] flag only ASCII letters are
    related to an ASCII letter. *)
Definition lower_ascii (c : ascii) : ascii :=
  if is_upper c then ascii_of_nat (code c + 32) else c.
Definition eq_ci (a c : ascii) : bool := Ascii.eqb (lower_ascii a) (lower_ascii c).

Inductive regex : Type :=
  | Eps                                (* the empty pattern *)
  | Class (p : ascii -> bool)          (* one character of a class *)
  | Seq (r1 r2 : regex)
  | Opt (r : regex)                    (* r? , greedy *)
  | Rep (lo hi : nat) (r : regex)      (* r{lo,hi} , greedy *)
  | WordB                              (* \b *)
  | Bol                                (* ^ *)
  | Eol                                (* $ *)
  | Group (r : regex).                 (* ( r ) , the capture group *)

(** A position in the input: the character before it, the input from it on,
    and what the group has captured so far. *)
Record mstate : Type := mkState {
  prev : option ascii;
  rest : list ascii;
  cap : option (list ascii)
}.

Definition word_at (c : option ascii) : bool :=
  match c with Some a => is_word a | None => false end.

(** [upto m n]: at most [n] further iterations, the longest first. *)
Fixpoint upto (m : mstate -> list mstate) (n : nat) (st : mstate) : list mstate :=
  match n with
  | O => [st]
  | S n' => flat_map (upto m n') (m st) ++ [st]
  end.

(** [times m n k]: exactly [n] iterations, then [k]. *)
Fixpoint times (m : mstate -> list mstate) (n : nat)
    (k : mstate -> list mstate) (st : mstate) : list mstate :=
  match n with
  | O => k st
  | S n' => flat_map (times m n' k) (m st)
  end.

(** All the ways [r] matches from [st], in the order the backtracking
    matcher tries them. *)
Fixpoint rmatch (r : regex) (st : mstate) : list mstate :=
  match r with
  | Eps => [st]
  | Class p =>
      match rest st with
      | c :: t => if p c then [mkState (Some c) t (cap st)] else []
      | [] => []
      end
  | Seq r1 r2 => flat_map (rmatch r2) (rmatch r1 st)
  | Opt r1 => rmatch r1 st ++ [st]
  | Rep lo hi r1 => times (rmatch r1) lo (upto (rmatch r1) (hi - lo)) st
  | WordB => if xorb (word_at (prev st)) (word_at (head (rest st))) then [st] else []
  | Bol => match prev st with None => [st] | Some _ => [] end
  | Eol => match rest st with [] => [st] | _ :: _ => [] end
  | Group r1 =>
      map (fun st' =>
             mkState (prev st') (rest st')
               (Some (take (length (rest st) - length (rest st')) (rest st))))
          (rmatch r1 st)
  end.

(** The leftmost match: every start position in turn. *)
Fixpoint search (r : regex) (before : option ascii) (s : list ascii) : option mstate :=
  match rmatch r (mkState before s None) with
  | st :: _ => Some st
  | [] =>
      match s with
      | [] => None
      | c :: t => search r (Some c) t
      end
  end.

(** [s.match(r)] without the [g] flag, reduced to [match[1]]; and [r.test(s)]. *)
Definition match1 (r : regex) (s : string) : option (option string) :=
  match search r None (list_ascii_of_string s) with
  | Some st => Some (string_of_list_ascii <$> cap st)
  | None => None
  end.

Definition test (r : regex) (s : string) : bool :=
  match search r None (list_ascii_of_string s) with
  | Some _ => true
  | None => false
  end.

Definition chr (a : ascii) : regex := Class (Ascii.eqb a).
Definition chr_i (a : ascii) : regex := Class (eq_ci a).
Definition digit : regex := Class is_digit.

Fixpoint lit_i (s : string) : regex :=
  match s with
  | EmptyString => Eps
  | String a s' => Seq (chr_i a) (lit_i s')
  end.

(** The least number of characters a match of [r] consumes. *)
Fixpoint minlen (r : regex) : nat :=
  match r with
  | Eps => 0
  | Class _ => 1
  | Seq r1 r2 => minlen r1 + minlen r2
  | Opt _ => 0
  | Rep lo _ r1 => lo * minlen r1
  | WordB | Bol | Eol => 0
  | Group r1 => minlen r1
  end.

(** Every group of [r] captures at least [n] characters. *)
Fixpoint groups_min (n : nat) (r : regex) : Prop :=
  match r with
  | Eps | Class _ | WordB | Bol | Eol => True
  | Seq r1 r2 => groups_min n r1 /\ groups_min n r2
  | Opt r1 | Rep _ _ r1 => groups_min n r1
  | Group r1 => (n <= minlen r1)%nat /\ groups_min n r1
  end.

End Regex.

(** ** Filtering policy: year detection and the pre-filter *)

Module YearFilter.
Import Regex.

Definition sep : regex := Opt (Class (fun c => Ascii.eqb c "_" || Ascii.eqb c "-")).

(** The four patterns of [extractYearFromFilename], in source order. *)
Definition yearPatterns : list regex :=
  [ (* /\b(20[0-9]{2})\b/ *)
    Seq WordB (Seq (Group (Seq (chr "2") (Seq (chr "0") (Rep 2 2 digit)))) WordB);
    (* /\b([0-9]{2})\b/ *)
    Seq WordB (Seq (Group (Rep 2 2 digit)) WordB);
    (* /year[_-]?([0-9]{2,4})/i *)
    Seq (lit_i "year") (Seq sep (Group (Rep 2 4 digit)));
    (* /([0-9]{4})[_-]?paper/i *)
    Seq (Group (Rep 4 4 digit)) (Seq sep (lit_i "paper")) ].

(** [parseInt(year)]: the value of the leading run of decimal digits, [None]
    for NaN.  (Leading white space, a sign or a radix prefix cannot occur in
    what the patterns capture.) *)
Definition digit_value (c : ascii) : Z := Z.of_nat (code c) - 48.

Fixpoint leading_digits (l : list ascii) : list ascii :=
  match l with
  | c :: t => if is_digit c then c :: leading_digits t else []
  | [] => []
  end.

Definition parseInt (s : string) : option Z :=
  match leading_digits (list_ascii_of_string s) with
  | [] => None
  | ds => Some (fold_left (fun acc d => 10 * acc + digit_value d) ds 0)
  end.

(** [numYear <= 30], false when [numYear] is NaN. *)
Definition le30 (n : option Z) : bool :=
  match n with Some z => z <=? 30 | None => false end.

(** The body of the [if (match)] branch: two-digit captures are widened. *)
Definition widen (year : string) : string :=
  if (String.length year =? 2)%nat
  then (if le30 (parseInt year) then "20" +:+ year else "19" +:+ year)
  else year.

(** [for (const pattern of yearPatterns)].  The group takes part in every
    match of the four patterns, so [match[1]] is never undefined. *)
Fixpoint firstYear (patterns : list regex) (fileName : string) : option string :=
  match patterns with
  | [] => None
  | pattern :: others =>
      match match1 pattern fileName with
      | Some (Some year) => Some (widen year)
      | Some None => None
      | None => firstYear others fileName
      end
  end.

Definition extractYearFromFilename (fileName : string) : option string :=
  firstYear yearPatterns fileName.

(** [String.prototype.trim]: the white space among the code units below 256. *)
Definition is_space (c : ascii) : bool :=
  between 9 13 c || (code c =? 32)%nat || (code c =? 160)%nat.

Fixpoint trimStart (l : list ascii) : list ascii :=
  match l with
  | c :: t => if is_space c then trimStart t else l
  | [] => []
  end.

Fixpoint trimEnd (l : list ascii) : list ascii :=
  match l with
  | c :: t =>
      match trimEnd t with
      | [] => if is_space c then [] else [c]
      | t' => c :: t'
      end
  | [] => []
  end.

Definition trim (s : string) : string :=
  string_of_list_ascii (trimEnd (trimStart (list_ascii_of_string s))).

(** [/^\d{2}$/] *)
Definition twoDigits : regex := Seq Bol (Seq (Rep 2 2 digit) Eol).

(** The truthiness of a string, for [filter(Boolean)]. *)
Definition nonempty (s : string) : bool :=
  match s with EmptyString => false | String _ _ => true end.

(** The last [map] of [normalizeYears]; [Number(y)] is [parseInt y] on a
    string of two digits. *)
Definition normalizeYear (y : string) : string :=
  if test twoDigits y
  then (if le30 (parseInt y) then "20" +:+ y else "19" +:+ y)
  else y.

(** [years] is optional: [None] is [undefined]. *)
Definition normalizeYears (years : option (list string)) : list string :=
  match years with
  | None => []
  | Some [] => []
  | Some ys => map normalizeYear (List.filter nonempty (map trim ys))
  end.

(** The fields of [EnhancedExamContext] the filter reads.  An absent
    [strictYearFiltering] is falsy: [false]. *)
Record EnhancedExamContext : Type := mkContext {
  allowedYears : option (list string);
  strictYearFiltering : bool
}.

Record FilterCheck : Type := mkCheck {
  shouldProcess : bool;
  reason : option string;
  detectedYear : option string
}.

(** [!detectedYear]: null, or the empty string. *)
Definition not_detected (d : option string) : bool :=
  match d with
  | None => true
  | Some y => negb (nonempty y)
  end.

Definition includes (ys : list string) (y : string) : bool := bool_decide (y ∈ ys).

Definition join (ys : list string) : string := String.concat ", " ys.

Definition shouldProcessPdf (fileName : string) (examContext : EnhancedExamContext)
    : FilterCheck :=
  match allowedYears examContext with
  | None | Some [] => mkCheck true None None
  | Some allowed =>
      let detected := extractYearFromFilename fileName in
      if not_detected detected && negb (strictYearFiltering examContext) then
        mkCheck true (Some "No year detected, strict filtering disabled") None
      else if not_detected detected && strictYearFiltering examContext then
        mkCheck false (Some "No year detected in filename, strict filtering enabled") None
      else
        match detected with
        | Some year =>
            if includes allowed year then
              mkCheck true
                (Some ("Year " +:+ year +:+ " is in allowed years: " +:+ join allowed))
                (Some year)
            else
              mkCheck false
                (Some ("Year " +:+ year +:+ " not in allowed years: " +:+ join allowed))
                (Some year)
        | None => mkCheck false (Some "Unknown filtering condition") None
        end
  end.

End YearFilter.

(** ** Dispatcher: [runWithConcurrency] *)

Module Dispatcher.

Section Runner.
Context {T E : Type}.

(** The order in which pending worker promises settle is not fixed by the
    program: [choose], given the indices of the items now in flight, says
    which one settles next (the first one when its answer is not among
    them).  An item leaves the in-flight set for good once it settles, so
    every completion order is some [choose]. *)
Variable choose : list nat -> nat.

Variable items : list T.

(** The body of the runner's [try]/[catch] for one item: the value to
    store in [results[i]], or the error the runner throws. *)
Variable attempt : T -> nat -> exc E.

(** The shared variables [idx] and [results]; one entry of [inflight] per
    runner suspended at [await worker(items[i], i)]. *)
Record state : Type := mkSt {
  idx : nat;
  results : list (option E);
  inflight : list nat
}.

(** [results[i] = v] on a JavaScript array: writing past the end extends
    the array with holes. *)
Definition js_set (l : list (option E)) (i : nat) (v : E) : list (option E) :=
  if decide (i < length l)%nat then <[i := Some v]> l
  else l ++ replicate (i - length l) None ++ [Some v].

(** [results[j]]: [None] is [undefined] (a hole, or past the end). *)
Definition js_get (l : list (option E)) (j : nat) : option E :=
  match l !! j with
  | Some (Some e) => Some e
  | _ => None
  end.

(** [const i = idx++; if (i >= items.length) return;] and up to the
    [await] of the worker's promise. *)
Definition next (st : state) : state :=
  let i := idx st in
  if decide (i < length items)%nat
  then mkSt (S i) (results st) (inflight st ++ [i])
  else mkSt (S i) (results st) (inflight st).

(** The promise of item [i] settles: its runner stores the result and goes
    round the loop, or throws.  (An index in flight is always below
    [items.length]; the [None] case is there for totality.) *)
Definition settle (i : nat) (st : state) : exc state :=
  let waiting := filter (λ j, j ≠ i) (inflight st) in
  match items !! i with
  | Some item =>
      e ← attempt item i;
      mret (next (mkSt (idx st) (js_set (results st) i e) waiting))
  | None => mret (mkSt (idx st) (results st) waiting)
  end.

Definition chosen (l : list nat) (first : nat) : nat :=
  if decide (choose l ∈ l) then choose l else first.

(** [await Promise.all(active)]: resolved once every runner has returned,
    rejected as soon as one runner throws. *)
Fixpoint drive (fuel : nat) (st : state) : option (exc (list (option E))) :=
  match inflight st with
  | [] => Some (inr (results st))
  | first :: _ =>
      match fuel with
      | O => None
      | S fuel' =>
          match settle (chosen (inflight st) first) st with
          | inl err => Some (inl err)
          | inr st' => drive fuel' st'
          end
      end
  end.

(** [for (let i = 0; i < Math.min(concurrency, items.length); i++)
      active.push(runner())], then the [await].  Each settlement retires
    one item, so [items.length] steps of fuel are never used up. *)
Definition dispatch (init : list (option E)) (concurrency : Z)
    : option (exc (list (option E))) :=
  let runners := Z.to_nat (Z.min concurrency (Z.of_nat (length items))) in
  drive (length items) (Nat.iter runners next (mkSt 0 init [])).

End Runner.

(** utils/concurrency.ts: [results] starts as [[]]; the [catch] rethrows. *)
Definition runWithConcurrency {T R} (choose : list nat -> nat)
    (items : list T) (worker : T -> nat -> exc R) (concurrency : Z)
    : option (exc (list (option R))) :=
  dispatch choose items worker [] concurrency.

End Dispatcher.

(** ** JavaScript values, as far as the unit processor inspects them *)

Module JS.

(** A JavaScript number: a rational, or NaN. *)
Inductive number : Type :=
  | NaN
  | Fin (q : Q).

(** Numbers are binary64 doubles and the result of [+] and [-] is rounded:
    [round53 q] is the double nearest to [q], ties to even, for [q] in the
    range of the normal doubles.  An integer is taken as it is: page numbers
    and counts are integers far below 2^53, where doubles are exact, and
    they are integers throughout the embedding.  [scale2 a d k] is
    [a / d * 2^k] as a fraction. *)
Definition scale2 (a d k : Z) : Z * Z :=
  if 0 <=? k then (a * 2 ^ k, d) else (a, d * 2 ^ (- k)).

Definition round53 (q : Q) : Q :=
  let n := Qnum q in
  let d := Z.pos (Qden q) in
  if n mod d =? 0 then q
  else
    let a := Z.abs n in
    let l := Z.log2 a - Z.log2 d in
    let '(x, y) := scale2 a d (- l) in
    let e := if y <=? x then l else l - 1 in       (* 2^e <= a/d < 2^(e+1) *)
    let '(num, den) := scale2 a d (52 - e) in      (* in [2^52, 2^53) *)
    let m := num / den in
    let r := num mod den in
    let m' := if 2 * r <? den then m
              else if den <? 2 * r then m + 1
              else if Z.even m then m else m + 1 in
    let '(rn, rd) := scale2 m' 1 (e - 52) in
    Qred (Qmake (Z.sgn n * rn) (Z.to_pos rd)).

(** [a + b] and [a - b] on finite numbers. *)
Definition jsAdd (a b : Q) : Q := round53 (a + b).
Definition jsSub (a b : Q) : Q := round53 (a - b).

(** What [JSON.parse] returns, and [undefined] for what is absent.  The
    fields of an object are listed as [Object.keys] enumerates them. *)
#[warnings="-register-all"] Inductive jsval : Type :=
  | VUndefined
  | VNull
  | VBool (b : bool)
  | VNum (n : number)
  | VStr (s : string)
  | VArr (elems : list jsval)
  | VObj (fields : list (string * jsval)).

Definition of_Z (z : Z) : jsval := VNum (Fin (inject_Z z)).

(** Truthiness, as [!v], [v || w] and [v ? a : b] test it. *)
Definition truthy (v : jsval) : bool :=
  match v with
  | VUndefined | VNull => false
  | VBool b => b
  | VNum NaN => false
  | VNum (Fin q) => negb (Qeq_bool q 0)
  | VStr s => YearFilter.nonempty s
  | VArr _ | VObj _ => true
  end.

(** [v ?? w] looks at this instead. *)
Definition nullish (v : jsval) : bool :=
  match v with
  | VUndefined | VNull => true
  | _ => false
  end.

Definition or_else (v w : jsval) : jsval := if truthy v then v else w.

Definition is_number (v : jsval) : bool :=
  match v with VNum _ => true | _ => false end.

Definition is_array (v : jsval) : bool :=
  match v with VArr _ => true | _ => false end.

(** [typeof v === "object"]. *)
Definition is_object (v : jsval) : bool :=
  match v with VNull | VArr _ | VObj _ => true | _ => false end.

Fixpoint assoc (fields : list (string * jsval)) (k : string) : jsval :=
  match fields with
  | [] => VUndefined
  | (k', v) :: rest => if String.eqb k' k then v else assoc rest k
  end.

(** Whether an object has a property [k] of its own. *)
Definition owns (fields : list (string * jsval)) (k : string) : bool :=
  existsb (fun field => String.eqb field.1 k) fields.

(** [v.k] for the property names the processor reads (none of them is a
    member of a prototype): a TypeError on [undefined] and [null],
    [undefined] on what has no such property. *)
Definition get (v : jsval) (k : string) : exc jsval :=
  match v with
  | VUndefined => throw ("Cannot read properties of undefined (reading '" +:+ k +:+ "')")
  | VNull => throw ("Cannot read properties of null (reading '" +:+ k +:+ "')")
  | VObj fields => inr (assoc fields k)
  | _ => inr VUndefined
  end.

(** [String.prototype.toLowerCase] on code units below 256. *)
Definition lower_unit (c : ascii) : ascii :=
  let n := Regex.code c in
  if Regex.between 65 90 c
     || (Regex.between 192 222 c && negb (n =? 215)%nat)
  then ascii_of_nat (n + 32) else c.

Fixpoint toLowerCase (s : string) : string :=
  match s with
  | EmptyString => EmptyString
  | String c s' => String (lower_unit c) (toLowerCase s')
  end.

(** [s.includes(sub)]. *)
Fixpoint includes (s sub : string) : bool :=
  String.prefix sub s
  || match s with
     | EmptyString => false
     | String _ s' => includes s' sub
     end.

Section Builtins.
(** [Number.prototype.toString] and the numeric value of a string literal
    are not part of the repository: they are parameters. *)
Variable NumberToString : number -> string.
Variable StringToNumber : string -> number.

(** [String(v)], as a template literal applies it.  An array is joined
    ([null] and [undefined] elements give the empty string).  For an object
    the [toString] found on it is called: the one of [Object.prototype],
    unless the object has a property of that name of its own, which, being
    parsed JSON, is no function; [valueOf] then returns the object itself
    and the conversion throws a TypeError. *)
Fixpoint ToString (v : jsval) : exc string :=
  match v with
  | VUndefined => mret "undefined"
  | VNull => mret "null"
  | VBool b => mret (if b then "true" else "false")
  | VNum n => mret (NumberToString n)
  | VStr s => mret s
  | VArr elems =>
      parts ← (fix join (l : list jsval) : exc (list string) :=
                 match l with
                 | [] => mret []
                 | e :: rest =>
                     part ← (if nullish e then mret "" else ToString e);
                     others ← join rest;
                     mret (part :: others)
                 end) elems;
      mret (String.concat "," parts)
  | VObj fields =>
      if owns fields "toString" then throw "Cannot convert object to primitive value"
      else mret "[object Object]"
  end.

(** [Number(v)]: an array or an object is converted to a string first, by
    the same steps. *)
Definition ToNumber (v : jsval) : exc number :=
  match v with
  | VUndefined => mret NaN
  | VNull => mret (Fin 0)
  | VBool b => mret (if b then Fin 1 else Fin 0)
  | VNum n => mret n
  | VStr s => mret (StringToNumber s)
  | VArr _ | VObj _ => s ← ToString v; mret (StringToNumber s)
  end.
End Builtins.

End JS.

(** ** The other version of [runWithConcurrency] *)

Module Resilient.
Import Dispatcher JS.

(** What a worker's promise is rejected with, as far as the [catch] looks
    at it: [null], [undefined], or a value with its [message] property and
    what [String] makes of the value (for [new Error("boom")], "boom" and
    "Error: boom"). *)
Inductive Rejection : Type :=
  | RejNull
  | RejUndefined
  | RejValue (message : jsval) (asString : exc string).

(** [(err as Error).message || String(err)]; reading [message] off [null]
    or [undefined] throws, inside the [catch]. *)
Definition caught (err : Rejection) : exc jsval :=
  match err with
  | RejNull => throw "Cannot read properties of null (reading 'message')"
  | RejUndefined => throw "Cannot read properties of undefined (reading 'message')"
  | RejValue message asString =>
      if truthy message then mret message
      else s ← asString; mret (VStr s)
  end.

(** An entry of the result array: [{ error }], or the worker's value. *)
Definition settled (R : Type) : Type := (jsval + R)%type.

(** The body of the runner's [try]/[catch] for one item. *)
Definition attemptResilient {T R} (worker : T -> nat -> Rejection + R) (item : T) (i : nat)
    : exc (settled R) :=
  match worker item i with
  | inr res => mret (inr res)
  | inl err => e ← caught err; mret (inl e)
  end.

(** The version of src/unnamed/part_001 (the one the callers' comments
    describe): [results] starts as [new Array(items.length)]; the [catch]
    stores [{ error }] in [results[i]]. *)
Definition runWithConcurrency_resilient {T R} (choose : list nat -> nat)
    (items : list T) (worker : T -> nat -> Rejection + R) (concurrency : Z)
    : option (exc (list (option (settled R)))) :=
  dispatch choose items (attemptResilient worker) (replicate (length items) None)
    concurrency.

End Resilient.

(** ** Unit processor: [processChunk] *)

Module UnitProcessor.
Import Segmenter JS.

(** The three objects [processChunk] returns:
    [{ success: true, skip: true, skipReason, skipScope, questions: [] }],
    [{ success: true, questions }] and [{ success: false, error }]. *)
Inductive ChunkResult (TQ : Type) : Type :=
  | Skipped (skipReason skipScope : jsval)
  | Extracted (questions : list TQ)
  | Failed (error : string).
Arguments Skipped {TQ} _ _.
Arguments Extracted {TQ} _.
Arguments Failed {TQ} _.

Definition defaultSkipReason : jsval := VStr "LLM signaled skip (no reason)".

(** [parsed.scope || (skipReason.toLowerCase().includes("year")
      ? "document" : "chunk")].  Only a string has [toLowerCase]. *)
Definition skipScopeOf (scope skipReason : jsval) : exc jsval :=
  if truthy scope then mret scope
  else match skipReason with
       | VStr s =>
           mret (VStr (if includes (toLowerCase s) "year" then "document" else "chunk"))
       | _ => throw "skipReason.toLowerCase is not a function"
       end.

(** [parsed.skip === true] *)
Definition is_true (v : jsval) : bool :=
  match v with VBool true => true | _ => false end.

(** The first array among the values of [Object.keys(parsed)]. *)
Fixpoint firstArray (fields : list (string * jsval)) : list jsval :=
  match fields with
  | [] => []
  | (_, VArr elems) :: _ => elems
  | _ :: rest => firstArray rest
  end.

(** [questionsArray]: the response itself, its [questions], its [items], or
    its first array-valued field; empty otherwise. *)
Definition questionsArray (parsed : jsval) : exc (list jsval) :=
  match parsed with
  | VArr elems => mret elems
  | _ =>
      qs ← get parsed "questions";
      match qs with
      | VArr elems => mret elems
      | _ =>
          its ← get parsed "items";
          match its with
          | VArr elems => mret elems
          | _ => mret (match parsed with VObj fields => firstArray fields | _ => [] end)
          end
      end
  end.

(** [q.pageNumber ?? q.page ?? q.page_no ?? chunk.fromPage] *)
Definition pageNoCandidate (q : jsval) (chunk : Chunk) : exc jsval :=
  a ← get q "pageNumber";
  if negb (nullish a) then mret a else
  b ← get q "page";
  if negb (nullish b) then mret b else
  c ← get q "page_no";
  if negb (nullish c) then mret c else mret (of_Z (fromPage chunk)).

(** [normalizedPage]: a number inside [1 .. toPage - fromPage + 1] is taken
    as relative to the chunk, [chunk.fromPage + (pageNoCandidate - 1)] in
    the arithmetic of doubles; anything else is kept. *)
Definition normalizePage (chunk : Chunk) (pageNoCandidate : jsval) : jsval :=
  match pageNoCandidate with
  | VNum (Fin p) =>
      if Qle_bool 1 p && Qle_bool p (inject_Z (toPage chunk - fromPage chunk + 1))
      then VNum (Fin (jsAdd (inject_Z (fromPage chunk)) (jsSub p 1)))
      else VNum (Fin p)
  | other => other
  end.

Definition normalizedPage (q : jsval) (chunk : Chunk) : exc jsval :=
  candidate ← pageNoCandidate q chunk;
  mret (normalizePage chunk candidate).

Definition defaultConfidence : number := Fin (8 # 10).

Section Confidence.
Variable NumberToString : number -> string.
Variable StringToNumber : string -> number.

(** [typeof c === "number" ? c : c ? Number(c) : 0.8] *)
Definition confidenceOf (c : jsval) : exc number :=
  match c with
  | VNum n => mret n
  | _ => if truthy c then ToNumber NumberToString StringToNumber c
         else mret defaultConfidence
  end.

Definition confidence (q : jsval) : exc number :=
  c ← get q "confidence";
  confidenceOf c.
End Confidence.

Section ProcessChunk.
Context {TQ : Type}.

(** The callback of [questionsArray.map]: one raw item to one
    [TaggedQuestion].  It reads [globalQCounter], shared by all chunks,
    for the ids; it is a parameter here, its page and confidence parts
    are [normalizedPage] and [confidence] above. *)
Variable convert : Chunk -> jsval -> exc TQ.

Fixpoint convertAll (chunk : Chunk) (qs : list jsval) : exc (list TQ) :=
  match qs with
  | [] => mret []
  | q :: rest =>
      tagged ← convert chunk q;
      others ← convertAll chunk rest;
      mret (tagged :: others)
  end.

(** The [try] block from [const parsed = ...] on. *)
Definition interpret (chunk : Chunk) (parsed : jsval) : exc (ChunkResult TQ) :=
  if negb (truthy parsed) then throw "No JSON found in chunk response" else
  skip ← get parsed "skip";
  if is_object parsed && is_true skip then
    reason ← get parsed "reason";
    scope ← get parsed "scope";
    let skipReason := or_else reason defaultSkipReason in
    skipScope ← skipScopeOf scope skipReason;
    mret (Skipped skipReason skipScope)
  else
    qs ← questionsArray parsed;
    converted ← convertAll chunk qs;
    mret (Extracted converted).

(** What one attempt gets from the service: the value that
    [extractJsonFromClaudeText] returns ([VNull] when it finds no JSON),
    or the error of the call. *)
Variable respond : Chunk -> Z -> exc jsval.

Variable maxRetries : Z.

(** [while (attempt <= maxRetries) { attempt++; try ... catch ... }];
    [None] is the [undefined] returned when the loop is left. *)
Fixpoint retry (fuel : nat) (chunk : Chunk) (attempt : Z) : option (ChunkResult TQ) :=
  match fuel with
  | O => None
  | S fuel' =>
      if attempt <=? maxRetries then
        let attempt := attempt + 1 in
        match parsed ← respond chunk attempt; interpret chunk parsed with
        | inr result => Some result
        | inl lastErr =>
            if attempt <=? maxRetries then retry fuel' chunk attempt
            else Some (Failed lastErr)
        end
      else None
  end.

(** At most [maxRetries + 1] attempts are made. *)
Definition processChunk (chunk : Chunk) (chunkIndex : nat) : option (ChunkResult TQ) :=
  retry (Z.to_nat (maxRetries + 2)) chunk 0.

End ProcessChunk.

End UnitProcessor.

(** ** Reconciler and [processPdfWithClaude] *)

Module Reconciler.
Import Segmenter YearFilter JS UnitProcessor Dispatcher.

(** The fields of [TaggedQuestion] the reconciler reads.  The interface
    declares [pageNo: number] and [text: string]; what the conversion stores
    is whatever the response held ([normalizedPage], and
    [q.questionText || q.text || ""]), so both are JSON values here.  [id]
    stands for the rest of the record, which is carried along untouched. *)
Record TaggedQuestion : Type := mkQuestion {
  id : jsval;
  pageNo : jsval;
  text : jsval
}.

(** A template literal applied to an integer. *)
Definition Z_to_string (z : Z) : string := NilZero.string_of_int (Z.to_int z).

(** [s.slice(0, 120)] *)
Fixpoint slice0 (n : nat) (s : string) : string :=
  match n, s with
  | S n', String c s' => String c (slice0 n' s')
  | _, _ => EmptyString
  end.

(** The first 120 characters of the trimmed text. *)
Definition textPrefix (s : string) : string := slice0 120 (trim s).

(** The message of the TypeError for [.trim] on what is not a string;
    [quote] is the double quote. *)
Definition quote : string := String (ascii_of_nat 34) EmptyString.
Definition trimIsNotAFunction : string :=
  "(q.text || " +:+ quote +:+ quote +:+ ").trim is not a function".

Section Keys.
Variable NumberToString : number -> string.

(** [`${q.pageNo}::${(q.text || "").trim().slice(0, 120)}`]: the page is
    converted to a string, which can throw; only a string has [trim]. *)
Definition dedupKey (q : TaggedQuestion) : exc string :=
  page ← ToString NumberToString (pageNo q);
  match or_else (text q) (VStr "") with
  | VStr s => mret (page +:+ "::" +:+ textPrefix s)
  | _ => throw trimIsNotAFunction
  end.

(** [for (const q of accumulatedQuestions)] with the [seen] set. *)
Fixpoint dedupLoop (seen : gset string) (deduped : list TaggedQuestion)
    (qs : list TaggedQuestion) : exc (list TaggedQuestion) :=
  match qs with
  | [] => mret deduped
  | q :: rest =>
      key ← dedupKey q;
      if decide (key ∈ seen) then dedupLoop seen deduped rest
      else dedupLoop ({[key]} ∪ seen) (deduped ++ [q]) rest
  end.

Definition dedup (accumulatedQuestions : list TaggedQuestion)
    : exc (list TaggedQuestion) :=
  dedupLoop ∅ [] accumulatedQuestions.

End Keys.

Record DirectPdfResult : Type := mkResult {
  success : bool;
  fileName : string;
  filePath : string;
  questions : list TaggedQuestion;
  totalQuestions : nat;
  skippedReason : option string;   (* metadata.skippedReason *)
  errors : list string
}.

(** How the loop over [chunkResults] is left. *)
Inductive Exit : Type :=
  | Completed
  | DocumentSkip (skipReasonFromLLM : jsval)     (* [sawSkip], then [break] *)
  | Thrown (message : string).

(** [r.skipScope || (r.skipReason && r.skipReason.toLowerCase().includes("year")
      ? "document" : "chunk")] *)
Definition scopeOf (skipReason skipScope : jsval) : exc jsval :=
  if truthy skipScope then mret skipScope
  else if truthy skipReason then
    match skipReason with
    | VStr s =>
        mret (VStr (if includes (toLowerCase s) "year" then "document" else "chunk"))
    | _ => throw "r.skipReason.toLowerCase is not a function"
    end
  else mret (VStr "chunk").

(** [scope === "document"] *)
Definition is_document (scope : jsval) : bool :=
  match scope with VStr s => String.eqb s "document" | _ => false end.

Definition ordinal (i : nat) : string := Z_to_string (Z.of_nat i + 1).

Section Loop.
Variable NumberToString : number -> string.

(** [console.log(`... ${v}`)]: nothing of the output is kept, but the
    conversion of [v] to a string can throw. *)
Definition logged (v : jsval) : exc unit :=
  _ ← ToString NumberToString v; mret tt.

(** [for (let i = 0; i < chunkResults.length; i++)]: what has been
    accumulated and recorded when the loop is left, and how it is left. *)
Fixpoint reconcileLoop (chunks : list Chunk) (i : nat)
    (chunkResults : list (option (ChunkResult TaggedQuestion)))
    (accumulated : list TaggedQuestion) (errs : list string)
    : list TaggedQuestion * list string * Exit :=
  match chunkResults with
  | [] => (accumulated, errs, Completed)
  | r :: rest =>
      match r with
      | None =>
          let errMsg := "Chunk " +:+ ordinal i +:+ " produced no result" in
          reconcileLoop chunks (S i) rest accumulated
            (errs ++ ["Chunk " +:+ ordinal i +:+ " failed: " +:+ errMsg])
      | Some (Skipped skipReason skipScope) =>
          match scopeOf skipReason skipScope with
          | inl message => (accumulated, errs, Thrown message)
          | inr scope =>
              if is_document scope then
                let skipReasonFromLLM :=
                  or_else skipReason (VStr "LLM signaled document-level skip") in
                match logged skipReasonFromLLM with
                | inl message => (accumulated, errs, Thrown message)
                | inr _ => (accumulated, errs, DocumentSkip skipReasonFromLLM)
                end
              else
                match logged (or_else skipReason (VStr "No reason provided")) with
                | inl message => (accumulated, errs, Thrown message)
                | inr _ => reconcileLoop chunks (S i) rest accumulated errs
                end
          end
      | Some (Extracted qs) =>
          reconcileLoop chunks (S i) rest (accumulated ++ qs) errs
      | Some (Failed error) =>
          let errMsg := if nonempty error then error else "Unknown chunk failure" in
          match chunks !! i with
          | Some chunk =>
              reconcileLoop chunks (S i) rest accumulated
                (errs ++ ["Chunk " +:+ ordinal i +:+ " (pages "
                          +:+ Z_to_string (fromPage chunk) +:+ "-"
                          +:+ Z_to_string (toPage chunk) +:+ ") failed: " +:+ errMsg])
          | None =>
              (accumulated, errs,
               Thrown "Cannot read properties of undefined (reading 'fromPage')")
          end
      end
  end.

End Loop.

Record Options : Type := mkOptions {
  pagesPerChunk : option Z;
  maxRetriesPerChunk : option Z;
  chunkConcurrency : option Z
}.

(** [filePath.split(/[/\\]/).pop() || ""] *)
Definition is_sep (c : ascii) : bool := Ascii.eqb c "/" || Ascii.eqb c "\".

Fixpoint afterLastSep (s current : string) : string :=
  match s with
  | EmptyString => current
  | String c s' => if is_sep c then afterLastSep s' s' else afterLastSep s' current
  end.

Definition baseName (filePath : string) : string := afterLastSep filePath filePath.

(** [chunkResults[i]], where a hole of the array and an [undefined] returned
    by [processChunk] are both falsy. *)
Definition defined {A} (r : option (option A)) : option A :=
  match r with
  | Some (Some x) => Some x
  | _ => None
  end.

Definition strictSkip : string :=
  "LLM returned no questions and strictYearFiltering is enabled".

Section Pipeline.
Variable NumberToString : number -> string.

(** The scheduling of the chunk promises, the per-item conversion and the
    external service are the environment of a run. *)
Variable choose : list nat -> nat.
Variable convert : Chunk -> jsval -> exc TaggedQuestion.
Variable respond : Chunk -> Z -> exc jsval.

(** From [let sawSkip = false] to the end of the [try] block; [thrown] is
    the [catch] block. *)
Definition thrown (fileName filePath : string) (errs : list string) (message : string)
    : DirectPdfResult :=
  mkResult false fileName filePath [] 0 None
    (errs ++ ["Failed to process " +:+ fileName +:+ ": " +:+ message]).

Definition reconcile (fileName filePath : string) (strict : bool) (chunks : list Chunk)
    (chunkResults : list (option (ChunkResult TaggedQuestion))) : DirectPdfResult :=
  match reconcileLoop NumberToString chunks 0 chunkResults [] [] with
  | (_, errs, Thrown message) => thrown fileName filePath errs message
  | (_, errs, DocumentSkip skipReasonFromLLM) =>
      match ToString NumberToString skipReasonFromLLM with
      | inl message => thrown fileName filePath errs message
      | inr text =>
          let reason := "Skipped by LLM: " +:+ text in
          mkResult false fileName filePath [] 0 (Some reason) (errs ++ [reason])
      end
  | (accumulated, errs, Completed) =>
      match dedup NumberToString accumulated with
      | inl message => thrown fileName filePath errs message
      | inr deduped =>
          if strict && (length deduped =? 0)%nat then
            mkResult false fileName filePath deduped (length deduped)
              (Some strictSkip) (errs ++ [strictSkip])
          else
            mkResult (0 <? length deduped)%nat fileName filePath deduped (length deduped)
              None errs
      end
  end.

(** [pdf] is what [readFileSync] and [PDFDocument.load] give: the number
    of pages, or the error they throw; [client] is what [new Anthropic(...)]
    does: it returns, or throws.  The result is [None] when the function
    does not return (a chunk size below one). *)
Definition processPdfWithClaude (filePath : string)
    (examContextInput : EnhancedExamContext) (options : Options)
    (pdf : exc Z) (client : exc unit) : option DirectPdfResult :=
  let fileName := baseName filePath in
  let examContext :=
    mkContext (Some (normalizeYears (allowedYears examContextInput)))
      (strictYearFiltering examContextInput) in
  let filterCheck := shouldProcessPdf fileName examContext in
  if negb (shouldProcess filterCheck) then
    Some (mkResult false fileName filePath [] 0 (reason filterCheck)
            ["Skipped: " +:+ default "undefined" (reason filterCheck)])
  else
    let pagesPerChunk := default 10 (pagesPerChunk options) in
    let maxRetries := default 1 (maxRetriesPerChunk options) in
    match pdf with
    | inl message => Some (thrown fileName filePath [] message)
    | inr totalPages =>
        match splitPdfIntoChunks totalPages pagesPerChunk with
        | None => None
        | Some chunks =>
            if (length chunks =? 0)%nat then
              Some (thrown fileName filePath [] "No chunks produced from PDF")
            else
              match client with
              | inl message => Some (thrown fileName filePath [] message)
              | inr _ =>
                  let chunkConcurrency := default 4 (chunkConcurrency options) in
                  match runWithConcurrency choose chunks
                          (fun chunk i =>
                             inr (processChunk convert respond maxRetries chunk i))
                          chunkConcurrency with
                  | None => None
                  | Some (inl message) => Some (thrown fileName filePath [] message)
                  | Some (inr chunkResults) =>
                      Some (reconcile fileName filePath (strictYearFiltering examContext)
                              chunks (defined <$> chunkResults))
                  end
              end
        end
    end.

End Pipeline.

End Reconciler.

(** ** Batch processing: [processPdfsDirectly] and its helpers *)

Module Batch.
Import Segmenter YearFilter JS UnitProcessor Dispatcher Reconciler.

(** The values of [typeMap]. *)
Inductive QuestionType : Type :=
  | MCQ | Descriptive | TrueFalse | FillIn | Integer | Matching.

Definition typeName (t : QuestionType) : string :=
  match t with
  | MCQ => "MCQ"
  | Descriptive => "Descriptive"
  | TrueFalse => "TrueFalse"
  | FillIn => "FillIn"
  | Integer => "Integer"
  | Matching => "Matching"
  end.

(** The own properties of [typeMap], in source order. *)
Definition typeMap : list (string * QuestionType) :=
  [ ("MCQ", MCQ); ("mcq", MCQ); ("MultipleChoice", MCQ);
    ("Descriptive", Descriptive); ("descriptive", Descriptive); ("Essay", Descriptive);
    ("TrueFalse", TrueFalse); ("true_false", TrueFalse); ("Boolean", TrueFalse);
    ("FillBlank", FillIn); ("fill_blank", FillIn); ("FillIn", FillIn);
    ("Integer", Integer); ("integer", Integer); ("Numerical", Integer);
    ("Matching", Matching); ("matching", Matching) ].

(** [typeMap] is an object literal: a name it does not own is looked up in
    [Object.prototype], whose members are all truthy. *)
Definition objectPrototype : list string :=
  [ "constructor"; "__defineGetter__"; "__defineSetter__"; "hasOwnProperty";
    "__lookupGetter__"; "__lookupSetter__"; "isPrototypeOf"; "propertyIsEnumerable";
    "toString"; "valueOf"; "__proto__"; "toLocaleString" ].

(** What [mapQuestionType] returns: a question type, or the member of
    [Object.prototype] that the lookup found. *)
Inductive Mapped : Type :=
  | Known (t : QuestionType)
  | Inherited (member : string).

Fixpoint own (table : list (string * QuestionType)) (k : string) : option QuestionType :=
  match table with
  | [] => None
  | (k', t) :: rest => if String.eqb k' k then Some t else own rest k
  end.

(** [typeMap[type] || "MCQ"] *)
Definition mapQuestionType (type : string) : Mapped :=
  match own typeMap type with
  | Some t => Known t
  | None =>
      if bool_decide (type ∈ objectPrototype) then Inherited type else Known MCQ
  end.

Record BatchProcessResult : Type := mkBatch {
  batchSuccess : bool;                 (* success *)
  results : list DirectPdfResult;
  batchTotalQuestions : nat;           (* totalQuestions *)
  totalFiles : nat;
  skippedFiles : nat;
  batchErrors : list string            (* errors *)
}.

(** [r.metadata.skippedReason] as a condition. *)
Definition skipped (r : DirectPdfResult) : bool :=
  match skippedReason r with
  | Some s => nonempty s
  | None => false
  end.

(** [for (const result of batchResult.results)
       if (result.success && !result.metadata.skippedReason) push(...)] *)
Fixpoint flattenLoop (rs : list DirectPdfResult) (allQuestions : list TaggedQuestion)
    : list TaggedQuestion :=
  match rs with
  | [] => allQuestions
  | result :: rest =>
      if success result && negb (skipped result)
      then flattenLoop rest (allQuestions ++ questions result)
      else flattenLoop rest allQuestions
  end.

Definition flattenBatchResults (batchResult : BatchProcessResult) : list TaggedQuestion :=
  flattenLoop (results batchResult) [].

(** scraper/httpCrawler.ts, [runDirectPdfExtractionPipeline], step 1, once
    [processPdfsDirectly] has returned: the two checks that abort the
    pipeline, and the questions that go on to step 2. *)
Definition runDirectPdfExtractionPipeline_step1 (batchResult : BatchProcessResult)
    : exc (list TaggedQuestion) :=
  if negb (batchSuccess batchResult) || (length (results batchResult) =? 0)%nat then
    throw "No PDFs were successfully processed"
  else
    let allTaggedQuestions := flattenBatchResults batchResult in
    if (length allTaggedQuestions =? 0)%nat then
      throw "No questions were extracted from PDFs"
    else mret allTaggedQuestions.

Record BatchOptions : Type := mkBatchOptions {
  maxFiles : option Z;
  fileConcurrency : option Z;
  perFile : Options          (* pagesPerChunk, maxRetriesPerChunk, chunkConcurrency *)
}.

(** [pdfFiles.slice(0, n)] *)
Definition slice0n (n : Z) (l : list string) : list string :=
  if 0 <=? n then take (Z.to_nat n) l
  else take (Z.to_nat (Z.of_nat (length l) + n)) l.

(** [options.maxFiles ? pdfFiles.slice(0, options.maxFiles) : pdfFiles] *)
Definition filesToProcess (maxFiles : option Z) (pdfFiles : list string) : list string :=
  match maxFiles with
  | Some n => if n =? 0 then pdfFiles else slice0n n pdfFiles
  | None => pdfFiles
  end.

(** [if (examContext.allowedYears && examContext.allowedYears.length > 0)
      examContext.allowedYears = normalizeYears(examContext.allowedYears)] *)
Definition normalizedContext (examContext : EnhancedExamContext) : EnhancedExamContext :=
  match allowedYears examContext with
  | Some (y :: ys) =>
      mkContext (Some (normalizeYears (Some (y :: ys)))) (strictYearFiltering examContext)
  | _ => examContext
  end.

(** The [catch] block. *)
Definition batchFailed (message : string) : BatchProcessResult :=
  mkBatch false [] 0 0 0 ["Batch processing failed: " +:+ message].

(** [fileResults.map((r, i) => ...)]: an entry that is [undefined] becomes a
    "No result from worker" result.  (The branch for [{ error }] entries
    needs an entry without [questions], which a [DirectPdfResult] is not.) *)
Definition normalizeResult (files : list string) (i : nat) (r : option DirectPdfResult)
    : DirectPdfResult :=
  match r with
  | Some result => result
  | None =>
      let path := default "" (files !! i) in
      mkResult false (baseName path) path [] 0 (Some "No result from worker")
        ["No result from worker"]
  end.

(** From [result.results.push(...normalizedResults)] to the end of the
    [try] block. *)
Definition summarize (normalizedResults : list DirectPdfResult) : BatchProcessResult :=
  let processedResults := List.filter (fun r => negb (skipped r)) normalizedResults in
  let skippedResults := List.filter skipped normalizedResults in
  let successfulFiles := length (List.filter success processedResults) in
  mkBatch (0 <? successfulFiles)%nat
    normalizedResults
    (fold_left (fun s r => (s + (if success r then length (questions r) else 0))%nat)
       processedResults 0%nat)
    (length processedResults)
    (length skippedResults)
    (flat_map errors normalizedResults).

(** A worker that has not returned: the dispatched run does not return
    either. *)
Fixpoint returned {A} (entries : list (option (option A))) : option (list (option A)) :=
  match entries with
  | [] => Some []
  | Some None :: _ => None
  | Some (Some a) :: rest => cons (Some a) <$> returned rest
  | None :: rest => cons None <$> returned rest
  end.

Section Run.
Variable NumberToString : number -> string.

(** The environment of a batch: the scheduling of the files and, per file,
    of its chunks; per file, the conversion, the service and what reading
    the file gives; the construction of the client. *)
Variable chooseFiles : list nat -> nat.
Variable chooseChunks : string -> list nat -> nat.
Variable convert : string -> Chunk -> jsval -> exc TaggedQuestion.
Variable respond : string -> Chunk -> Z -> exc jsval.
Variable readPdf : string -> exc Z.
Variable client : exc unit.

(** The worker passed to [runWithConcurrency]; its [catch] has nothing to
    catch, [processPdfWithClaude] handles its own errors. *)
Definition processFile (examContext : EnhancedExamContext) (options : Options)
    (filePath : string) : option DirectPdfResult :=
  processPdfWithClaude NumberToString (chooseChunks filePath) (convert filePath)
    (respond filePath) filePath examContext options (readPdf filePath) client.

(** [pdfFiles] is what [findPdfFiles(inputDir)] returns.  The result is
    [None] when the function does not return. *)
Definition processPdfsDirectly (inputDir : string) (pdfFiles : list string)
    (examContext : EnhancedExamContext) (options : BatchOptions)
    : option BatchProcessResult :=
  if (length pdfFiles =? 0)%nat then
    Some (batchFailed ("No PDF files found in " +:+ inputDir))
  else
    let files := filesToProcess (maxFiles options) pdfFiles in
    let examContext := normalizedContext examContext in
    let fileConcurrency := default 4 (fileConcurrency options) in
    match runWithConcurrency chooseFiles files
            (fun filePath idx => inr (processFile examContext (perFile options) filePath))
            fileConcurrency with
    | None => None
    | Some (inl message) => Some (batchFailed message)
    | Some (inr fileResults) =>
        match returned fileResults with
        | None => None
        | Some fileResults =>
            Some (summarize (imap (normalizeResult files) fileResults))
        end
    end.

End Run.

End Batch.

(** ** Finding the PDF files: [findPdfFiles] *)

Module Finder.
Import JS.

(** What [statSync] and [readdirSync] say about a path, as a finite tree:
    a path that cannot be examined ([statSync] throws), a file, or a
    directory with its entries in [readdirSync] order, [None] when the
    directory cannot be listed ([readdirSync] throws). *)
#[warnings="-register-all"] Inductive FsNode : Type :=
  | Missing
  | File
  | Dir (entries : option (list (string * FsNode))).

Section Search.
(** [path.join] and [path.extname] are not part of the repository. *)
Variable join : string -> string -> string.
Variable extname : string -> string.

(** [extname(item).toLowerCase() === ".pdf"] *)
Definition isPdf (item : string) : bool := String.eqb (toLowerCase (extname item)) ".pdf".

(** [searchRecursive(currentDir)]: the paths pushed to [pdfFiles] by the
    call, in push order.  The [try] holds the whole loop: an entry whose
    [statSync] throws ends the loop of its directory, and what has been
    pushed stays. *)
Fixpoint searchRecursive (currentDir : string) (node : FsNode) {struct node} : list string :=
  match node with
  | Dir (Some items) =>
      (fix loop (items : list (string * FsNode)) : list string :=
         match items with
         | [] => []
         | (item, child) :: rest =>
             let fullPath := join currentDir item in
             match child with
             | Missing => []
             | Dir _ => searchRecursive fullPath child ++ loop rest
             | File => if isPdf item then fullPath :: loop rest else loop rest
             end
         end) items
  | _ => []
  end.

(** The [for (const item of items)] loop of [searchRecursive(currentDir)]. *)
Fixpoint searchItems (currentDir : string) (items : list (string * FsNode)) : list string :=
  match items with
  | [] => []
  | (item, child) :: rest =>
      let fullPath := join currentDir item in
      match child with
      | Missing => []
      | Dir _ => searchRecursive fullPath child ++ searchItems currentDir rest
      | File => if isPdf item then fullPath :: searchItems currentDir rest
                else searchItems currentDir rest
      end
  end.

Definition findPdfFiles (dirPath : string) (root : FsNode) : list string :=
  searchRecursive dirPath root.

End Search.

End Finder.

(** * Properties *)

Module SegmenterFacts.
Import Segmenter.

Example split_20_by_8 :
  splitPdfIntoChunks 20 8 = Some [mkChunk 1 8; mkChunk 9 16; mkChunk 17 20].
Proof. reflexivity. Qed.

Example split_zero_chunk_size_diverges : splitPdfIntoChunks 3 0 = None.
Proof. reflexivity. Qed.

Lemma splitLoop_acc fuel P S start out :
  splitLoop fuel P S start out =
  match splitLoop fuel P S start [] with
  | Some us => Some (out ++ us)
  | None => None
  end.
Proof.
  revert start out. induction fuel as [|fuel IH]; intros start out; simpl.
  - destruct (start <? P); [reflexivity|]. by rewrite app_nil_r.
  - destruct (start <? P) eqn:E.
    + rewrite IH. rewrite (IH _ [_]).
      destruct (splitLoop fuel P S (start + S) []); [|reflexivity].
      by rewrite <- app_assoc.
    + by rewrite app_nil_r.
Qed.

Lemma splitLoop_tiles fuel P S start :
  1 <= S -> 0 <= start < P -> P - start <= Z.of_nat fuel ->
  exists us, splitLoop fuel P S start [] = Some us
    /\ tiles (start + 1) us P
    /\ full_but_last S us
    /\ us <> [].
Proof.
  intros HS. revert start. induction fuel as [|fuel IH]; intros start Hst Hf.
  - lia.
  - simpl. destruct (Z.ltb_spec start P) as [_|]; [|lia].
    rewrite splitLoop_acc.
    destruct (Z.ltb_spec (start + S) P) as [Hlt|Hge].
    + destruct (IH (start + S)) as (us & -> & Ht & Hfull & Hne); [lia|lia|].
      eexists. split; [reflexivity|]. simpl.
      replace (Z.min (start + S - 1) (P - 1) + 1) with (start + S) by lia.
      repeat split; try lia; try done.
      * destruct us as [|u us']; [done|]. simpl. split; [unfold pages; simpl; lia|].
        exact Hfull.
    + assert (Hnil : splitLoop fuel P S (start + S) [] = Some []).
      { destruct fuel; simpl; destruct (Z.ltb_spec (start + S) P); (lia || reflexivity). }
      rewrite Hnil. eexists. split; [reflexivity|]. simpl.
      replace (Z.min (start + S - 1) (P - 1) + 1) with P by lia.
      repeat split; try lia; try done. unfold pages; simpl; lia.
Qed.

Lemma tiles_cover lo us hi p :
  tiles lo us hi -> lo <= p <= hi -> exists i u, us !! i = Some u /\ covers u p.
Proof.
  revert lo. induction us as [|u us IH]; intros lo Ht Hp; simpl in Ht.
  - lia.
  - destruct Ht as (Hfrom & Hle & Ht).
    destruct (Z_le_gt_dec p (toPage u)) as [Hin|Hout].
    + exists 0%nat, u. split; [reflexivity|]. unfold covers. lia.
    + destruct (IH _ Ht) as (i & v & Hi & Hc); [lia|].
      exists (S i), v. split; [exact Hi|exact Hc].
Qed.

Lemma tiles_le lo us hi : tiles lo us hi -> lo <= hi + 1.
Proof.
  revert lo. induction us as [|v us IH]; intros lo Ht; simpl in Ht; [lia|].
  destruct Ht as (Hfrom & Hle & Ht). apply IH in Ht. lia.
Qed.

Lemma tiles_bounds lo us hi i u :
  tiles lo us hi -> us !! i = Some u -> lo <= fromPage u /\ toPage u <= hi.
Proof.
  revert lo i. induction us as [|v us IH]; intros lo i Ht Hi; [done|].
  simpl in Ht. destruct Ht as (Hfrom & Hle & Ht).
  pose proof (tiles_le _ _ _ Ht) as Hhi.
  destruct i as [|i]; simpl in Hi.
  - inversion Hi; subst. lia.
  - destruct (IH _ _ Ht Hi). lia.
Qed.

Lemma tiles_disjoint lo us hi i j u v p :
  tiles lo us hi -> us !! i = Some u -> us !! j = Some v ->
  covers u p -> covers v p -> i = j.
Proof.
  revert lo i j. induction us as [|w us IH]; intros lo i j Ht Hi Hj Hu Hv; [done|].
  simpl in Ht. destruct Ht as (Hfrom & Hle & Ht). unfold covers in *.
  destruct i as [|i], j as [|j]; simpl in Hi, Hj.
  - reflexivity.
  - inversion Hi; subst. destruct (tiles_bounds _ _ _ _ _ Ht Hj). lia.
  - inversion Hj; subst. destruct (tiles_bounds _ _ _ _ _ Ht Hi). lia.
  - f_equal. eapply IH; eauto.
Qed.

Lemma full_but_last_bound S us :
  full_but_last S us -> Forall (fun u => pages u <= S) us.
Proof.
  induction us as [|u us IH]; intros H; [constructor|].
  destruct us as [|v us].
  - constructor; [exact H|constructor].
  - destruct H as [Hu H]. constructor; [lia|]. apply IH, H.
Qed.

(** C2. For a document of [P >= 1] pages and a chunk size [S >= 1],
    splitPdfIntoChunks returns an ordered, non-empty list of units whose
    page ranges tile [1..P] (each page of the document lies in exactly one
    unit, no unit reaches outside [1..P]), each unit spans at most [S] pages,
    and every unit except possibly the last spans exactly [S]. *)
Theorem splitPdfIntoChunks_partition (P S : Z) :
  1 <= P -> 1 <= S ->
  exists units,
    splitPdfIntoChunks P S = Some units
    /\ units <> []
    /\ tiles 1 units P
    /\ (forall p, 1 <= p <= P ->
          exists i u, units !! i = Some u /\ covers u p
            /\ forall j v, units !! j = Some v -> covers v p -> j = i)
    /\ (forall i u, units !! i = Some u -> 1 <= fromPage u <= toPage u /\ toPage u <= P)
    /\ Forall (fun u => pages u <= S) units
    /\ full_but_last S units.
Proof.
  intros HP HS. unfold splitPdfIntoChunks.
  destruct (splitLoop_tiles (Z.to_nat P) P S 0 HS) as (us & Hrun & Ht & Hfull & Hne);
    [lia|lia|].
  exists us. split; [exact Hrun|]. split; [exact Hne|]. split; [exact Ht|].
  split; [|split; [|split]].
  - intros p Hp. destruct (tiles_cover _ _ _ p Ht) as (i & u & Hi & Hc); [lia|].
    exists i, u. split; [exact Hi|]. split; [exact Hc|].
    intros j v Hj Hv. eapply tiles_disjoint; eauto.
  - intros i u Hi. destruct (tiles_bounds _ _ _ _ _ Ht Hi) as [H1 H2].
    split; [|exact H2]. split; [lia|].
    clear -Ht Hi. revert Ht Hi. generalize (0 + 1). revert i.
    induction us as [|w us IH]; intros i lo Ht Hi; [done|].
    simpl in Ht. destruct Ht as (? & ? & Ht). destruct i; simpl in Hi.
    + by inversion Hi; subst.
    + eapply IH; eauto.
  - apply full_but_last_bound, Hfull.
  - exact Hfull.
Qed.

Lemma splitPdfIntoChunks_partition_witness :
  exists units, splitPdfIntoChunks 20 8 = Some units /\ length units = 3%nat.
Proof.
  destruct (splitPdfIntoChunks_partition 20 8) as (us & Hrun & _); [lia|lia|].
  exists us. split; [exact Hrun|].
  vm_compute in Hrun. by inversion Hrun.
Defined.

End SegmenterFacts.

Module YearFilterFacts.
Import Regex YearFilter.

Example year_dash : extractYearFromFilename "ssc-cgl-2023.pdf" = Some "2023".
Proof. vm_compute. reflexivity. Qed.
Example year_underscore_is_a_word_char : extractYearFromFilename "ssc_2023.pdf" = None.
Proof. vm_compute. reflexivity. Qed.
Example year_two_digits : extractYearFromFilename "tier 23.pdf" = Some "2023".
Proof. vm_compute. reflexivity. Qed.
Example year_two_digits_old : extractYearFromFilename "tier 85.pdf" = Some "1985".
Proof. vm_compute. reflexivity. Qed.
Example year_keyword : extractYearFromFilename "CGL_Year_2019_shift1.pdf" = Some "2019".
Proof. vm_compute. reflexivity. Qed.
Example year_keyword_short : extractYearFromFilename "year99_set.pdf" = Some "1999".
Proof. vm_compute. reflexivity. Qed.
Example year_paper : extractYearFromFilename "x1998_Paper.pdf" = Some "1998".
Proof. vm_compute. reflexivity. Qed.
Example year_first_pattern_wins : extractYearFromFilename "year_1999 2021.pdf" = Some "2021".
Proof. vm_compute. reflexivity. Qed.
Example year_none : extractYearFromFilename "question-bank.pdf" = None.
Proof. vm_compute. reflexivity. Qed.

(** *** What a match consumes and captures *)

Definition len (st : mstate) : nat := length (rest st).

Lemma upto_shrinks m n st :
  (forall s, Forall (fun s' => (len s' <= len s)%nat) (m s)) ->
  Forall (fun s' => (len s' <= len st)%nat) (upto m n st).
Proof.
  intros Hm. revert st. induction n as [|n IH]; intros st; simpl.
  - constructor; [lia|constructor].
  - apply Forall_app. split; [|constructor; [lia|constructor]].
    apply List.Forall_flat_map. eapply Forall_impl; [apply Hm|].
    intros s1 H1. simpl. eapply Forall_impl; [apply IH|].
    intros s2 H2. simpl in *. lia.
Qed.

Lemma times_shrinks m n k a b st :
  (forall s, Forall (fun s' => (len s' + a <= len s)%nat) (m s)) ->
  (forall s, Forall (fun s' => (len s' + b <= len s)%nat) (k s)) ->
  Forall (fun s' => (len s' + (n * a + b) <= len st)%nat) (times m n k st).
Proof.
  intros Hm Hk. revert st. induction n as [|n IH]; intros st; simpl.
  - apply Hk.
  - apply List.Forall_flat_map. eapply Forall_impl; [apply Hm|].
    intros s1 H1. simpl. eapply Forall_impl; [apply IH|].
    intros s2 H2. simpl in *. lia.
Qed.

Lemma rmatch_shrinks r st :
  Forall (fun st' => (len st' + minlen r <= len st)%nat) (rmatch r st).
Proof.
  revert st. induction r as [|p|r1 IH1 r2 IH2|r1 IH1|lo hi r1 IH1| | | |r1 IH1];
    intros st; simpl.
  - constructor; [lia|constructor].
  - unfold len. destruct (rest st) as [|c t] eqn:E; [constructor|].
    destruct (p c); constructor; [simpl; lia|constructor].
  - apply List.Forall_flat_map. eapply Forall_impl; [apply IH1|].
    intros s1 H1. simpl. eapply Forall_impl; [apply IH2|].
    intros s2 H2. simpl in *. lia.
  - apply Forall_app. split; [|constructor; [lia|constructor]].
    eapply Forall_impl; [apply IH1|]. intros s1 H1. simpl in *. lia.
  - eapply Forall_impl; [apply (times_shrinks _ lo _ (minlen r1) 0)|].
    + apply IH1.
    + intros s. eapply Forall_impl; [apply upto_shrinks|].
      * intros s0. eapply Forall_impl; [apply IH1|]. intros; simpl in *; lia.
      * intros; simpl in *; lia.
    + intros; simpl in *; lia.
  - destruct (xorb _ _); constructor; [lia|constructor].
  - destruct (prev st); constructor; [lia|constructor].
  - destruct (rest st) eqn:E; constructor; [lia|constructor].
  - apply Forall_map. eapply Forall_impl; [apply IH1|].
    intros s1 H1. unfold len in *. simpl in *. lia.
Qed.

(** [cap_ok n st]: what has been captured, if anything, has [n] characters or more. *)
Definition cap_ok (n : nat) (st : mstate) : Prop :=
  forall c, cap st = Some c -> (n <= length c)%nat.

Lemma upto_inv (P : mstate -> Prop) m n st :
  (forall s, P s -> Forall P (m s)) -> P st -> Forall P (upto m n st).
Proof.
  intros Hm. revert st. induction n as [|n IH]; intros st Hst; simpl.
  - constructor; [done|constructor].
  - apply Forall_app. split; [|constructor; [done|constructor]].
    apply List.Forall_flat_map. eapply Forall_impl; [apply Hm, Hst|].
    intros s1 H1. apply IH, H1.
Qed.

Lemma times_inv (P : mstate -> Prop) m n k st :
  (forall s, P s -> Forall P (m s)) -> (forall s, P s -> Forall P (k s)) ->
  P st -> Forall P (times m n k st).
Proof.
  intros Hm Hk. revert st. induction n as [|n IH]; intros st Hst; simpl.
  - apply Hk, Hst.
  - apply List.Forall_flat_map. eapply Forall_impl; [apply Hm, Hst|].
    intros s1 H1. apply IH, H1.
Qed.

Lemma rmatch_cap n r st :
  groups_min n r -> cap_ok n st -> Forall (cap_ok n) (rmatch r st).
Proof.
  revert st. induction r as [|p|r1 IH1 r2 IH2|r1 IH1|lo hi r1 IH1| | | |r1 IH1];
    intros st Hg Hst; simpl in *.
  - constructor; [done|constructor].
  - destruct (rest st) as [|c t]; [constructor|].
    destruct (p c); constructor; [exact Hst|constructor].
  - destruct Hg as [Hg1 Hg2].
    apply List.Forall_flat_map. eapply Forall_impl; [apply IH1; assumption|].
    intros s1 H1. apply IH2; assumption.
  - apply Forall_app. split; [apply IH1; assumption|constructor; [done|constructor]].
  - apply times_inv; [auto| |done].
    intros s Hs. apply upto_inv; auto.
  - destruct (xorb _ _); constructor; [done|constructor].
  - destruct (prev st); constructor; [done|constructor].
  - destruct (rest st); constructor; [done|constructor].
  - destruct Hg as [Hn Hg]. apply Forall_map.
    eapply Forall_impl; [apply rmatch_shrinks|].
    intros s1 H1 c Hc. simpl in Hc. inversion Hc; subst c.
    rewrite length_take. unfold len in H1. lia.
Qed.

Lemma search_cap n r before s st :
  groups_min n r -> search r before s = Some st -> cap_ok n st.
Proof.
  intros Hg. revert before. induction s as [|c t IH]; intros before; simpl.
  - pose proof (rmatch_cap n r (mkState before [] None) Hg) as H.
    destruct (rmatch r _) as [|st0 l]; [done|].
    intros [= <-]. apply Forall_cons_1 in H as [H _]; [exact H|]. by intros c.
  - pose proof (rmatch_cap n r (mkState before (c :: t) None) Hg) as H.
    destruct (rmatch r _) as [|st0 l]; [apply IH|].
    intros [= <-]. apply Forall_cons_1 in H as [H _]; [exact H|]. by intros c0.
Qed.

Lemma length_string_of_list l : String.length (string_of_list_ascii l) = length l.
Proof. induction l as [|c l IH]; simpl; congruence. Qed.

Lemma match1_min n r s y :
  groups_min n r -> match1 r s = Some (Some y) -> (n <= String.length y)%nat.
Proof.
  unfold match1. intros Hg. destruct (search r None _) as [st|] eqn:E; [|done].
  apply (search_cap n) in E; [|exact Hg].
  destruct (cap st) as [c|] eqn:Ec; simpl; [|done].
  intros [= <-]. rewrite length_string_of_list. by apply E.
Qed.

Lemma length_append (a b : string) :
  String.length (a +:+ b) = (String.length a + String.length b)%nat.
Proof.
  induction a as [|c a IH]; [reflexivity|].
  change (S (String.length (a +:+ b)) = S (String.length a + String.length b)).
  by rewrite IH.
Qed.

Lemma widen_min year : (2 <= String.length year)%nat -> (2 <= String.length (widen year))%nat.
Proof.
  intros H. unfold widen. destruct (_ =? 2)%nat; [|exact H].
  destruct (le30 _); rewrite length_append; simpl; lia.
Qed.

Lemma firstYear_min ps f y :
  Forall (groups_min 2) ps -> firstYear ps f = Some y -> (2 <= String.length y)%nat.
Proof.
  induction ps as [|p ps IH]; intros Hg; simpl; [done|].
  apply Forall_cons_1 in Hg as [Hp Hps].
  destruct (match1 p f) as [[year|]|] eqn:E; [|done|by apply IH].
  intros [= <-]. apply widen_min. eapply match1_min; eauto.
Qed.

(** A detected year is never the empty string: it has two characters or more. *)
Lemma extractYear_min f y :
  extractYearFromFilename f = Some y -> (2 <= String.length y)%nat.
Proof.
  apply firstYear_min. unfold yearPatterns.
  repeat (constructor; [simpl; repeat split; lia|]). constructor.
Qed.

Lemma extractYear_detected f y :
  extractYearFromFilename f = Some y -> not_detected (Some y) = false.
Proof.
  intros H. apply extractYear_min in H. destruct y; simpl in *; [lia|reflexivity].
Qed.

(** [captures r]: the group takes part in every match of [r]. *)
Fixpoint captures (r : regex) : Prop :=
  match r with
  | Group _ => True
  | Seq r1 r2 => captures r1 \/ captures r2
  | _ => False
  end.

Definition captured (st : mstate) : Prop := cap st <> None.

Lemma rmatch_keeps r st : captured st -> Forall captured (rmatch r st).
Proof.
  revert st. induction r as [|p|r1 IH1 r2 IH2|r1 IH1|lo hi r1 IH1| | | |r1 IH1];
    intros st Hst; simpl.
  - constructor; [done|constructor].
  - destruct (rest st) as [|c t]; [constructor|].
    destruct (p c); constructor; [exact Hst|constructor].
  - apply List.Forall_flat_map. eapply Forall_impl; [by apply IH1|]. intros s1 H1. by apply IH2.
  - apply Forall_app. split; [by apply IH1|constructor; [done|constructor]].
  - apply times_inv; [auto| |done]. intros s Hs. apply upto_inv; auto.
  - destruct (xorb _ _); constructor; [done|constructor].
  - destruct (prev st); constructor; [done|constructor].
  - destruct (rest st); constructor; [done|constructor].
  - apply Forall_map. apply Forall_forall. intros s1 _. unfold captured. simpl. done.
Qed.

Lemma rmatch_captures r st : captures r -> Forall captured (rmatch r st).
Proof.
  revert st. induction r as [|p|r1 IH1 r2 IH2|r1 IH1|lo hi r1 IH1| | | |r1 IH1];
    intros st Hr; simpl in *; try done.
  - apply List.Forall_flat_map. destruct Hr as [Hr|Hr].
    + eapply Forall_impl; [by apply IH1|]. intros s1 H1. by apply rmatch_keeps.
    + apply Forall_forall. intros s1 _. by apply IH2.
  - apply Forall_map. apply Forall_forall. intros s1 _. unfold captured. simpl. done.
Qed.

Lemma match1_captures r s : captures r -> match1 r s <> Some None.
Proof.
  intros Hr. unfold match1.
  assert (H : forall before l st, search r before l = Some st -> captured st).
  { intros before l. revert before. induction l as [|c t IH]; intros before st; simpl.
    - pose proof (rmatch_captures r (mkState before [] None) Hr) as Hc.
      destruct (rmatch r _) as [|st0 l0]; [done|].
      intros [= <-]. by apply Forall_cons_1 in Hc as [Hc _].
    - pose proof (rmatch_captures r (mkState before (c :: t) None) Hr) as Hc.
      destruct (rmatch r _) as [|st0 l0]; [apply IH|].
      intros [= <-]. by apply Forall_cons_1 in Hc as [Hc _]. }
  destruct (search r None _) as [st|] eqn:E; [|done].
  apply H in E. unfold captured in E. by destruct (cap st).
Qed.

(** In each of the four patterns the group is mandatory: [match[1]] is a
    string whenever the pattern matches. *)
Lemma yearPatterns_capture fileName :
  Forall (fun pattern => match1 pattern fileName <> Some None) yearPatterns.
Proof.
  unfold yearPatterns.
  repeat (constructor; [apply match1_captures; simpl; tauto|]). constructor.
Qed.

(** *** The pre-filter decision table *)

(** The table of the specification, row by row. *)
Definition decisionTable (detected : option string) (examContext : EnhancedExamContext)
    : FilterCheck :=
  match allowedYears examContext with
  | None | Some [] => mkCheck true None None
  | Some allowed =>
      match detected with
      | Some year =>
          if includes allowed year
          then mkCheck true
                 (Some ("Year " +:+ year +:+ " is in allowed years: " +:+ join allowed))
                 (Some year)
          else mkCheck false
                 (Some ("Year " +:+ year +:+ " not in allowed years: " +:+ join allowed))
                 (Some year)
      | None =>
          if strictYearFiltering examContext
          then mkCheck false
                 (Some "No year detected in filename, strict filtering enabled") None
          else mkCheck true (Some "No year detected, strict filtering disabled") None
      end
  end.

(** shouldProcessPdf is the table applied to the detected year. *)
Lemma prefilter_table (fileName : string) (examContext : EnhancedExamContext) :
  shouldProcessPdf fileName examContext
  = decisionTable (extractYearFromFilename fileName) examContext.
Proof.
  unfold shouldProcessPdf, decisionTable.
  destruct (allowedYears examContext) as [[|a allowed]|]; try reflexivity.
  destruct (extractYearFromFilename fileName) as [year|] eqn:E.
  - rewrite (extractYear_detected _ _ E). simpl. reflexivity.
  - simpl. destruct (strictYearFiltering examContext); reflexivity.
Qed.

Example prefilter_no_years :
  shouldProcessPdf "anything.pdf" (mkContext (Some []) true) = mkCheck true None None.
Proof. reflexivity. Qed.
Example prefilter_allowed :
  shouldProcessPdf "cgl-2023.pdf" (mkContext (Some ["2022"; "2023"]) true)
  = mkCheck true (Some "Year 2023 is in allowed years: 2022, 2023") (Some "2023").
Proof. vm_compute. reflexivity. Qed.
Example prefilter_mismatch :
  shouldProcessPdf "cgl-2021.pdf" (mkContext (Some ["2022"; "2023"]) false)
  = mkCheck false (Some "Year 2021 not in allowed years: 2022, 2023") (Some "2021").
Proof. vm_compute. reflexivity. Qed.
Example prefilter_lenient :
  shouldProcessPdf "cgl.pdf" (mkContext (Some ["2023"]) false)
  = mkCheck true (Some "No year detected, strict filtering disabled") None.
Proof. vm_compute. reflexivity. Qed.
Example prefilter_strict :
  shouldProcessPdf "cgl.pdf" (mkContext (Some ["2023"]) true)
  = mkCheck false (Some "No year detected in filename, strict filtering enabled") None.
Proof. vm_compute. reflexivity. Qed.

(** *** Year normalisation *)

Lemma twoDigits_not_later c s : search twoDigits (Some c) s = None.
Proof. revert c. induction s as [|d s IH]; intros c; simpl; [reflexivity|apply IH]. Qed.

Lemma test_twoDigits_spec y :
  test twoDigits y = true <->
  exists a b, is_digit a = true /\ is_digit b = true /\ y = String a (String b "").
Proof.
  unfold test. destruct y as [|a [|b y]]; simpl.
  - split; [done|]. by intros (? & ? & ? & ? & ?).
  - destruct (is_digit a); simpl; (split; [done|]); by intros (? & ? & ? & ? & ?).
  - destruct (is_digit a) eqn:Ea; simpl.
    + destruct (is_digit b) eqn:Eb; simpl.
      * destruct y as [|c y]; simpl.
        -- split; [|done]. intros _. by exists a, b.
        -- rewrite twoDigits_not_later. split; [done|]. by intros (? & ? & ? & ? & ?).
      * rewrite twoDigits_not_later. split; [done|].
        intros (? & ? & ? & ? & [= -> -> ->]). congruence.
    + rewrite twoDigits_not_later. split; [done|].
      intros (? & ? & ? & ? & [= -> -> ->]). congruence.
Qed.

Lemma digit_not_space c : is_digit c = true -> is_space c = false.
Proof.
  unfold is_digit, is_space, between. intros H.
  apply andb_true_iff in H as [H1 H2].
  apply Nat.leb_le in H1. apply Nat.leb_le in H2.
  repeat (apply orb_false_iff; split).
  - apply andb_false_iff. right. apply Nat.leb_gt. lia.
  - apply Nat.eqb_neq. lia.
  - apply Nat.eqb_neq. lia.
Qed.

Definition starts_clean (l : list ascii) : Prop :=
  match l with c :: _ => is_space c = false | [] => True end.

Lemma trimStart_clean l : starts_clean (trimStart l).
Proof.
  induction l as [|c l IH]; simpl; [done|].
  destruct (is_space c) eqn:E; [exact IH|exact E].
Qed.

Lemma trimStart_id l : starts_clean l -> trimStart l = l.
Proof. destruct l as [|c l]; simpl; [done|]. by intros ->. Qed.

Lemma trimEnd_clean l : starts_clean l -> starts_clean (trimEnd l).
Proof.
  destruct l as [|c l]; simpl; [done|]. intros E.
  destruct (trimEnd l); [by rewrite E|exact E].
Qed.

Lemma trimEnd_idem l : trimEnd (trimEnd l) = trimEnd l.
Proof.
  induction l as [|c l IH]; simpl; [reflexivity|].
  destruct (trimEnd l) as [|d l'] eqn:E.
  - destruct (is_space c) eqn:Ec; simpl; [reflexivity|by rewrite Ec].
  - simpl in *. by rewrite IH.
Qed.

Lemma trim_idem s : trim (trim s) = trim s.
Proof.
  unfold trim. rewrite list_ascii_of_string_of_list_ascii.
  rewrite trimStart_id by apply trimEnd_clean, trimStart_clean.
  by rewrite trimEnd_idem.
Qed.

Lemma trimEnd_digits l : Forall (fun c => is_space c = false) l -> trimEnd l = l.
Proof.
  induction 1 as [|c l Hc Hl IH]; simpl; [reflexivity|].
  rewrite IH. destruct l; [by rewrite Hc|reflexivity].
Qed.

Lemma trim_clean s :
  Forall (fun c => is_space c = false) (list_ascii_of_string s) -> trim s = s.
Proof.
  intros H. unfold trim. rewrite trimStart_id.
  - rewrite trimEnd_digits by exact H. apply string_of_list_ascii_of_string.
  - destruct H; simpl; done.
Qed.

(** A year is in normal form when [normalizeYears] has nothing left to do. *)
Definition normal (y : string) : Prop :=
  trim y = y /\ nonempty y = true /\ normalizeYear y = y.

Lemma normalizeYear_normal z :
  trim z = z -> nonempty z = true -> normal (normalizeYear z).
Proof.
  intros Ht Hn. unfold normalizeYear.
  destruct (test twoDigits z) eqn:E.
  - apply test_twoDigits_spec in E as (a & b & Ha & Hb & ->).
    assert (H : forall p q, is_digit p = true -> is_digit q = true ->
              normal (String p (String q (String a (String b ""))))).
    { intros p q Hp Hq. split; [|split; [reflexivity|]].
      - apply trim_clean. simpl.
        repeat (constructor; [by apply digit_not_space|]). constructor.
      - unfold normalizeYear.
        destruct (test twoDigits _) eqn:E; [|reflexivity].
        by apply test_twoDigits_spec in E as (? & ? & ? & ? & ?). }
    destruct (le30 _); apply H; reflexivity.
  - split; [exact Ht|]. split; [exact Hn|].
    unfold normalizeYear. by rewrite E.
Qed.

Lemma normalize_stable ys :
  Forall normal ys -> map normalizeYear (List.filter nonempty (map trim ys)) = ys.
Proof.
  induction 1 as [|y ys (Ht & Hn & Hy) _ IH]; simpl; [reflexivity|].
  rewrite Ht, Hn. simpl. by rewrite Hy, IH.
Qed.

Lemma normalizeYears_normal years : Forall normal (normalizeYears years).
Proof.
  assert (H : forall ys, Forall normal (map normalizeYear (List.filter nonempty (map trim ys)))).
  { induction ys as [|y ys IH]; simpl; [constructor|].
    destruct (nonempty (trim y)) eqn:E; [|exact IH].
    simpl. constructor; [|exact IH].
    apply normalizeYear_normal; [apply trim_idem|exact E]. }
  destruct years as [[|y ys]|]; simpl; try constructor.
  apply (H (y :: ys)).
Qed.

Lemma normalizeYears_stable ys : Forall normal ys -> normalizeYears (Some ys) = ys.
Proof.
  intros H. destruct ys as [|y ys]; [reflexivity|].
  unfold normalizeYears. by apply normalize_stable.
Qed.

Definition twoDigitYear (a b : ascii) : string := String a (String b "").

(** C10. normalizeYears widens a two-digit year by the rule "at most 30 is
    20xx, above 30 is 19xx" ("23" gives "2023", "85" gives "1985"), leaves a
    year of four digits as it is, and is idempotent: run on its own output
    it returns that output. *)
Theorem normalizeYears_idempotent :
  (forall a b, is_digit a = true -> is_digit b = true ->
     normalizeYears (Some [twoDigitYear a b])
     = [if 10 * digit_value a + digit_value b <=? 30
        then "20" +:+ twoDigitYear a b else "19" +:+ twoDigitYear a b])
  /\ normalizeYears (Some ["23"]) = ["2023"]
  /\ normalizeYears (Some ["85"]) = ["1985"]
  /\ (forall a b c d,
        is_digit a = true -> is_digit b = true -> is_digit c = true -> is_digit d = true ->
        normalizeYears (Some [String a (String b (String c (String d "")))])
        = [String a (String b (String c (String d "")))])
  /\ (forall years, normalizeYears (Some (normalizeYears years)) = normalizeYears years).
Proof.
  split; [|split; [|split; [|split]]].
  - intros a b Ha Hb. unfold normalizeYears, twoDigitYear. simpl map.
    rewrite trim_clean
      by (simpl; repeat (constructor; [by apply digit_not_space|]); constructor).
    simpl. unfold normalizeYear.
    assert (E : test twoDigits (String a (String b "")) = true).
    { apply test_twoDigits_spec. by exists a, b. }
    rewrite E. unfold parseInt. simpl. rewrite Ha, Hb. simpl.
    replace (10 * (0 + digit_value a) + digit_value b)
      with (10 * digit_value a + digit_value b) by lia.
    reflexivity.
  - vm_compute. reflexivity.
  - vm_compute. reflexivity.
  - intros a b c d Ha Hb Hc Hd. apply normalizeYears_stable.
    constructor; [|constructor].
    split; [|split; [reflexivity|]].
    + apply trim_clean. simpl.
      repeat (constructor; [by apply digit_not_space|]). constructor.
    + unfold normalizeYear. destruct (test twoDigits _) eqn:E; [|reflexivity].
      by apply test_twoDigits_spec in E as (? & ? & ? & ? & ?).
  - intros years. apply normalizeYears_stable, normalizeYears_normal.
Qed.

Lemma normalizeYears_idempotent_witness :
  normalizeYears (Some [twoDigitYear "0" "7"]) = ["2007"]
  /\ normalizeYears (Some ["1999"]) = ["1999"]
  /\ normalizeYears (Some (normalizeYears (Some [" 23 "; ""; "85"; "2021"])))
     = ["2023"; "1985"; "2021"].
Proof.
  destruct normalizeYears_idempotent as (H2 & _ & _ & H4 & Hidem).
  split; [exact (H2 "0"%char "7"%char eq_refl eq_refl)|].
  split; [exact (H4 "1"%char "9"%char "9"%char "9"%char eq_refl eq_refl eq_refl eq_refl)|].
  rewrite Hidem. vm_compute. reflexivity.
Defined.

End YearFilterFacts.

Module DispatcherFacts.
Import Dispatcher JS Resilient.

(** Three items, the second throws. *)
Definition sample_worker (item : string) (i : nat) : exc string :=
  if String.eqb item "b" then throw "boom" else inr ("done " +:+ item).

(** The same worker, with what it rejects with: [new Error("boom")]. *)
Definition rejecting_worker (item : string) (i : nat) : Rejection + string :=
  if String.eqb item "b" then inl (RejValue (VStr "boom") (inr "Error: boom"))
  else inr ("done " +:+ item).

Definition fifo (l : list nat) : nat := hd 0%nat l.
Definition lifo (l : list nat) : nat := List.last l 0%nat.

Example resilient_K1 :
  runWithConcurrency_resilient fifo ["a"; "b"; "c"] rejecting_worker 1
  = Some (inr [Some (inr "done a"); Some (inl (VStr "boom")); Some (inr "done c")]).
Proof. vm_compute. reflexivity. Qed.

Example resilient_K5_lifo :
  runWithConcurrency_resilient lifo ["a"; "b"; "c"] rejecting_worker 5
  = Some (inr [Some (inr "done a"); Some (inl (VStr "boom")); Some (inr "done c")]).
Proof. vm_compute. reflexivity. Qed.

Example rethrow_K1 :
  runWithConcurrency fifo ["a"; "b"; "c"] sample_worker 1 = Some (inl "boom").
Proof. vm_compute. reflexivity. Qed.

Example rethrow_K5 :
  runWithConcurrency lifo ["a"; "b"; "c"] sample_worker 5 = Some (inl "boom").
Proof. vm_compute. reflexivity. Qed.

Example all_fine_K2 :
  runWithConcurrency lifo ["a"; "c"; "d"] sample_worker 2
  = Some (inr [Some "done a"; Some "done c"; Some "done d"]).
Proof. vm_compute. reflexivity. Qed.

(** *** The invariant of a run *)

Section Invariant.
Context {T E : Type}.
Variable choose : list nat -> nat.
Variable items : list T.
Variable attempt : T -> nat -> exc E.

Abbreviation state := (@state E).
Abbreviation next := (@next T E items).
Abbreviation settle := (@settle T E items attempt).
Abbreviation drive := (@drive T E choose items attempt).

Lemma js_get_set_eq (l : list (option E)) i v : js_get (js_set l i v) i = Some v.
Proof.
  unfold js_get, js_set. destruct (decide (i < length l)%nat) as [Hlt|Hge].
  - by rewrite list_lookup_insert_eq.
  - rewrite lookup_app_r by lia. rewrite lookup_app_r by (rewrite length_replicate; lia).
    rewrite length_replicate. by replace (i - length l - (i - length l))%nat with 0%nat by lia.
Qed.

Lemma js_get_set_ne (l : list (option E)) i j v :
  j ≠ i -> js_get (js_set l i v) j = js_get l j.
Proof.
  intros Hne. unfold js_get, js_set. destruct (decide (i < length l)%nat) as [Hlt|Hge].
  - by rewrite list_lookup_insert_ne.
  - destruct (decide (j < length l)%nat) as [Hj|Hj].
    + by rewrite lookup_app_l.
    + rewrite (lookup_ge_None_2 l j) by lia. rewrite lookup_app_r by lia.
      destruct (decide (j < i)%nat) as [Hji|Hji].
      * rewrite lookup_app_l by (rewrite length_replicate; lia).
        by rewrite lookup_replicate_2 by lia.
      * rewrite lookup_app_r by (rewrite length_replicate; lia).
        rewrite length_replicate.
        by rewrite lookup_ge_None_2 by (simpl; lia).
Qed.

Lemma length_js_set (l : list (option E)) i v :
  length (js_set l i v) = (length l `max` S i)%nat.
Proof.
  unfold js_set. destruct (decide (i < length l)%nat).
  - rewrite length_insert. lia.
  - rewrite !length_app, length_replicate. simpl. lia.
Qed.

(** What is known between two settlements: no entry past the last item;
    the items in flight have been picked; every item picked and no longer
    in flight has its value stored; and a runner is still at work unless
    all items have been picked. *)
Record inv (st : state) : Prop := mkInv {
  inv_length : (length (results st) <= length items)%nat;
  inv_flight : forall j, j ∈ inflight st -> (j < length items)%nat /\ (j < idx st)%nat;
  inv_done : forall j, (j < length items)%nat -> (j < idx st)%nat -> j ∉ inflight st ->
    exists item e, items !! j = Some item /\ attempt item j = inr e
      /\ js_get (results st) j = Some e;
  inv_busy : inflight st ≠ [] \/ (length items <= idx st)%nat
}.

(** The first three parts, which hold also before any runner has started. *)
Record inv0 (st : state) : Prop := mkInv0 {
  inv0_length : (length (results st) <= length items)%nat;
  inv0_flight : forall j, j ∈ inflight st -> (j < length items)%nat /\ (j < idx st)%nat;
  inv0_done : forall j, (j < length items)%nat -> (j < idx st)%nat -> j ∉ inflight st ->
    exists item e, items !! j = Some item /\ attempt item j = inr e
      /\ js_get (results st) j = Some e
}.

Definition measure (st : state) : nat :=
  (length items - idx st + length (inflight st))%nat.

Lemma next_inv st : inv0 st -> inv (next st).
Proof.
  intros [Hl Hf Hd]. unfold next.
  destruct (decide (idx st < length items)%nat) as [Hlt|Hge]; split; simpl.
  - exact Hl.
  - intros j [Hj| ->%list_elem_of_singleton]%elem_of_app; [|lia].
    destruct (Hf j Hj). lia.
  - intros j HjN Hj Hnot.
    assert (j ≠ idx st) by (intros ->; apply Hnot, elem_of_app; right; by constructor).
    apply Hd; [lia|lia|]. intros Hin. apply Hnot, elem_of_app. by left.
  - left. by destruct (inflight st).
  - exact Hl.
  - intros j Hj. destruct (Hf j Hj). lia.
  - intros j HjN Hj Hnot. apply Hd; [lia|lia|done].
  - right. lia.
Qed.

Lemma next_measure st :
  (measure (next st) <= measure st)%nat.
Proof.
  unfold measure, next. destruct (decide (idx st < length items)%nat); simpl.
  - rewrite length_app. simpl. lia.
  - lia.
Qed.

Lemma inv_inv0 st : inv st -> inv0 st.
Proof. intros [? ? ? _]. by split. Qed.

Lemma settle_ok i st st' :
  inv st -> i ∈ inflight st -> settle i st = inr st' ->
  inv st' /\ (measure st' < measure st)%nat.
Proof.
  intros [Hl Hf Hd Hb] Hi. unfold settle.
  destruct (Hf i Hi) as [HiN Hidx].
  destruct (lookup_lt_is_Some_2 items i HiN) as [item Hitem]. rewrite Hitem.
  destruct (attempt item i) as [err|e] eqn:Ha; simpl; [done|].
  intros [= <-]. split.
  - apply next_inv. split; simpl.
    + rewrite length_js_set. lia.
    + intros j [_ Hj]%list_elem_of_filter. by apply Hf.
    + intros j HjN Hj Hnot. destruct (decide (j = i)) as [->|Hne].
      * exists item, e. by rewrite js_get_set_eq.
      * rewrite js_get_set_ne by done. apply Hd; [done|done|].
        intros Hin. apply Hnot, list_elem_of_filter. by split.
  - eapply Nat.le_lt_trans; [apply next_measure|].
    unfold measure. simpl.
    pose proof (length_filter_lt (λ j, j ≠ i) (inflight st) i Hi) as Hlt.
    assert (length (filter (λ j, j ≠ i) (inflight st)) < length (inflight st))%nat
      by (apply Hlt; tauto).
    lia.
Qed.

Lemma settle_throws i st err :
  settle i st = inl err -> exists item, items !! i = Some item /\ attempt item i = inl err.
Proof.
  unfold settle. destruct (items !! i) as [item|]; [|done].
  destruct (attempt item i) as [e|v] eqn:Ha; simpl; [|done].
  intros [= <-]. by exists item.
Qed.

Lemma chosen_in (l : list nat) first rest :
  l = first :: rest -> chosen choose l first ∈ l.
Proof.
  intros ->. unfold chosen. destruct (decide (choose (first :: rest) ∈ first :: rest)); [done|].
  by constructor.
Qed.

(** What [Promise.all] settles to. *)
Definition outcome_ok (out : exc (list (option E))) : Prop :=
  match out with
  | inr res =>
      length res = length items
      /\ forall j item, items !! j = Some item ->
           exists e, attempt item j = inr e /\ res !! j = Some (Some e)
  | inl err => exists j item, items !! j = Some item /\ attempt item j = inl err
  end.

Lemma finished_ok st :
  inv st -> inflight st = [] -> outcome_ok (inr (results st)).
Proof.
  intros [Hl Hf Hd Hb] Hnil. destruct Hb as [Hb|Hb]; [done|].
  assert (Hall : forall j item, items !! j = Some item ->
            exists e, attempt item j = inr e /\ results st !! j = Some (Some e)).
  { intros j item Hj. pose proof (lookup_lt_Some _ _ _ Hj) as HjN.
    destruct (Hd j HjN) as (item' & e & Hj' & Ha & Hg);
      [lia|by rewrite Hnil; apply not_elem_of_nil|].
    assert (item' = item) as -> by congruence. exists e. split; [done|].
    unfold js_get in Hg. by destruct (results st !! j) as [[?|]|]; simplify_eq. }
  split; [|exact Hall].
  destruct (decide (length items = 0)%nat) as [H0|H0]; [lia|].
  destruct (lookup_lt_is_Some_2 items (length items - 1)) as [item Hitem]; [lia|].
  destruct (Hall _ _ Hitem) as (e & _ & He). apply lookup_lt_Some in He. lia.
Qed.

Lemma drive_ok fuel st :
  inv st -> (measure st <= fuel)%nat ->
  exists out, drive fuel st = Some out /\ outcome_ok out.
Proof.
  revert st. induction fuel as [|fuel IH]; intros st Hinv Hm.
  - assert (Hnil : inflight st = []).
    { unfold measure in Hm. destruct (inflight st); [done|simpl in Hm; lia]. }
    simpl. rewrite Hnil. eexists. split; [reflexivity|]. by apply finished_ok.
  - simpl. destruct (inflight st) as [|first rest] eqn:Hfl.
    + eexists. split; [reflexivity|]. by apply finished_ok.
    + pose proof (chosen_in (first :: rest) first rest eq_refl) as Hin.
      rewrite <- Hfl in Hin at 2.
      destruct (settle (chosen choose (first :: rest) first) st) as [err|st'] eqn:Hs.
      * eexists. split; [reflexivity|]. simpl.
        destruct (settle_throws _ _ _ Hs) as (item & Hitem & Ha). eauto.
      * destruct (settle_ok _ _ _ Hinv Hin Hs) as [Hinv' Hlt].
        apply IH; [exact Hinv'|lia].
Qed.

Lemma spawn_inv n init :
  (length init <= length items)%nat ->
  inv0 (Nat.iter n next (mkSt 0 init [])) /\
  (measure (Nat.iter n next (mkSt 0 init [])) <= length items)%nat /\
  (0 < n -> inv (Nat.iter n next (mkSt 0 init [])))%nat.
Proof.
  intros Hinit. induction n as [|n (IH0 & IHm & _)]; simpl.
  - split; [|split; [unfold measure; simpl; lia|lia]].
    split; simpl; [done| |lia]. intros j Hj. by apply not_elem_of_nil in Hj.
  - pose proof (next_inv _ IH0) as Hn.
    split; [by apply inv_inv0|]. split; [|done].
    eapply Nat.le_trans; [apply next_measure|exact IHm].
Qed.

(** With at least one runner, the dispatch settles: it resolves with one
    stored value per item, in item order, or rejects with the error of one
    of the items. *)
Lemma dispatch_ok init (concurrency : Z) :
  (length init <= length items)%nat -> 1 <= concurrency -> items ≠ [] ->
  exists out, dispatch choose items attempt init concurrency = Some out /\ outcome_ok out.
Proof.
  intros Hinit HK Hne. unfold dispatch.
  destruct (spawn_inv (Z.to_nat (concurrency `min` Z.of_nat (length items))) init Hinit)
    as (_ & Hm & Hinv).
  apply drive_ok; [|exact Hm].
  apply Hinv. destruct items; [done|]. simpl length. lia.
Qed.

End Invariant.

(** *** What the two versions give their caller *)

Lemma dispatch_no_items {T E} choose (attempt : T -> nat -> exc E) init K :
  dispatch choose [] attempt init K = Some (inr init).
Proof.
  unfold dispatch.
  assert (Z.to_nat (K `min` Z.of_nat (length (@nil T))) = 0%nat) as -> by (simpl; lia).
  reflexivity.
Qed.

Lemma dispatch_no_runner {T E} choose (items : list T) (attempt : T -> nat -> exc E) init K :
  K <= 0 -> dispatch choose items attempt init K = Some (inr init).
Proof.
  intros HK. unfold dispatch.
  replace (Z.to_nat (K `min` Z.of_nat (length items))) with 0%nat by lia.
  simpl. by destruct (length items).
Qed.

(** A worker that never throws: every item's value comes back, in item
    order, whatever the completion order. *)
Lemma runWithConcurrency_total {T R} choose (items : list T) (f : T -> nat -> R) K :
  1 <= K ->
  runWithConcurrency choose items (fun item i => inr (f item i)) K
  = Some (inr (imap (fun i item => Some (f item i)) items)).
Proof.
  intros HK. unfold runWithConcurrency.
  destruct items as [|x items'] eqn:Hitems; [by rewrite dispatch_no_items|].
  rewrite <- Hitems.
  destruct (dispatch_ok choose items (fun item i => inr (f item i)) [] K)
    as (out & -> & Hout); [simpl; lia|done|by rewrite Hitems|].
  destruct out as [err|res]; simpl in Hout.
  - by destruct Hout as (? & ? & ? & ?).
  - destruct Hout as [Hlen Hall]. do 2 f_equal. apply list_eq. intros j.
    rewrite list_lookup_imap.
    destruct (items !! j) as [item|] eqn:Hj; simpl.
    + destruct (Hall j item Hj) as (e & [= <-] & ->). reflexivity.
    + apply lookup_ge_None_2. apply lookup_ge_None_1 in Hj. lia.
Qed.

(** The version that stores [{ error }]: when the [catch] itself does not
    throw for any item (no worker rejects with [null] or [undefined]), there
    is one entry per item, the worker's value or [{ error }], and nothing is
    thrown at the caller. *)
Lemma runWithConcurrency_resilient_isolates {T R} choose (items : list T)
    (worker : T -> nat -> Rejection + R) (entry : T -> nat -> settled R) K :
  1 <= K ->
  (forall i item, items !! i = Some item ->
     attemptResilient worker item i = inr (entry item i)) ->
  runWithConcurrency_resilient choose items worker K
  = Some (inr (imap (fun i item => Some (entry item i)) items)).
Proof.
  intros HK Hentry. unfold runWithConcurrency_resilient.
  destruct items as [|x items'] eqn:Hitems; [by rewrite dispatch_no_items|].
  rewrite <- Hitems in *.
  destruct (dispatch_ok choose items (attemptResilient worker)
              (replicate (length items) None) K)
    as (out & -> & Hout); [by rewrite length_replicate|done|by rewrite Hitems|].
  destruct out as [err|res]; simpl in Hout.
  - destruct Hout as (j & item & Hj & Herr). rewrite (Hentry j item Hj) in Herr. done.
  - destruct Hout as [Hlen Hall]. do 2 f_equal. apply list_eq. intros j.
    rewrite list_lookup_imap.
    destruct (items !! j) as [item|] eqn:Hj; simpl.
    + destruct (Hall j item Hj) as (e & He & ->). rewrite (Hentry j item Hj) in He.
      by injection He as <-.
    + apply lookup_ge_None_2. apply lookup_ge_None_1 in Hj. lia.
Qed.

(** When the [catch] throws for some item, the caller gets no array. *)
Lemma runWithConcurrency_resilient_rejects {T R} choose (items : list T)
    (worker : T -> nat -> Rejection + R) K j item message :
  1 <= K -> items !! j = Some item -> attemptResilient worker item j = inl message ->
  exists message' j' item',
    runWithConcurrency_resilient choose items worker K = Some (inl message')
    /\ items !! j' = Some item' /\ attemptResilient worker item' j' = inl message'.
Proof.
  intros HK Hj Hthrow. unfold runWithConcurrency_resilient.
  destruct (dispatch_ok choose items (attemptResilient worker)
              (replicate (length items) None) K) as (out & -> & Hout);
    [by rewrite length_replicate|done|by intros ->|].
  destruct out as [err|res]; simpl in Hout.
  - destruct Hout as (j' & item' & ? & ?). by exists err, j', item'.
  - destruct Hout as [_ Hall]. destruct (Hall j item Hj) as (e & He & _). congruence.
Qed.

(** C1 (the code departs from it). In utils/concurrency.ts the [catch]
    rethrows: as soon as the worker throws for one item, with at least one
    runner and whatever the completion order, runWithConcurrency rejects with
    the error of a throwing item, and its caller gets no result array at
    all, so the results of the items that did not throw are lost. *)
Theorem runWithConcurrency_rethrows {T R} (choose : list nat -> nat) (items : list T)
    (worker : T -> nat -> exc R) (K : Z) (j : nat) (item : T) (err : string) :
  1 <= K -> items !! j = Some item -> worker item j = inl err ->
  exists err' j' item',
    runWithConcurrency choose items worker K = Some (inl err')
    /\ items !! j' = Some item' /\ worker item' j' = inl err'.
Proof.
  intros HK Hj Hthrow. unfold runWithConcurrency.
  destruct (dispatch_ok choose items worker [] K) as (out & -> & Hout);
    [simpl; lia|done|by intros ->|].
  destruct out as [err'|res]; simpl in Hout.
  - destruct Hout as (j' & item' & ? & ?). by exists err', j', item'.
  - destruct Hout as [_ Hall]. destruct (Hall j item Hj) as (e & He & _). congruence.
Qed.

Lemma runWithConcurrency_rethrows_witness :
  exists err' j' item',
    runWithConcurrency fifo ["a"; "b"; "c"] sample_worker 1 = Some (inl err')
    /\ ["a"; "b"; "c"] !! j' = Some item' /\ sample_worker item' j' = inl err'.
Proof.
  apply (runWithConcurrency_rethrows fifo ["a"; "b"; "c"] sample_worker 1 1 "b" "boom").
  - lia.
  - reflexivity.
  - reflexivity.
Defined.

End DispatcherFacts.

Module UnitProcessorFacts.
Import Segmenter JS UnitProcessor.

(** *** Page numbers *)

Lemma round53_integer q : Qden q = 1%positive -> round53 q = q.
Proof. intros H. unfold round53. by rewrite H, Z.mod_1_r. Qed.

Lemma remap_integer (from z : Z) :
  jsAdd (inject_Z from) (jsSub (inject_Z z) 1) = inject_Z (from + (z - 1)).
Proof.
  unfold jsAdd, jsSub.
  rewrite (round53_integer (inject_Z z - 1)) by reflexivity.
  rewrite round53_integer by reflexivity.
  unfold Qplus, Qminus, Qopp, inject_Z. simpl. f_equal. lia.
Qed.

Lemma normalizePage_inside chunk p :
  (1 <= p <= inject_Z (pages chunk))%Q ->
  normalizePage chunk (VNum (Fin p))
  = VNum (Fin (jsAdd (inject_Z (fromPage chunk)) (jsSub p 1))).
Proof.
  intros [H1 H2]. unfold normalizePage, pages in *.
  apply Qle_bool_iff in H1. apply Qle_bool_iff in H2. by rewrite H1, H2.
Qed.

Lemma normalizePage_outside chunk p :
  ~ (1 <= p <= inject_Z (pages chunk))%Q ->
  normalizePage chunk (VNum (Fin p)) = VNum (Fin p).
Proof.
  intros H. unfold normalizePage, pages in *.
  destruct (Qle_bool 1 p) eqn:E1; [|reflexivity].
  destruct (Qle_bool p _) eqn:E2; [|reflexivity].
  exfalso. apply H. split; by apply Qle_bool_iff.
Qed.

Lemma normalizedPage_eq q chunk v :
  pageNoCandidate q chunk = inr v -> normalizedPage q chunk = inr (normalizePage chunk v).
Proof. unfold normalizedPage. by intros ->. Qed.

(** The double after 1: [1 + 2^-52]. *)
Definition nextAfterOne : Q := Qmake (2 ^ 52 + 1) (Z.to_pos (2 ^ 52)).

(** C7 (as the code has it). A raw item whose reported page number is a
    number [p], in a unit spanning [fromPage .. toPage]: when
    [1 <= p <= toPage - fromPage + 1] the normalized page is
    [fromPage + (p - 1)] as the arithmetic of doubles gives it, the
    difference and the sum each rounded to the nearest double; otherwise it
    is [p] itself.  For an integer page [z] nothing is rounded and the
    normalized page is the integer [fromPage + (z - 1)]: page 3 of a unit
    spanning 9-16 becomes 11, page 20 stays 20.  Page 2.5 becomes 10.5, and
    page [1 + 2^-52] becomes 9. *)
Theorem page_remapping (q : jsval) (chunk : Chunk) (p : Q) :
  pageNoCandidate q chunk = inr (VNum (Fin p)) ->
  ((1 <= p <= inject_Z (pages chunk))%Q ->
     normalizedPage q chunk
     = inr (VNum (Fin (round53 (inject_Z (fromPage chunk) + round53 (p - 1))))))
  /\ (~ (1 <= p <= inject_Z (pages chunk))%Q -> normalizedPage q chunk = inr (VNum (Fin p)))
  /\ (forall z : Z, p = inject_Z z ->
        (1 <= z <= pages chunk -> normalizedPage q chunk = inr (of_Z (fromPage chunk + (z - 1))))
        /\ (~ 1 <= z <= pages chunk -> normalizedPage q chunk = inr (of_Z z)))
  /\ normalizePage (mkChunk 9 16) (of_Z 3) = of_Z 11
  /\ normalizePage (mkChunk 9 16) (of_Z 20) = of_Z 20
  /\ normalizePage (mkChunk 9 16) (VNum (Fin (5 # 2))) = VNum (Fin (21 # 2))
  /\ normalizePage (mkChunk 9 16) (VNum (Fin nextAfterOne)) = of_Z 9.
Proof.
  intros Hp. rewrite (normalizedPage_eq _ _ _ Hp).
  assert (Hin : (1 <= p <= inject_Z (pages chunk))%Q ->
                @inr string _ (normalizePage chunk (VNum (Fin p)))
                = inr (VNum (Fin (jsAdd (inject_Z (fromPage chunk)) (jsSub p 1))))).
  { intros H. by rewrite normalizePage_inside. }
  assert (Hout : ~ (1 <= p <= inject_Z (pages chunk))%Q ->
                 @inr string _ (normalizePage chunk (VNum (Fin p))) = inr (VNum (Fin p))).
  { intros H. by rewrite normalizePage_outside. }
  split; [exact Hin|]. split; [exact Hout|].
  split; [|by vm_compute].
  intros z ->. split.
  - intros [Hz1 Hz2]. rewrite Hin.
    + unfold of_Z. by rewrite remap_integer.
    + split; [change 1%Q with (inject_Z 1)|]; rewrite <- Zle_Qle; lia.
  - intros Hz. apply Hout. intros [H1 H2]. apply Hz.
    change 1%Q with (inject_Z 1) in H1. rewrite <- Zle_Qle in H1, H2. lia.
Qed.

Definition item_on_page (z : Z) : jsval :=
  VObj [("text", VStr "Which of these is prime?"); ("page", of_Z z)].

Lemma page_remapping_witness :
  normalizedPage (item_on_page 3) (mkChunk 9 16) = inr (of_Z 11)
  /\ normalizedPage (item_on_page 20) (mkChunk 9 16) = inr (of_Z 20).
Proof.
  split.
  - destruct (page_remapping (item_on_page 3) (mkChunk 9 16) (inject_Z 3) eq_refl)
      as (_ & _ & H & _).
    apply (H 3 eq_refl). unfold pages. simpl. lia.
  - destruct (page_remapping (item_on_page 20) (mkChunk 9 16) (inject_Z 20) eq_refl)
      as (_ & _ & H & _).
    apply (H 20 eq_refl). unfold pages. simpl. lia.
Defined.

(** "The normalized page is fromPage + (p - 1)" does not hold, as an
    equation between numbers, of the page [1 + 2^-52] in a unit spanning
    9-16: the page is in range, the sum [9 + 2^-52] is no double, and the
    normalized page is 9. *)
Lemma page_remapping_counterexample :
  (1 <= nextAfterOne <= inject_Z (pages (mkChunk 9 16)))%Q
  /\ normalizedPage (VObj [("page", VNum (Fin nextAfterOne))]) (mkChunk 9 16)
     = inr (of_Z 9)
  /\ ~ (inject_Z 9 == inject_Z (fromPage (mkChunk 9 16)) + (nextAfterOne - 1))%Q.
Proof.
  split; [split; vm_compute; discriminate|]. split; [by vm_compute|].
  vm_compute. discriminate.
Qed.

Example page_not_a_number_is_kept :
  normalizedPage (VObj [("page", VStr "3")]) (mkChunk 9 16) = inr (VStr "3").
Proof. reflexivity. Qed.

Example page_absent_is_the_first_of_the_unit :
  normalizedPage (VObj [("text", VStr "x")]) (mkChunk 9 16) = inr (of_Z 9).
Proof. reflexivity. Qed.

(** *** Confidence *)

Section ConfidenceFacts.
Variable NumberToString : number -> string.
Variable StringToNumber : string -> number.

Abbreviation confidenceOf := (confidenceOf NumberToString StringToNumber).
Abbreviation ToNumber := (ToNumber NumberToString StringToNumber).

(** C9 (as the code has it). The confidence of the normalized question is
    the raw confidence when that is a number; it is 0.8 when the raw
    confidence is absent or another falsy value (null, false, the empty
    string); a truthy value that is not a number is coerced with
    [Number]. *)
Theorem confidence_default (c : jsval) :
  (forall n, c = VNum n -> confidenceOf c = inr n)
  /\ (c = VUndefined -> confidenceOf c = inr defaultConfidence)
  /\ (is_number c = false -> truthy c = false -> confidenceOf c = inr defaultConfidence)
  /\ (is_number c = false -> truthy c = true -> confidenceOf c = ToNumber c).
Proof.
  split; [by intros n ->|]. split; [by intros ->|].
  split; intros Hn Ht; destruct c; simpl in *; try done; by rewrite Ht.
Qed.

End ConfidenceFacts.

Lemma confidence_default_witness :
  confidenceOf (fun _ => "") (fun _ => NaN) (VNum (Fin (95 # 100))) = inr (Fin (95 # 100))
  /\ confidenceOf (fun _ => "") (fun _ => NaN) VNull = inr defaultConfidence.
Proof.
  split.
  - exact (proj1 (confidence_default (fun _ => "") (fun _ => NaN) (VNum (Fin (95 # 100))))
             (Fin (95 # 100)) eq_refl).
  - exact (proj1 (proj2 (proj2
             (confidence_default (fun _ => "") (fun _ => NaN) VNull))) eq_refl eq_refl).
Defined.

(** "0.8 whenever the raw confidence is non-numeric" does not hold of
    [{ "confidence": true }]: the result is [Number(true)], 1. *)
Lemma confidence_non_numeric_counterexample :
  (forall N2S S2N, confidence N2S S2N (VObj [("confidence", VBool true)]) = inr (Fin 1))
  /\ Fin 1 <> defaultConfidence
  /\ ~ (forall N2S S2N c,
          is_number c = false -> confidenceOf N2S S2N c = inr defaultConfidence).
Proof.
  split; [reflexivity|]. split; [discriminate|].
  intros H. specialize (H (fun _ => "") (fun _ => NaN) (VBool true) eq_refl). discriminate.
Qed.

End UnitProcessorFacts.

Module ReconcilerFacts.
Import Segmenter YearFilter JS UnitProcessor Dispatcher Reconciler.
Import DispatcherFacts.

(** *** The deduplication key *)









Section KeyFacts.
Variable NumberToString : number -> string.

Abbreviation ToString := (ToString NumberToString).
Abbreviation dedupKey := (dedupKey NumberToString).
Abbreviation dedupLoop := (dedupLoop NumberToString).
Abbreviation dedup := (dedup NumberToString).

(** A question whose key can be built, and its key. *)
Definition keyable (q : TaggedQuestion) : Prop := exists key, dedupKey q = inr key.

Definition keyOf (q : TaggedQuestion) : string :=
  match dedupKey q with
  | inr key => key
  | inl _ => ""
  end.

Lemma keyable_keyOf q : keyable q -> dedupKey q = inr (keyOf q).
Proof. intros [key H]. unfold keyOf. by rewrite H. Qed.



(** *** Deduplication *)

(** Keeping the first question of every key: keep the head, drop every
    later question with its key. *)
Fixpoint keepFirst (qs : list TaggedQuestion) : list TaggedQuestion :=
  match qs with
  | [] => []
  | q :: rest => q :: filter (λ q', keyOf q' ≠ keyOf q) (keepFirst rest)
  end.

Lemma dedupLoop_keepFirst seen deduped qs :
  Forall keyable qs ->
  dedupLoop seen deduped qs
  = inr (deduped ++ filter (λ q, keyOf q ∉ seen) (keepFirst qs)).
Proof.
  intros Hqs. revert seen deduped.
  induction Hqs as [|q rest Hq _ IH]; intros seen deduped; simpl.
  - by rewrite app_nil_r.
  - rewrite (keyable_keyOf q Hq). simpl.
    destruct (decide (keyOf q ∈ seen)) as [Hin|Hnot].
    + rewrite IH. do 2 f_equal. rewrite filter_cons_False by (intros H; by apply H).
      rewrite list_filter_filter. apply list_filter_iff. intros q'. split.
      * intros H. split; [exact H|]. intros Heq. apply H. by rewrite Heq.
      * by intros [H _].
    + rewrite IH. rewrite <- app_assoc. do 2 f_equal. simpl.
      rewrite filter_cons_True by done. f_equal.
      rewrite list_filter_filter. apply list_filter_iff. intros q'.
      rewrite elem_of_union, elem_of_singleton. split.
      * intros H. split; [tauto|]. intros Heq. tauto.
      * intros [H1 H2] [Heq|Hin]; [|done]. by apply H2.
Qed.

Lemma dedup_keepFirst qs : Forall keyable qs -> dedup qs = inr (keepFirst qs).
Proof.
  intros Hqs. unfold Reconciler.dedup. rewrite dedupLoop_keepFirst by done. simpl. f_equal.
  induction (keepFirst qs) as [|q l IH]; [done|].
  rewrite filter_cons_True by apply not_elem_of_empty. by rewrite IH.
Qed.


Lemma dedupLoop_keyable seen deduped qs out :
  dedupLoop seen deduped qs = inr out -> Forall keyable qs.
Proof.
  revert seen deduped. induction qs as [|q rest IH]; intros seen deduped; simpl.
  - constructor.
  - destruct (Reconciler.dedupKey NumberToString q) as [message|key] eqn:Hkey; simpl; [done|].
    intros H. constructor; [by exists key|].
    destruct (decide _); by eapply IH.
Qed.

Lemma dedup_keyable qs out : dedup qs = inr out -> Forall keyable qs.
Proof. apply dedupLoop_keyable. Qed.

Lemma keepFirst_sublist qs : keepFirst qs `sublist_of` qs.
Proof.
  induction qs as [|q rest IH]; simpl; [done|].
  apply sublist_skip. etrans; [apply sublist_filter|exact IH].
Qed.

Lemma keepFirst_NoDup qs : NoDup (keyOf <$> keepFirst qs).
Proof.
  induction qs as [|q rest IH]; simpl; [constructor|].
  constructor.
  - intros (q' & Hk & Hin)%list_elem_of_fmap.
    apply list_elem_of_filter in Hin as [Hne _]. by apply Hne.
  - eapply sublist_NoDup; [exact IH|]. apply fmap_sublist, sublist_filter.
Qed.






Lemma keepFirst_keyable qs : Forall keyable qs -> Forall keyable (keepFirst qs).
Proof.
  rewrite !Forall_forall. intros H q Hq. apply H.
  eapply elem_of_sublist; [exact Hq|apply keepFirst_sublist].
Qed.

End KeyFacts.

(** The questions of one outcome, as the loop pushes them. *)
Definition itemsOf (r : option (ChunkResult TaggedQuestion)) : list TaggedQuestion :=
  match r with
  | Some (Extracted qs) => qs
  | _ => []
  end.


Section DedupFacts.
Variable NumberToString : number -> string.

Abbreviation ToString := (ToString NumberToString).
Abbreviation dedupKey := (dedupKey NumberToString).
Abbreviation dedup := (dedup NumberToString).
Abbreviation keyable := (keyable NumberToString).
Abbreviation keyOf := (keyOf NumberToString).
Abbreviation keepFirst := (keepFirst NumberToString).
Abbreviation reconcileLoop := (reconcileLoop NumberToString).
Abbreviation reconcile := (reconcile NumberToString).



End DedupFacts.

(** *** Skip outcomes of the unit processor *)



Lemma or_else_truthy v w : truthy w = true -> truthy (or_else v w) = true.
Proof. intros H. unfold or_else. by destruct (truthy v) eqn:E. Qed.

Lemma or_else_id v w : truthy v = true -> or_else v w = v.
Proof. unfold or_else. by intros ->. Qed.

Section ProcessChunkFacts.
Context {TQ : Type}.
Variable convert : Chunk -> jsval -> exc TQ.
Variable respond : Chunk -> Z -> exc jsval.
Variable maxRetries : Z.

Lemma get_truthy parsed k : truthy parsed = true -> exists v, get parsed k = inr v.
Proof. destruct parsed; simpl; try done; eauto. Qed.


(** A skip outcome carries a truthy scope and a truthy reason. *)
Lemma interpret_skipped_truthy chunk parsed skipReason skipScope :
  interpret convert chunk parsed = inr (Skipped skipReason skipScope) ->
  truthy skipScope = true /\ truthy skipReason = true.
Proof.
  unfold interpret. destruct (truthy parsed) eqn:Hp; simpl; [|done].
  destruct (get_truthy parsed "skip" Hp) as [skip ->]. simpl.
  destruct (is_object parsed && is_true skip).
  - destruct (get_truthy parsed "reason" Hp) as [reason ->].
    destruct (get_truthy parsed "scope" Hp) as [scope ->]. simpl.
    assert (Hr : truthy (or_else reason defaultSkipReason) = true)
      by (by apply or_else_truthy).
    unfold skipScopeOf. destruct (truthy scope) eqn:Hs; simpl.
    + by intros [= <- <-].
    + destruct (or_else reason defaultSkipReason) eqn:Hor; simpl; try done.
      intros [= <- <-]. split; [by destruct (includes _ _)|exact Hr].
  - destruct (questionsArray parsed) as [?|qs]; simpl; [done|].
    by destruct (convertAll convert chunk qs).
Qed.

Lemma retry_skipped_truthy fuel chunk attempt skipReason skipScope :
  retry convert respond maxRetries fuel chunk attempt = Some (Skipped skipReason skipScope) ->
  truthy skipScope = true /\ truthy skipReason = true.
Proof.
  revert attempt. induction fuel as [|fuel IH]; intros attempt; simpl; [done|].
  destruct (attempt <=? maxRetries); [|done].
  destruct (respond chunk (attempt + 1)) as [err|parsed]; simpl.
  - destruct (attempt + 1 <=? maxRetries); [apply IH|done].
  - destruct (interpret convert chunk parsed) as [err|res] eqn:Hi.
    + destruct (attempt + 1 <=? maxRetries); [apply IH|done].
    + intros [= ->]. by eapply interpret_skipped_truthy.
Qed.

Lemma processChunk_skipped_truthy chunk i skipReason skipScope :
  processChunk convert respond maxRetries chunk i = Some (Skipped skipReason skipScope) ->
  truthy skipScope = true /\ truthy skipReason = true.
Proof. apply retry_skipped_truthy. Qed.

Lemma processChunk_first_attempt chunk i parsed result :
  0 <= maxRetries -> respond chunk 1 = inr parsed ->
  interpret convert chunk parsed = inr result ->
  processChunk convert respond maxRetries chunk i = Some result.
Proof.
  intros Hm Hr Hi. unfold processChunk.
  destruct (Z.to_nat (maxRetries + 2)) as [|fuel] eqn:Hf; [lia|]. simpl.
  destruct (Z.leb_spec 0 maxRetries); [|lia].
  change (0 + 1) with 1. rewrite Hr. simpl. by rewrite Hi.
Qed.

End ProcessChunkFacts.

(** *** The loop over the chunk results *)

(** A skip outcome built by [processChunk] always carries a truthy scope
    and a truthy reason. *)
Definition scoped (r : option (ChunkResult TaggedQuestion)) : Prop :=
  forall skipReason skipScope, r = Some (Skipped skipReason skipScope) ->
    truthy skipScope = true /\ truthy skipReason = true.

Definition documentSkip (r : option (ChunkResult TaggedQuestion)) : Prop :=
  exists skipReason skipScope,
    r = Some (Skipped skipReason skipScope) /\ is_document skipScope = true.

Lemma scopeOf_truthy skipReason skipScope :
  truthy skipScope = true -> scopeOf skipReason skipScope = inr skipScope.
Proof. unfold scopeOf. by intros ->. Qed.


(** The error the loop records for the outcome of unit [i], if any. *)
Definition unitError (chunks : list Chunk) (i : nat)
    (r : option (ChunkResult TaggedQuestion)) : list string :=
  match r with
  | None =>
      ["Chunk " +:+ ordinal i +:+ " failed: "
       +:+ "Chunk " +:+ ordinal i +:+ " produced no result"]
  | Some (Failed error) =>
      match chunks !! i with
      | Some chunk =>
          ["Chunk " +:+ ordinal i +:+ " (pages "
           +:+ Z_to_string (fromPage chunk) +:+ "-"
           +:+ Z_to_string (toPage chunk) +:+ ") failed: "
           +:+ (if nonempty error then error else "Unknown chunk failure")]
      | None => []
      end
  | _ => []
  end.

(** The errors of the outcomes of the units from [i] on, in unit order. *)
Fixpoint unitErrors (chunks : list Chunk) (i : nat)
    (rs : list (option (ChunkResult TaggedQuestion))) : list string :=
  match rs with
  | [] => []
  | r :: rest => unitError chunks i r ++ unitErrors chunks (S i) rest
  end.

Section LoopFacts.
Variable NumberToString : number -> string.

Abbreviation ToString := (ToString NumberToString).
Abbreviation logged := (logged NumberToString).
Abbreviation reconcileLoop := (reconcileLoop NumberToString).

(** A value that a template literal can print. *)
Definition printable (v : jsval) : Prop := exists text, ToString v = inr text.

(** A skip outcome whose reason can be printed. *)
Definition skipPrintable (r : option (ChunkResult TaggedQuestion)) : Prop :=
  forall skipReason skipScope, r = Some (Skipped skipReason skipScope) ->
    printable skipReason.

Lemma logged_printable v : printable v -> logged v = inr tt.
Proof. intros [text H]. unfold Reconciler.logged. by rewrite H. Qed.

Lemma logged_throws v message : ToString v = inl message -> logged v = inl message.
Proof. intros H. unfold Reconciler.logged. by rewrite H. Qed.

(** A chunk-scope skip whose reason can be printed leaves everything as it
    is and the loop goes on; when the reason cannot be printed, the loop is
    left by the exception. *)
Lemma reconcileLoop_chunk_skip chunks i skipReason skipScope rest accumulated errs :
  truthy skipScope = true -> is_document skipScope = false ->
  truthy skipReason = true ->
  reconcileLoop chunks i (Some (Skipped skipReason skipScope) :: rest) accumulated errs
  = match ToString skipReason with
    | inr _ => reconcileLoop chunks (S i) rest accumulated errs
    | inl message => (accumulated, errs, Thrown message)
    end.
Proof.
  intros Ht Hd Hr. simpl. rewrite scopeOf_truthy, Hd by done.
  rewrite or_else_id by done. unfold Reconciler.logged.
  by destruct (JS.ToString NumberToString skipReason).
Qed.


(** Outcomes without a document-scope skip, and with reasons that can be
    printed, are passed one by one: their questions are accumulated and
    their errors recorded. *)
Lemma reconcileLoop_passes chunks i before rest accumulated errs :
  (i + length before <= length chunks)%nat ->
  Forall scoped before ->
  Forall (fun r => ~ documentSkip r) before ->
  Forall skipPrintable before ->
  reconcileLoop chunks i (before ++ rest) accumulated errs
  = reconcileLoop chunks (i + length before) rest
      (accumulated ++ concat (itemsOf <$> before)) (errs ++ unitErrors chunks i before).
Proof.
  revert i accumulated errs.
  induction before as [|r before IH]; intros i accumulated errs Hlen Hwf Hno Hprint.
  - simpl. by rewrite Nat.add_0_r, !app_nil_r.
  - apply Forall_cons_1 in Hwf as [Hr Hwf]. apply Forall_cons_1 in Hno as [Hnr Hno].
    apply Forall_cons_1 in Hprint as [Hpr Hprint]. simpl in Hlen.
    replace (i + length (r :: before))%nat with (S i + length before)%nat by (simpl; lia).
    change ((r :: before) ++ rest) with (r :: (before ++ rest)).
    destruct r as [[skipReason skipScope|qs|error]|].
    + destruct (Hr _ _ eq_refl) as [Hscope Hreason].
      assert (Hd : is_document skipScope = false).
      { destruct (is_document skipScope) eqn:Hd; [|done].
        exfalso. apply Hnr. by exists skipReason, skipScope. }
      rewrite reconcileLoop_chunk_skip by done.
      destruct (Hpr _ _ eq_refl) as [text ->].
      rewrite IH by (done || lia). simpl. done.
    + simpl. rewrite IH by (done || lia). simpl. by rewrite <- !app_assoc.
    + simpl. destruct (lookup_lt_is_Some_2 chunks i) as [chunk Hchunk]; [lia|].
      rewrite Hchunk. rewrite IH by (done || lia). simpl.
      by rewrite <- !app_assoc.
    + simpl. rewrite IH by (done || lia). simpl. by rewrite <- !app_assoc.
Qed.

End LoopFacts.


Section PipelineFacts.
Variable NumberToString : number -> string.
Variable choose : list nat -> nat.
Variable convert : Chunk -> jsval -> exc TaggedQuestion.
Variable respond : Chunk -> Z -> exc jsval.

Abbreviation ToString := (ToString NumberToString).
Abbreviation dedup := (dedup NumberToString).
Abbreviation reconcileLoop := (reconcileLoop NumberToString).
Abbreviation reconcile := (reconcile NumberToString).
Abbreviation skipPrintable := (skipPrintable NumberToString).
Abbreviation processPdfWithClaude :=
  (processPdfWithClaude NumberToString choose convert respond).


(** The result when no outcome is a document-scope skip and the skip
    reasons can be printed. *)
Lemma reconcile_no_document_skip fileName filePath strict chunks chunkResults :
  (length chunkResults <= length chunks)%nat ->
  Forall scoped chunkResults ->
  Forall (fun r => ~ documentSkip r) chunkResults ->
  Forall skipPrintable chunkResults ->
  reconcile fileName filePath strict chunks chunkResults
  = match dedup (concat (itemsOf <$> chunkResults)) with
    | inl message => thrown fileName filePath (unitErrors chunks 0 chunkResults) message
    | inr deduped =>
        if strict && (length deduped =? 0)%nat then
          mkResult false fileName filePath deduped (length deduped) (Some strictSkip)
            (unitErrors chunks 0 chunkResults ++ [strictSkip])
        else
          mkResult (0 <? length deduped)%nat fileName filePath deduped (length deduped)
            None (unitErrors chunks 0 chunkResults)
    end.
Proof.
  intros Hlen Hwf Hno Hprint. unfold Reconciler.reconcile.
  rewrite <- (app_nil_r chunkResults) at 1.
  rewrite reconcileLoop_passes by (done || simpl; lia). reflexivity.
Qed.

(** The invariant of the result, on the part after the dispatch. *)
Lemma reconcile_skipped fileName filePath strict chunks chunkResults :
  let result := reconcile fileName filePath strict chunks chunkResults in
  skippedReason result <> None -> questions result = [] /\ success result = false.
Proof.
  unfold Reconciler.reconcile.
  destruct (Reconciler.reconcileLoop NumberToString chunks 0 chunkResults [] [])
    as [[acc errs] [|skipReason|message]]; simpl.
  - destruct (Reconciler.dedup NumberToString acc) as [message|deduped]; simpl; [done|].
    destruct strict; simpl; [|done].
    destruct deduped as [|q l]; simpl; done.
  - by destruct (JS.ToString NumberToString skipReason).
  - done.
Qed.

Lemma dispatched_results (maxRetries : Z) (chunks : list Chunk) :
  let outcome := processChunk convert respond maxRetries in
  let chunkResults :=
    defined <$> imap (fun i chunk => Some (outcome chunk i)) chunks in
  length chunkResults = length chunks
  /\ Forall scoped chunkResults
  /\ forall i chunk, chunks !! i = Some chunk -> chunkResults !! i = Some (outcome chunk i).
Proof.
  intros outcome chunkResults.
  assert (Hlook : forall i chunk, chunks !! i = Some chunk ->
            chunkResults !! i = Some (outcome chunk i)).
  { intros i chunk Hi. unfold chunkResults.
    rewrite list_lookup_fmap, list_lookup_imap, Hi. simpl.
    by destruct (outcome chunk i). }
  split; [|split; [|exact Hlook]].
  - unfold chunkResults. by rewrite length_fmap, length_imap.
  - apply Forall_lookup. intros i r Hr.
    assert (Hlt : (i < length chunks)%nat).
    { apply lookup_lt_Some in Hr. unfold chunkResults in Hr.
      by rewrite length_fmap, length_imap in Hr. }
    destruct (lookup_lt_is_Some_2 chunks i Hlt) as [chunk Hchunk].
    rewrite (Hlook i chunk Hchunk) in Hr. injection Hr as <-.
    intros skipReason skipScope H. by eapply processChunk_skipped_truthy.
Qed.

(** What the dispatcher hands to the loop: the outcome of each unit, at the
    index of the unit. *)
Lemma dispatched_outcomes (maxRetries : Z) (chunks : list Chunk) :
  defined <$> imap (fun i chunk => Some (processChunk convert respond maxRetries chunk i))
                chunks
  = imap (fun i chunk => processChunk convert respond maxRetries chunk i) chunks.
Proof.
  destruct (dispatched_results maxRetries chunks) as (Hlen & _ & Hlook).
  apply list_eq. intros i. rewrite list_lookup_imap.
  destruct (chunks !! i) as [chunk|] eqn:Hi; simpl.
  - by apply Hlook.
  - apply lookup_ge_None_2. rewrite Hlen. by apply lookup_ge_None_1.
Qed.



(** C6. Every result that processPdfWithClaude returns with
    [metadata.skippedReason] set has an empty list of questions and
    success = false. *)
Theorem skipped_result_invariant (filePath : string)
    (examContextInput : EnhancedExamContext) (options : Options)
    (pdf : exc Z) (client : exc unit) (result : DirectPdfResult) :
  processPdfWithClaude filePath examContextInput options pdf client = Some result ->
  skippedReason result <> None ->
  questions result = [] /\ success result = false.
Proof.
  unfold Reconciler.processPdfWithClaude.
  destruct (negb (shouldProcess _)); [by intros [= <-]|].
  destruct pdf as [message|totalPages]; [by intros [= <-]|].
  destruct (splitPdfIntoChunks _ _) as [chunks|]; [|done].
  destruct (length chunks =? 0)%nat; [by intros [= <-]|].
  destruct client as [message|[]]; [by intros [= <-]|].
  destruct (runWithConcurrency _ _ _ _) as [[message|chunkResults]|]; [| |done].
  - by intros [= <-].
  - intros [= <-]. apply reconcile_skipped.
Qed.

End PipelineFacts.

(** *** A sample environment *)

Definition plainNumber (n : number) : string :=
  match n with NaN => "NaN" | Fin q => Z_to_string (Qnum q / Z.pos (Qden q)) end.

Lemma plainNumber_integer z : plainNumber (Fin (inject_Z z)) = Z_to_string z.
Proof. unfold plainNumber. simpl. by rewrite Z.div_1_r. Qed.

(** A conversion that keeps the id, the normalized page and the text
    ([q.questionText || q.text || ""]). *)
Definition sampleConvert (chunk : Chunk) (q : jsval) : exc TaggedQuestion :=
  page ← normalizedPage q chunk;
  name ← get q "id";
  questionText ← get q "questionText";
  content ← get q "text";
  mret (mkQuestion name page (or_else questionText (or_else content (VStr "")))).

Definition item (name : string) (page : Z) (content : string) : jsval :=
  VObj [("id", VStr name); ("page", of_Z page); ("text", VStr content)].

Definition question (name : string) (page : Z) (content : string) : TaggedQuestion :=
  mkQuestion (VStr name) (of_Z page) (VStr content).

(** Twenty pages in units of eight; the second unit is an answer key, the
    third repeats a question of the first. *)
Definition sampleService (chunk : Chunk) (attempt : Z) : exc jsval :=
  if fromPage chunk =? 1 then
    inr (VObj [("questions",
                VArr [item "a" 1 "Q1"; item "b" 2 "Q2"; item "c" 3 "Q3";
                      item "d" 5 "Q4"; item "e" 8 "Q5"])])
  else if fromPage chunk =? 9 then
    inr (VObj [("skip", VBool true); ("scope", VStr "chunk");
               ("reason", VStr "answer key section")])
  else
    inr (VArr [item "f" 17 "Q6"; item "g" 5 " Q4 "; item "h" 20 "Q7"]).

(** The same document when the second unit is judged to be of another year. *)
Definition wrongYearService (chunk : Chunk) (attempt : Z) : exc jsval :=
  if fromPage chunk =? 9 then
    inr (VObj [("skip", VBool true); ("reason", VStr "Paper is from Year 2019")])
  else sampleService chunk attempt.




Definition anyYear : EnhancedExamContext := mkContext None false.
Definition chunksOf8 : Options := mkOptions (Some 8) None None.

Example end_to_end :
  processPdfWithClaude plainNumber fifo sampleConvert sampleService
    "papers/cgl-2023.pdf" anyYear chunksOf8 (inr 20) (inr tt)
  = Some (mkResult true "cgl-2023.pdf" "papers/cgl-2023.pdf"
            [question "a" 1 "Q1"; question "b" 2 "Q2"; question "c" 3 "Q3";
             question "d" 5 "Q4"; question "e" 8 "Q5"; question "f" 17 "Q6";
             question "h" 20 "Q7"]
            7 None []).
Proof. vm_compute. reflexivity. Qed.

Example end_to_end_wrong_year :
  processPdfWithClaude plainNumber lifo sampleConvert wrongYearService
    "papers/cgl-2023.pdf" anyYear chunksOf8 (inr 20) (inr tt)
  = Some (mkResult false "cgl-2023.pdf" "papers/cgl-2023.pdf" [] 0
            (Some "Skipped by LLM: Paper is from Year 2019")
            ["Skipped by LLM: Paper is from Year 2019"]).
Proof. vm_compute. reflexivity. Qed.





Lemma skipped_result_invariant_witness :
  exists result,
    processPdfWithClaude plainNumber fifo sampleConvert sampleService
      "papers/cgl-2021.pdf" (mkContext (Some ["23"]) true) chunksOf8 (inr 20) (inr tt) = Some result
    /\ skippedReason result = Some "Year 2021 not in allowed years: 2023"
    /\ questions result = [] /\ success result = false.
Proof.
  eexists. split; [vm_compute; reflexivity|]. split; [reflexivity|].
  apply (skipped_result_invariant plainNumber fifo sampleConvert sampleService
           "papers/cgl-2021.pdf" (mkContext (Some ["23"]) true) chunksOf8 (inr 20) (inr tt)).
  - vm_compute. reflexivity.
  - discriminate.
Defined.





End ReconcilerFacts.

(** * Further properties *)

Module DispatcherMore.
Import Dispatcher DispatcherFacts.

Section Bound.
Context {T E : Type}.
Variable items : list T.
Variable attempt : T -> nat -> exc E.









End Bound.



(** X2. Results are indexed by position, not by completion order: when no
    worker call throws and there is at least one runner, two runs with any
    two completion orders and any two concurrency bounds return the same
    array, with one entry per item in item order. *)
Theorem runWithConcurrency_order_independent {T R} (choose1 choose2 : list nat -> nat)
    (items : list T) (f : T -> nat -> R) (K1 K2 : Z) :
  1 <= K1 -> 1 <= K2 ->
  runWithConcurrency choose1 items (fun item i => inr (f item i)) K1
  = runWithConcurrency choose2 items (fun item i => inr (f item i)) K2
  /\ exists res,
       runWithConcurrency choose1 items (fun item i => inr (f item i)) K1 = Some (inr res)
       /\ length res = length items
       /\ forall i item, items !! i = Some item -> res !! i = Some (Some (f item i)).
Proof.
  intros H1 H2. rewrite !runWithConcurrency_total by done. split; [reflexivity|].
  eexists. split; [reflexivity|]. split; [by rewrite length_imap|].
  intros i item Hi. by rewrite list_lookup_imap, Hi.
Qed.

Lemma runWithConcurrency_order_independent_witness :
  runWithConcurrency fifo ["a"; "c"; "d"] (fun item (i : nat) => inr (item +:+ "!")) 1
  = runWithConcurrency lifo ["a"; "c"; "d"] (fun item (i : nat) => inr (item +:+ "!")) 3.
Proof.
  apply (runWithConcurrency_order_independent fifo lifo ["a"; "c"; "d"]
           (fun item _ => item +:+ "!") 1 3); lia.
Defined.

(** X3. A concurrency bound of zero or less starts no runner: the call
    resolves at once with an empty array and no worker call is made, however
    many items there are. *)
Theorem runWithConcurrency_no_runner {T R} (choose : list nat -> nat) (items : list T)
    (worker : T -> nat -> exc R) (K : Z) :
  K <= 0 ->
  runWithConcurrency choose items worker K = Some (inr [])
  /\ Nat.iter (Z.to_nat (Z.min K (Z.of_nat (length items)))) (next items)
       (mkSt 0 (@nil (option R)) [])
     = mkSt 0 [] [].
Proof.
  intros HK. split; [by apply dispatch_no_runner|].
  by replace (Z.to_nat (K `min` Z.of_nat (length items))) with 0%nat by lia.
Qed.

Lemma runWithConcurrency_no_runner_witness :
  runWithConcurrency fifo ["a"; "b"; "c"] sample_worker 0 = Some (inr []).
Proof.
  apply (runWithConcurrency_no_runner fifo ["a"; "b"; "c"] sample_worker 0). lia.
Defined.

End DispatcherMore.

Module UnitProcessorMore.
Import Segmenter JS UnitProcessor SegmenterFacts UnitProcessorFacts.

Section Attempts.
Context {TQ : Type}.
Variable convert : Chunk -> jsval -> exc TQ.
Variable respond : Chunk -> Z -> exc jsval.
Variable maxRetries : Z.

(** What attempt number [n] on a chunk comes to: the value returned from
    the [try] block, or the message caught. *)
Definition attemptOutcome (chunk : Chunk) (n : Z) : exc (ChunkResult TQ) :=
  parsed ← respond chunk n; interpret convert chunk parsed.

Lemma retry_step fuel chunk attempt :
  attempt <= maxRetries ->
  retry convert respond maxRetries (S fuel) chunk attempt
  = match attemptOutcome chunk (attempt + 1) with
    | inr result => Some result
    | inl lastErr =>
        if attempt + 1 <=? maxRetries
        then retry convert respond maxRetries fuel chunk (attempt + 1)
        else Some (Failed lastErr)
    end.
Proof.
  intros H. simpl. destruct (Z.leb_spec attempt maxRetries); [reflexivity|lia].
Qed.

Lemma retry_first_success fuel chunk attempt k result :
  0 <= attempt < k -> k <= maxRetries + 1 -> k - attempt <= Z.of_nat fuel ->
  (forall n, attempt < n < k -> exists err, attemptOutcome chunk n = inl err) ->
  attemptOutcome chunk k = inr result ->
  retry convert respond maxRetries fuel chunk attempt = Some result.
Proof.
  revert attempt. induction fuel as [|fuel IH]; intros attempt Ha Hk Hf Hfail Hok; [lia|].
  rewrite retry_step by lia.
  destruct (Z.eq_dec (attempt + 1) k) as [<-|Hne].
  - by rewrite Hok.
  - destruct (Hfail (attempt + 1)) as [err ->]; [lia|].
    destruct (Z.leb_spec (attempt + 1) maxRetries); [|lia].
    apply IH; try lia; [|exact Hok]. intros n Hn. apply Hfail. lia.
Qed.

Lemma retry_exhausted fuel chunk attempt lastErr :
  0 <= attempt <= maxRetries -> maxRetries + 1 - attempt <= Z.of_nat fuel ->
  (forall n, attempt < n <= maxRetries -> exists err, attemptOutcome chunk n = inl err) ->
  attemptOutcome chunk (maxRetries + 1) = inl lastErr ->
  retry convert respond maxRetries fuel chunk attempt = Some (Failed lastErr).
Proof.
  revert attempt. induction fuel as [|fuel IH]; intros attempt Ha Hf Hfail Hlast; [lia|].
  rewrite retry_step by lia.
  destruct (Z.eq_dec attempt maxRetries) as [->|Hne].
  - rewrite Hlast. destruct (Z.leb_spec (maxRetries + 1) maxRetries); [lia|reflexivity].
  - destruct (Hfail (attempt + 1)) as [err ->]; [lia|].
    destruct (Z.leb_spec (attempt + 1) maxRetries); [|lia].
    apply IH; try lia; [|exact Hlast]. intros n Hn. apply Hfail. lia.
Qed.

(** X4. The retry loop of processChunk.  With [maxRetries >= 0], the chunk's
    outcome is the value of the first attempt that does not throw, provided
    it is one of the first [maxRetries + 1]; later attempts play no part.
    When all [maxRetries + 1] attempts throw, the outcome is the error
    result carrying the message of the last one.  With [maxRetries < 0] no
    attempt is made and the function returns [undefined]. *)
Theorem processChunk_retries (chunk : Chunk) (chunkIndex : nat) :
  (forall k result,
     1 <= k <= maxRetries + 1 ->
     (forall n, 1 <= n < k -> exists err, attemptOutcome chunk n = inl err) ->
     attemptOutcome chunk k = inr result ->
     processChunk convert respond maxRetries chunk chunkIndex = Some result)
  /\ (forall lastErr,
        0 <= maxRetries ->
        (forall n, 1 <= n <= maxRetries -> exists err, attemptOutcome chunk n = inl err) ->
        attemptOutcome chunk (maxRetries + 1) = inl lastErr ->
        processChunk convert respond maxRetries chunk chunkIndex = Some (Failed lastErr))
  /\ (maxRetries < 0 -> processChunk convert respond maxRetries chunk chunkIndex = None).
Proof.
  unfold processChunk. split; [|split].
  - intros k result Hk Hfail Hok. apply retry_first_success with k; try lia; [|exact Hok].
    intros n Hn. apply Hfail. lia.
  - intros lastErr Hm Hfail Hlast. apply retry_exhausted; try lia; [|exact Hlast].
    intros n Hn. apply Hfail. lia.
  - intros Hm. destruct (Z.to_nat (maxRetries + 2)) as [|fuel]; [reflexivity|]. simpl.
    destruct (Z.leb_spec 0 maxRetries); [lia|reflexivity].
Qed.

End Attempts.

(** A service that is down twice and then returns one question. *)
Definition flakyService (chunk : Chunk) (attempt : Z) : exc jsval :=
  if attempt <=? 2 then throw "503 overloaded"
  else inr (VArr [VObj [("text", VStr "Q1")]]).

Definition textOnly (chunk : Chunk) (q : jsval) : exc string :=
  t ← get q "text";
  match t with VStr s => mret s | _ => throw "no text" end.

Lemma processChunk_retries_witness :
  processChunk textOnly flakyService 2 (mkChunk 1 8) 0 = Some (Extracted ["Q1"])
  /\ processChunk textOnly flakyService 1 (mkChunk 1 8) 0 = Some (Failed "503 overloaded")
  /\ processChunk textOnly flakyService (-1) (mkChunk 1 8) 0 = None.
Proof.
  split; [|split].
  - apply (proj1 (processChunk_retries textOnly flakyService 2 (mkChunk 1 8) 0) 3).
    + lia.
    + intros n Hn. exists "503 overloaded". unfold attemptOutcome, flakyService.
      destruct (Z.leb_spec n 2); [reflexivity|lia].
    + reflexivity.
  - apply (proj1 (proj2 (processChunk_retries textOnly flakyService 1 (mkChunk 1 8) 0))).
    + lia.
    + intros n Hn. exists "503 overloaded". unfold attemptOutcome, flakyService.
      destruct (Z.leb_spec n 2); [reflexivity|lia].
    + reflexivity.
  - apply (proj2 (proj2 (processChunk_retries textOnly flakyService (-1) (mkChunk 1 8) 0))).
    lia.
Defined.

Section Conversion.
Context {TQ : Type}.
Variable convert : Chunk -> jsval -> exc TQ.

Lemma convertAll_ok chunk qs tagged :
  convertAll convert chunk qs = inr tagged <->
  Forall2 (fun q t => convert chunk q = inr t) qs tagged.
Proof.
  revert tagged. induction qs as [|q qs IH]; intros tagged; simpl.
  - split.
    + intros [= <-]. constructor.
    + intros H. by inversion H.
  - destruct (convert chunk q) as [err|t] eqn:Hq; simpl.
    + split; [done|]. intros H. inversion H; subst. congruence.
    + destruct (convertAll convert chunk qs) as [err|ts] eqn:Hqs; simpl.
      * split; [done|]. intros H. inversion H as [|? t' ? ts' Ht Hts]; subst.
        apply IH in Hts. congruence.
      * split.
        -- intros [= <-]. constructor; [done|]. by apply IH.
        -- intros H. inversion H as [|? t' ? ts' Ht Hts]; subst.
           apply IH in Hts.
           assert (t' = t) as -> by congruence.
           assert (ts' = ts) as -> by congruence. reflexivity.
Qed.

Lemma convertAll_fails chunk pre q post tagged err :
  Forall2 (fun q t => convert chunk q = inr t) pre tagged ->
  convert chunk q = inl err ->
  convertAll convert chunk (pre ++ q :: post) = inl err.
Proof.
  induction 1 as [|p t pre tagged Hp _ IH]; intros Hq; simpl.
  - by rewrite Hq.
  - rewrite Hp. simpl. by rewrite IH.
Qed.

Lemma interpret_items chunk parsed :
  truthy parsed = true ->
  (forall skip, get parsed "skip" = inr skip -> is_object parsed && is_true skip = false) ->
  interpret convert chunk parsed
  = (qs ← questionsArray parsed; converted ← convertAll convert chunk qs;
     mret (Extracted converted)).
Proof.
  intros Ht Hskip. unfold interpret. rewrite Ht. simpl.
  destruct (get parsed "skip") as [err|skip] eqn:Hg; simpl.
  - destruct parsed; simpl in *; done.
  - by rewrite (Hskip skip eq_refl).
Qed.

(** X5. Extraction is all or nothing and keeps the order.  For a response
    that is an array of raw items, the attempt yields questions exactly when
    every item converts, and then question [i] is the conversion of item
    [i]: none is dropped, added or reordered.  When the conversion of one
    item throws, the items before it having converted, the whole attempt
    throws that error and the questions already converted are lost. *)
Theorem extraction_all_or_nothing (chunk : Chunk) (items : list jsval) :
  (forall tagged,
     interpret convert chunk (VArr items) = inr (Extracted tagged) <->
     Forall2 (fun q t => convert chunk q = inr t) items tagged)
  /\ (forall tagged, interpret convert chunk (VArr items) = inr (Extracted tagged) ->
        length tagged = length items)
  /\ (forall pre q post tagged err,
        items = pre ++ q :: post ->
        Forall2 (fun q t => convert chunk q = inr t) pre tagged ->
        convert chunk q = inl err ->
        interpret convert chunk (VArr items) = inl err).
Proof.
  assert (Heq : interpret convert chunk (VArr items)
                = (converted ← convertAll convert chunk items; mret (Extracted converted))).
  { rewrite interpret_items; [reflexivity|reflexivity|by intros skip [= <-]]. }
  assert (H1 : forall tagged,
     interpret convert chunk (VArr items) = inr (Extracted tagged) <->
     Forall2 (fun q t => convert chunk q = inr t) items tagged).
  { intros tagged. rewrite Heq, <- convertAll_ok.
    destruct (convertAll convert chunk items) as [err|ts]; simpl.
    - split; intros H; discriminate.
    - split; intros [= ->]; reflexivity. }
  split; [exact H1|]. split.
  - intros tagged H. apply H1 in H. symmetry. by eapply Forall2_length.
  - intros pre q post tagged err -> Hpre Hq. rewrite Heq.
    by rewrite (convertAll_fails _ _ _ _ _ _ Hpre Hq).
Qed.

(** No field of the object is an array. *)
Definition no_array (fields : list (string * jsval)) : Prop :=
  Forall (fun kv => is_array kv.2 = false) fields.

Lemma assoc_no_array fields k : no_array fields -> is_array (assoc fields k) = false.
Proof.
  induction 1 as [|[k' v] fields Hv _ IH]; simpl; [reflexivity|].
  destruct (String.eqb k' k); [exact Hv|exact IH].
Qed.

Lemma firstArray_no_array fields : no_array fields -> firstArray fields = [].
Proof.
  induction 1 as [|[k' v] fields Hv _ IH]; simpl; [reflexivity|].
  destruct v; simpl in *; done.
Qed.

(** X6. A response object that is not a skip and holds no array at all is
    not an error: the attempt returns zero questions with [success: true],
    without calling the conversion, and since it does not throw it is not
    retried. *)
Theorem no_array_is_empty_success (respond : Chunk -> Z -> exc jsval) (maxRetries : Z)
    (chunk : Chunk) (chunkIndex : nat) (fields : list (string * jsval)) :
  no_array fields -> is_true (assoc fields "skip") = false ->
  interpret convert chunk (VObj fields) = inr (Extracted [])
  /\ (0 <= maxRetries -> respond chunk 1 = inr (VObj fields) ->
        processChunk convert respond maxRetries chunk chunkIndex = Some (Extracted [])).
Proof.
  intros Hna Hskip.
  assert (Hi : interpret convert chunk (VObj fields) = inr (Extracted [])).
  { rewrite interpret_items; [|reflexivity|by intros skip [= <-]].
    unfold questionsArray. simpl.
    pose proof (assoc_no_array fields "questions" Hna) as Hq.
    pose proof (assoc_no_array fields "items" Hna) as Hi.
    destruct (assoc fields "questions"); try done;
      destruct (assoc fields "items"); try done;
      by rewrite firstArray_no_array. }
  split; [exact Hi|]. intros Hm Hr.
  by eapply ReconcilerFacts.processChunk_first_attempt.
Qed.

End Conversion.

Lemma extraction_all_or_nothing_witness :
  interpret textOnly (mkChunk 1 8) (VArr [VObj [("text", VStr "Q1")]; VNull])
  = inl "Cannot read properties of null (reading 'text')".
Proof.
  apply (proj2 (proj2 (extraction_all_or_nothing textOnly (mkChunk 1 8)
                         [VObj [("text", VStr "Q1")]; VNull]))
           [VObj [("text", VStr "Q1")]] VNull [] ["Q1"]).
  - reflexivity.
  - constructor; [reflexivity|constructor].
  - reflexivity.
Defined.

Lemma no_array_is_empty_success_witness :
  interpret textOnly (mkChunk 1 8) (VObj [("message", VStr "no questions on these pages")])
  = inr (Extracted []).
Proof.
  apply (no_array_is_empty_success textOnly (fun _ _ => inr VNull) 1 (mkChunk 1 8) 0
           [("message", VStr "no questions on these pages")]).
  - constructor; [reflexivity|constructor].
  - reflexivity.
Defined.

(** *** Page numbers on the units of the segmenter *)

Lemma normalizePage_integer chunk (z : Z) :
  normalizePage chunk (of_Z z)
  = if decide (1 <= z <= pages chunk) then of_Z (fromPage chunk + (z - 1)) else of_Z z.
Proof.
  unfold of_Z. destruct (decide (1 <= z <= pages chunk)) as [Hz|Hz].
  - rewrite normalizePage_inside, remap_integer; [reflexivity|].
    split; [change 1%Q with (inject_Z 1)|]; rewrite <- Zle_Qle; lia.
  - apply normalizePage_outside. intros [H1 H2]. apply Hz.
    change 1%Q with (inject_Z 1) in H1. rewrite <- Zle_Qle in H1, H2. lia.
Qed.

(** A unit starts on page 1 or after more pages than it holds. *)
Definition placed (u : Chunk) : Prop :=
  1 <= fromPage u <= toPage u /\ (fromPage u = 1 \/ pages u < fromPage u).

Lemma splitLoop_placed fuel P S start us :
  1 <= S -> start = 0 \/ S <= start ->
  splitLoop fuel P S start [] = Some us -> Forall placed us.
Proof.
  intros HS. revert start us. induction fuel as [|fuel IH]; intros start us Hstart; simpl.
  - destruct (start <? P); [done|]. intros [= <-]. constructor.
  - destruct (Z.ltb_spec start P) as [Hlt|Hge]; [|intros [= <-]; constructor].
    rewrite splitLoop_acc.
    destruct (splitLoop fuel P S (start + S) []) as [rest|] eqn:Hrest; [|done].
    intros [= <-]. simpl. constructor.
    + unfold placed, pages. simpl. lia.
    + apply (IH (start + S)); [lia|exact Hrest].
Qed.

(** X7. On the units that splitPdfIntoChunks produces (chunk size at least
    one), the page normalization is consistent: a unit-relative page number
    lands inside the unit's page range; a page number that is already the
    absolute number of a page of the unit is left as it is; and normalizing
    twice is the same as normalizing once. *)
Theorem page_normalization_on_units (totalPages pagesPerChunk : Z)
    (units : list Chunk) (u : Chunk) (z : Z) :
  1 <= pagesPerChunk ->
  splitPdfIntoChunks totalPages pagesPerChunk = Some units ->
  u ∈ units ->
  (1 <= z <= pages u ->
     exists a, normalizePage u (of_Z z) = of_Z a /\ fromPage u <= a <= toPage u)
  /\ (fromPage u <= z <= toPage u -> normalizePage u (of_Z z) = of_Z z)
  /\ normalizePage u (normalizePage u (of_Z z)) = normalizePage u (of_Z z).
Proof.
  intros HS Hsplit Hu.
  assert (Hp : placed u).
  { apply splitLoop_placed in Hsplit; [|done|by left].
    rewrite Forall_forall in Hsplit. by apply Hsplit. }
  destruct Hp as (Hrange & Hplace). unfold pages in *.
  split; [|split].
  - intros Hz. exists (fromPage u + (z - 1)). rewrite normalizePage_integer.
    destruct (decide (1 <= z <= pages u)) as [_|Hn]; [|unfold pages in Hn; lia].
    split; [reflexivity|lia].
  - intros Hz. rewrite normalizePage_integer.
    destruct (decide (1 <= z <= pages u)) as [Hin|_]; [|reflexivity].
    unfold pages in Hin. f_equal. lia.
  - rewrite normalizePage_integer.
    destruct (decide (1 <= z <= pages u)) as [Hin|Hout].
    + unfold pages in Hin. rewrite normalizePage_integer.
      destruct (decide (1 <= fromPage u + (z - 1) <= pages u)) as [Hin'|_]; [|reflexivity].
      unfold pages in Hin'. f_equal. lia.
    + rewrite normalizePage_integer.
      destruct (decide (1 <= z <= pages u)); [done|reflexivity].
Qed.

Lemma page_normalization_on_units_witness :
  (exists a, normalizePage (mkChunk 9 16) (of_Z 3) = of_Z a /\ 9 <= a <= 16)
  /\ normalizePage (mkChunk 9 16) (normalizePage (mkChunk 9 16) (of_Z 3))
     = normalizePage (mkChunk 9 16) (of_Z 3).
Proof.
  destruct (page_normalization_on_units 20 8 [mkChunk 1 8; mkChunk 9 16; mkChunk 17 20]
              (mkChunk 9 16) 3) as (H1 & _ & H3).
  - lia.
  - reflexivity.
  - apply elem_of_cons. right. apply elem_of_cons. by left.
  - split; [|exact H3]. apply H1. unfold pages. simpl. lia.
Defined.

End UnitProcessorMore.

Module PipelineMore.
Import Segmenter YearFilter JS UnitProcessor Dispatcher Reconciler.
Import SegmenterFacts YearFilterFacts DispatcherFacts ReconcilerFacts.

(** *** The segmenter outside its domain *)

Lemma splitLoop_runs_on fuel P S start out :
  S <= 0 -> start < P -> splitLoop fuel P S start out = None.
Proof.
  intros HS. revert start out. induction fuel as [|fuel IH]; intros start out Hlt; simpl.
  - destruct (Z.ltb_spec start P); [reflexivity|lia].
  - destruct (Z.ltb_spec start P); [|lia]. apply IH. lia.
Qed.

Lemma splitLoop_no_page fuel P S start out :
  P <= start -> splitLoop fuel P S start out = Some out.
Proof.
  intros H. destruct fuel; simpl; destruct (Z.ltb_spec start P); (lia || reflexivity).
Qed.

(** The pre-filter lets the file through. *)
Definition passesFilter (filePath : string) (examContextInput : EnhancedExamContext) : Prop :=
  shouldProcess
    (shouldProcessPdf (baseName filePath)
       (mkContext (Some (normalizeYears (allowedYears examContextInput)))
          (strictYearFiltering examContextInput))) = true.

(** An outcome that makes the loop record an error. *)
Definition failed (r : option (ChunkResult TaggedQuestion)) : bool :=
  match r with
  | None | Some (Failed _) => true
  | _ => false
  end.

Lemma unitErrors_count chunks i outcomes :
  (i + length outcomes <= length chunks)%nat ->
  length (unitErrors chunks i outcomes) = length (List.filter failed outcomes).
Proof.
  revert i. induction outcomes as [|r rest IH]; intros i Hlen; [reflexivity|].
  simpl in Hlen. simpl unitErrors. rewrite length_app, IH by lia.
  destruct r as [[skipReason skipScope|qs|error]|]; simpl; try reflexivity.
  destruct (lookup_lt_is_Some_2 chunks i) as [chunk ->]; [lia|]. reflexivity.
Qed.

(** The three forms of a result of [processPdfWithClaude] for [filePath]:
    nothing extracted, skipped with a reason, questions extracted. *)
Inductive ResultForm (NumberToString : number -> string) (filePath : string)
    : DirectPdfResult -> Prop :=
  | form_empty errs :
      ResultForm NumberToString filePath
        (mkResult false (baseName filePath) filePath [] 0 None errs)
  | form_skipped why errs :
      why <> "" ->
      ResultForm NumberToString filePath
        (mkResult false (baseName filePath) filePath [] 0 (Some why) errs)
  | form_extracted qs errs :
      qs <> [] -> Forall (keyable NumberToString) qs ->
      NoDup (keyOf NumberToString <$> qs) ->
      ResultForm NumberToString filePath
        (mkResult true (baseName filePath) filePath qs (length qs) None errs).

(** The pre-filter always says why it rejects. *)
Lemma rejection_reason fileName examContext why year :
  shouldProcessPdf fileName examContext = mkCheck false why year ->
  exists text, why = Some text /\ text <> "".
Proof.
  unfold shouldProcessPdf.
  destruct (allowedYears examContext) as [[|y ys]|]; [done| |done].
  destruct (not_detected _ && negb _); [done|].
  destruct (not_detected _ && _); [intros [= <- _]; by eexists|].
  destruct (extractYearFromFilename _) as [detected|]; [|intros [= <- _]; by eexists].
  destruct (YearFilter.includes _ _); [done|].
  intros [= <- _]. by eexists.
Qed.

(** Normalising years that are normalised already changes nothing. *)
Lemma renormalized (years : option (list string)) :
  normalizeYears (Some (normalizeYears years)) = normalizeYears years.
Proof. apply normalizeYears_stable, normalizeYears_normal. Qed.

Section Runs.
Variable NumberToString : number -> string.
Variable choose : list nat -> nat.
Variable convert : Chunk -> jsval -> exc TaggedQuestion.
Variable respond : Chunk -> Z -> exc jsval.

Abbreviation processPdfWithClaude :=
  (processPdfWithClaude NumberToString choose convert respond).

(** X8. A chunk size of zero or less never gets past the first page: the
    loop of splitPdfIntoChunks runs on with any amount of fuel, and
    processPdfWithClaude, once the pre-filter has let the file through and
    the PDF has at least one page, does not return. *)
Theorem nonpositive_chunk_size_runs_on (filePath : string)
    (examContextInput : EnhancedExamContext) (options : Options)
    (totalPages size : Z) (client : exc unit) :
  pagesPerChunk options = Some size -> size <= 0 -> 1 <= totalPages ->
  (forall fuel, splitLoop fuel totalPages size 0 [] = None)
  /\ (passesFilter filePath examContextInput ->
      processPdfWithClaude filePath examContextInput options (inr totalPages) client = None).
Proof.
  intros Hopt Hsize HP. split.
  - intros fuel. apply splitLoop_runs_on; lia.
  - intros Hpass. unfold Reconciler.processPdfWithClaude. unfold passesFilter in Hpass.
    rewrite Hpass, Hopt. simpl.
    unfold splitPdfIntoChunks. by rewrite splitLoop_runs_on by lia.
Qed.

(** X9. What stops a document before any unit is sent: a file that cannot
    be read or loaded, a PDF without pages, a client that cannot be built.
    Each gives a result with success = false, no question, no skip reason
    and the single error "Failed to process <file name>: <message>". *)
Theorem fatal_errors (filePath : string) (examContextInput : EnhancedExamContext)
    (options : Options) :
  passesFilter filePath examContextInput ->
  let failure message :=
    Some (mkResult false (baseName filePath) filePath [] 0 None
            ["Failed to process " +:+ baseName filePath +:+ ": " +:+ message]) in
  (forall message client,
     processPdfWithClaude filePath examContextInput options (inl message) client
     = failure message)
  /\ (forall totalPages client,
        totalPages <= 0 ->
        processPdfWithClaude filePath examContextInput options (inr totalPages) client
        = failure "No chunks produced from PDF")
  /\ (forall totalPages message,
        1 <= totalPages -> 1 <= default 10 (pagesPerChunk options) ->
        processPdfWithClaude filePath examContextInput options (inr totalPages)
          (inl message)
        = failure message).
Proof.
  intros Hpass failure. unfold passesFilter in Hpass.
  unfold Reconciler.processPdfWithClaude. rewrite Hpass. simpl negb. cbv iota.
  split; [reflexivity|]. split.
  - intros totalPages client HP.
    unfold splitPdfIntoChunks. rewrite splitLoop_no_page by lia. reflexivity.
  - intros totalPages message HP HS.
    destruct (splitLoop_tiles (Z.to_nat totalPages) totalPages
                (default 10 (pagesPerChunk options)) 0 HS)
      as (us & Hrun & _ & _ & Hne); [lia|lia|].
    unfold splitPdfIntoChunks. rewrite Hrun.
    destruct us as [|u us]; [done|]. reflexivity.
Qed.

Lemma processPdfWithClaude_form (filePath : string)
    (examContextInput : EnhancedExamContext) (options : Options) (pdf : exc Z)
    (client : exc unit) (result : DirectPdfResult) :
  processPdfWithClaude filePath examContextInput options pdf client = Some result ->
  ResultForm NumberToString filePath result.
Proof.
  unfold Reconciler.processPdfWithClaude.
  destruct (shouldProcessPdf _ _) as [go why year] eqn:Hcheck. simpl.
  destruct go; simpl.
  - destruct pdf as [message|totalPages]; [intros [= <-]; apply form_empty|].
    destruct (splitPdfIntoChunks _ _) as [chunks|]; [|done].
    destruct (length chunks =? 0)%nat; [intros [= <-]; apply form_empty|].
    destruct client as [message|[]]; [intros [= <-]; apply form_empty|].
    destruct (runWithConcurrency _ _ _ _) as [[message|chunkResults]|]; [| |done].
    + intros [= <-]. apply form_empty.
    + intros [= <-]. unfold reconcile.
      destruct (reconcileLoop _ _ _ _ _ _) as [[acc errs] [|reason|message]].
      * destruct (dedup NumberToString acc) as [message|deduped] eqn:Hdedup;
          [apply form_empty|].
        pose proof (dedup_keyable _ _ _ Hdedup) as Hkeys.
        rewrite dedup_keepFirst in Hdedup by exact Hkeys. injection Hdedup as <-.
        pose proof (keepFirst_NoDup NumberToString acc) as Hnd.
        pose proof (keepFirst_keyable NumberToString acc Hkeys) as Hkept.
        destruct (keepFirst NumberToString acc) as [|q l] eqn:Hk.
        -- destruct (strictYearFiltering examContextInput); simpl;
             [by apply form_skipped|apply form_empty].
        -- replace (strictYearFiltering examContextInput && (length (q :: l) =? 0)%nat)
             with false by (by rewrite andb_false_r).
           by apply form_extracted.
      * destruct (ToString NumberToString reason) as [message|text];
          [apply form_empty|]. by apply form_skipped.
      * apply form_empty.
  - intros [= <-]. apply rejection_reason in Hcheck as (text & -> & Htext).
    by apply form_skipped.
Qed.

(** X10. The shape of every result.  [totalQuestions] is the number of
    questions; success is true exactly when there is at least one question,
    and then no skip reason is set; a skip reason that is set is never the
    empty string; every question has a deduplication key and no two
    questions share one; and the file name is the last component of the
    path. *)
Theorem result_shape (filePath : string) (examContextInput : EnhancedExamContext)
    (options : Options) (pdf : exc Z) (client : exc unit) (result : DirectPdfResult) :
  processPdfWithClaude filePath examContextInput options pdf client = Some result ->
  totalQuestions result = length (questions result)
  /\ (success result = true <-> questions result <> [])
  /\ (success result = true -> skippedReason result = None)
  /\ (forall reason, skippedReason result = Some reason -> reason <> "")
  /\ Forall (keyable NumberToString) (questions result)
  /\ NoDup (keyOf NumberToString <$> questions result)
  /\ fileName result = baseName filePath
  /\ Reconciler.filePath result = filePath.
Proof.
  intros Hrun. apply processPdfWithClaude_form in Hrun.
  destruct Hrun as [errs|why errs Hwhy|qs errs Hqs Hkeys Hdistinct]; simpl.
  - split; [reflexivity|]. split; [by split|]. split; [done|].
    split; [done|]. split; [constructor|]. split; [constructor|done].
  - split; [reflexivity|]. split; [by split|]. split; [done|].
    split; [by intros reason [= <-]|]. split; [constructor|].
    split; [constructor|done].
  - split; [reflexivity|]. split; [by split|]. split; [done|].
    split; [done|]. split; [exact Hkeys|]. split; [exact Hdistinct|done].
Qed.

(** X13. A file that the pre-filter rejects is never opened: whatever the
    options, the content of the file and the state of the client (a chunk
    size of zero, an unreadable file or a missing key included) the call
    returns the same result, with the filter's reason as skip reason and
    "Skipped: <reason>" as its only error. *)
Theorem rejected_file_is_not_read (filePath : string)
    (examContextInput : EnhancedExamContext) :
  ~ passesFilter filePath examContextInput ->
  exists why,
    why <> ""
    /\ forall options pdf client,
         processPdfWithClaude filePath examContextInput options pdf client
         = Some (mkResult false (baseName filePath) filePath [] 0 (Some why)
                   ["Skipped: " +:+ why]).
Proof.
  unfold passesFilter. intros Hrej. apply not_true_is_false in Hrej.
  destruct (shouldProcessPdf _ _) as [go why year] eqn:Hcheck. simpl in Hrej. subst go.
  destruct (rejection_reason _ _ _ _ Hcheck) as (text & -> & Htext).
  exists text. split; [exact Htext|].
  intros options pdf client. unfold Reconciler.processPdfWithClaude.
  by rewrite Hcheck.
Qed.

(** X11. Without a document-level skip, and with skip reasons that
    convert to a string, a unit that fails costs only its own questions:
    the call returns, and one error is recorded per failed or missing unit,
    in unit order.  When the deduplication key of every question can be
    built, the questions are those of the units that succeeded, in unit
    order and deduplicated (plus the strict-mode notice when nothing at all
    was extracted).  When the key of some question cannot be built (its
    text is truthy and not a string, or its page does not convert to a
    string), the deduplication throws and the result has no question at
    all and the error "Failed to process <file>: <message>" after those of
    the units. *)
Theorem failed_units_are_local (filePath : string)
    (examContextInput : EnhancedExamContext) (options : Options) (totalPages : Z) :
  passesFilter filePath examContextInput ->
  1 <= totalPages ->
  1 <= default 10 (pagesPerChunk options) ->
  1 <= default 4 (chunkConcurrency options) ->
  exists chunks,
    splitPdfIntoChunks totalPages (default 10 (pagesPerChunk options)) = Some chunks
    /\ let outcomes :=
         imap (fun i chunk =>
                 processChunk convert respond (default 1 (maxRetriesPerChunk options))
                   chunk i) chunks in
       let unitErrs := unitErrors chunks 0 outcomes in
       Forall (fun r => ~ documentSkip r) outcomes ->
       Forall (skipPrintable NumberToString) outcomes ->
       length unitErrs = length (List.filter failed outcomes)
       /\ processPdfWithClaude filePath examContextInput options (inr totalPages) (inr tt)
          = Some
              match dedup NumberToString (concat (itemsOf <$> outcomes)) with
              | inl message => thrown (baseName filePath) filePath unitErrs message
              | inr deduped =>
                  if strictYearFiltering examContextInput && (length deduped =? 0)%nat
                  then mkResult false (baseName filePath) filePath [] 0
                         (Some strictSkip) (unitErrs ++ [strictSkip])
                  else mkResult (0 <? length deduped)%nat (baseName filePath) filePath
                         deduped (length deduped) None unitErrs
              end.
Proof.
  intros Hpass HP HS HK. unfold passesFilter in Hpass.
  destruct (splitLoop_tiles (Z.to_nat totalPages) totalPages
              (default 10 (pagesPerChunk options)) 0 HS)
    as (chunks & Hrun & _ & _ & Hne); [lia|lia|].
  exists chunks. split; [exact Hrun|]. intros outcomes unitErrs Hno Hprint.
  assert (Hlen : length outcomes = length chunks) by apply length_imap.
  split; [apply unitErrors_count; simpl; lia|].
  unfold Reconciler.processPdfWithClaude. rewrite Hpass. simpl negb. cbv iota.
  fold (splitPdfIntoChunks totalPages (default 10 (pagesPerChunk options))) in Hrun.
  rewrite Hrun.
  replace (length chunks =? 0)%nat with false by (by destruct chunks).
  rewrite runWithConcurrency_total by exact HK.
  rewrite dispatched_outcomes. fold outcomes.
  destruct (dispatched_results convert respond (default 1 (maxRetriesPerChunk options))
              chunks) as (_ & Hwf & _).
  rewrite dispatched_outcomes in Hwf. fold outcomes in Hwf.
  rewrite reconcile_no_document_skip by (done || lia). fold unitErrs. simpl.
  destruct (dedup NumberToString (concat (itemsOf <$> outcomes))) as [message|deduped];
    [reflexivity|].
  destruct (strictYearFiltering examContextInput && (length deduped =? 0)%nat) eqn:Hstrict;
    [|reflexivity].
  apply andb_prop in Hstrict as [_ Hempty]. by destruct deduped.
Qed.

(** X12. A unit concurrency of zero or less starts no runner: no unit is
    sent to the service and the loop over the outcomes has nothing to read,
    so the document comes back without a question and, outside strict mode,
    without any error or skip reason. *)
Theorem no_runner_is_silent (filePath : string) (examContextInput : EnhancedExamContext)
    (options : Options) (totalPages K : Z) :
  passesFilter filePath examContextInput ->
  1 <= totalPages ->
  1 <= default 10 (pagesPerChunk options) ->
  chunkConcurrency options = Some K -> K <= 0 ->
  processPdfWithClaude filePath examContextInput options (inr totalPages) (inr tt)
  = Some (if strictYearFiltering examContextInput
          then mkResult false (baseName filePath) filePath [] 0
                 (Some strictSkip) [strictSkip]
          else mkResult false (baseName filePath) filePath [] 0 None []).
Proof.
  intros Hpass HP HS HK Hle. unfold passesFilter in Hpass.
  destruct (splitLoop_tiles (Z.to_nat totalPages) totalPages
              (default 10 (pagesPerChunk options)) 0 HS)
    as (chunks & Hrun & _ & _ & Hne); [lia|lia|].
  unfold Reconciler.processPdfWithClaude. rewrite Hpass. simpl negb. cbv iota.
  fold (splitPdfIntoChunks totalPages (default 10 (pagesPerChunk options))) in Hrun.
  rewrite Hrun, HK.
  replace (length chunks =? 0)%nat with false by (by destruct chunks).
  unfold runWithConcurrency. simpl default. rewrite dispatch_no_runner by exact Hle.
  simpl. by destruct (strictYearFiltering examContextInput).
Qed.

End Runs.

Definition only2023 : EnhancedExamContext := mkContext (Some [" 23 "]) true.

(** A service that is down for every unit but the first. *)
Definition firstOnlyService (chunk : Chunk) (attempt : Z) : exc jsval :=
  if fromPage chunk =? 1 then sampleService chunk attempt
  else throw "529 overloaded".

Lemma nonpositive_chunk_size_runs_on_witness :
  (forall fuel, splitLoop fuel 20 0 0 [] = None)
  /\ processPdfWithClaude plainNumber fifo sampleConvert sampleService
       "papers/cgl-2023.pdf" only2023 (mkOptions (Some 0) None None) (inr 20) (inr tt)
     = None.
Proof.
  destruct (nonpositive_chunk_size_runs_on plainNumber fifo sampleConvert sampleService
              "papers/cgl-2023.pdf" only2023 (mkOptions (Some 0) None None) 20 0 (inr tt))
    as [Hloop Hrun]; [reflexivity|lia|lia|].
  split; [exact Hloop|]. apply Hrun. vm_compute. reflexivity.
Defined.

Lemma fatal_errors_witness :
  processPdfWithClaude plainNumber fifo sampleConvert sampleService
    "papers/cgl-2023.pdf" only2023 chunksOf8 (inl "ENOENT: no such file or directory")
    (inr tt)
  = Some (mkResult false "cgl-2023.pdf" "papers/cgl-2023.pdf" [] 0 None
            ["Failed to process cgl-2023.pdf: ENOENT: no such file or directory"])
  /\ processPdfWithClaude plainNumber fifo sampleConvert sampleService
       "papers/cgl-2023.pdf" only2023 chunksOf8 (inr 0) (inr tt)
     = Some (mkResult false "cgl-2023.pdf" "papers/cgl-2023.pdf" [] 0 None
               ["Failed to process cgl-2023.pdf: No chunks produced from PDF"])
  /\ processPdfWithClaude plainNumber fifo sampleConvert sampleService
       "papers/cgl-2023.pdf" only2023 chunksOf8 (inr 20) (inl "missing API key")
     = Some (mkResult false "cgl-2023.pdf" "papers/cgl-2023.pdf" [] 0 None
               ["Failed to process cgl-2023.pdf: missing API key"]).
Proof.
  destruct (fatal_errors plainNumber fifo sampleConvert sampleService
              "papers/cgl-2023.pdf" only2023 chunksOf8) as (Hload & Hempty & Hclient);
    [vm_compute; reflexivity|].
  split; [apply Hload|]. split; [apply Hempty; lia|].
  apply Hclient; [lia|simpl; lia].
Defined.

Lemma result_shape_witness :
  exists result,
    processPdfWithClaude plainNumber fifo sampleConvert sampleService
      "papers/cgl-2023.pdf" only2023 chunksOf8 (inr 20) (inr tt) = Some result
    /\ totalQuestions result = 7%nat
    /\ totalQuestions result = length (questions result)
    /\ (success result = true <-> questions result <> [])
    /\ NoDup (keyOf plainNumber <$> questions result)
    /\ fileName result = "cgl-2023.pdf".
Proof.
  eexists. split; [vm_compute; reflexivity|]. split; [reflexivity|].
  destruct (result_shape plainNumber fifo sampleConvert sampleService
              "papers/cgl-2023.pdf" only2023 chunksOf8 (inr 20) (inr tt) _ eq_refl)
    as (Hcount & Hsuccess & _ & _ & _ & Hdistinct & Hname & _).
  split; [exact Hcount|]. split; [exact Hsuccess|]. split; [exact Hdistinct|].
  exact Hname.
Defined.

Lemma rejected_file_is_not_read_witness :
  processPdfWithClaude plainNumber fifo sampleConvert sampleService
    "papers/cgl-2019.pdf" only2023 chunksOf8 (inr 20) (inr tt)
  = Some (mkResult false "cgl-2019.pdf" "papers/cgl-2019.pdf" [] 0
            (Some "Year 2019 not in allowed years: 2023")
            ["Skipped: Year 2019 not in allowed years: 2023"])
  /\ processPdfWithClaude plainNumber fifo sampleConvert sampleService
       "papers/cgl-2019.pdf" only2023 (mkOptions (Some 0) None None)
       (inl "ENOENT: no such file or directory") (inl "missing API key")
     = Some (mkResult false "cgl-2019.pdf" "papers/cgl-2019.pdf" [] 0
               (Some "Year 2019 not in allowed years: 2023")
               ["Skipped: Year 2019 not in allowed years: 2023"]).
Proof.
  destruct (rejected_file_is_not_read plainNumber fifo sampleConvert sampleService
              "papers/cgl-2019.pdf" only2023) as (why & _ & Hrun);
    [vm_compute; discriminate|].
  pose proof (Hrun chunksOf8 (inr 20) (inr tt)) as Hone.
  vm_compute in Hone. injection Hone as <-.
  split; apply Hrun.
Defined.

Lemma failed_units_are_local_witness :
  processPdfWithClaude plainNumber lifo sampleConvert firstOnlyService
    "papers/cgl-2023.pdf" only2023 chunksOf8 (inr 20) (inr tt)
  = Some (mkResult true "cgl-2023.pdf" "papers/cgl-2023.pdf"
            [question "a" 1 "Q1"; question "b" 2 "Q2"; question "c" 3 "Q3";
             question "d" 5 "Q4"; question "e" 8 "Q5"]
            5 None
            ["Chunk 2 (pages 9-16) failed: 529 overloaded";
             "Chunk 3 (pages 17-20) failed: 529 overloaded"]).
Proof.
  destruct (failed_units_are_local plainNumber lifo sampleConvert firstOnlyService
              "papers/cgl-2023.pdf" only2023 chunksOf8 20)
    as (chunks & Hsplit & Hrun); [vm_compute; reflexivity|lia|simpl; lia|simpl; lia|].
  vm_compute in Hsplit. injection Hsplit as <-.
  destruct Hrun as [_ Hresult].
  - repeat constructor; intros (skipReason & skipScope & Hskip & _); vm_compute in Hskip;
      discriminate.
  - repeat constructor; intros skipReason skipScope Hskip; vm_compute in Hskip;
      discriminate.
  - rewrite Hresult. vm_compute. reflexivity.
Defined.

Lemma no_runner_is_silent_witness :
  processPdfWithClaude plainNumber fifo sampleConvert sampleService
    "papers/cgl-2023.pdf" anyYear (mkOptions None None (Some 0)) (inr 20) (inr tt)
  = Some (mkResult false "cgl-2023.pdf" "papers/cgl-2023.pdf" [] 0 None []).
Proof.
  apply (no_runner_is_silent plainNumber fifo sampleConvert sampleService
           "papers/cgl-2023.pdf" anyYear (mkOptions None None (Some 0)) 20 0);
    [vm_compute; reflexivity|lia|simpl; lia|reflexivity|lia].
Defined.

End PipelineMore.

Module BatchFacts.
Import Segmenter YearFilter JS UnitProcessor Dispatcher Reconciler Batch.
Import YearFilterFacts DispatcherFacts ReconcilerFacts PipelineMore.

(** *** [mapQuestionType] *)

(** X14. mapQuestionType returns each of the six question types unchanged
    (so mapping its own output again changes nothing), returns a question
    type for every name that is not a member of Object.prototype, "MCQ"
    when the table does not know the name, and for a member of
    Object.prototype returns that member instead of a question type. *)
Theorem mapQuestionType_canonical :
  (forall t, mapQuestionType (typeName t) = Known t)
  /\ (forall type, type ∉ objectPrototype ->
        exists t, mapQuestionType type = Known t
                  /\ mapQuestionType (typeName t) = Known t
                  /\ (own typeMap type = None -> t = MCQ))
  /\ (forall type, type ∈ objectPrototype -> mapQuestionType type = Inherited type).
Proof.
  assert (Hfix : forall t, mapQuestionType (typeName t) = Known t) by (by intros []).
  split; [exact Hfix|]. split.
  - intros type Hout. unfold mapQuestionType.
    destruct (own typeMap type) as [t|] eqn:E.
    + exists t. split; [reflexivity|]. split; [apply Hfix|done].
    + rewrite bool_decide_eq_false_2 by exact Hout.
      exists MCQ. split; [reflexivity|]. split; [apply Hfix|done].
  - intros type Hin. unfold objectPrototype in Hin.
    repeat (apply elem_of_cons in Hin as [->|Hin]; [reflexivity|]).
    by apply elem_of_nil in Hin.
Qed.

Lemma mapQuestionType_canonical_witness :
  mapQuestionType "Essay" = Known Descriptive
  /\ mapQuestionType "short answer" = Known MCQ
  /\ mapQuestionType "constructor" = Inherited "constructor".
Proof.
  destruct mapQuestionType_canonical as (_ & Hout & Hin).
  split; [reflexivity|]. split.
  - destruct (Hout "short answer") as (t & -> & _ & Hmcq).
    + apply (bool_decide_eq_false_1 _). vm_compute. reflexivity.
    + by rewrite Hmcq.
  - apply Hin. apply (bool_decide_unpack _). vm_compute. exact I.
Defined.

(** *** The summary of a batch *)

(** The results whose questions [flattenBatchResults] keeps. *)
Definition counted (r : DirectPdfResult) : bool := success r && negb (skipped r).

Definition kept (r : DirectPdfResult) : list TaggedQuestion :=
  if counted r then questions r else [].

Lemma flattenLoop_flat rs allQuestions :
  flattenLoop rs allQuestions = allQuestions ++ flat_map kept rs.
Proof.
  revert allQuestions. induction rs as [|r rs IH]; intros allQuestions; simpl.
  - by rewrite app_nil_r.
  - unfold kept at 1, counted. destruct (success r && negb (skipped r)).
    + by rewrite IH, <- app_assoc.
    + by rewrite IH.
Qed.

Lemma total_flat rs n :
  fold_left (fun s r => (s + (if success r then length (questions r) else 0))%nat)
    (List.filter (fun r => negb (skipped r)) rs) n
  = (n + length (flat_map kept rs))%nat.
Proof.
  revert n. induction rs as [|r rs IH]; intros n; simpl; [lia|].
  unfold kept at 1, counted.
  destruct (skipped r); simpl.
  - rewrite IH, andb_false_r. simpl. lia.
  - rewrite IH, andb_true_r. destruct (success r); rewrite ?length_app; simpl; lia.
Qed.

Lemma split_count rs :
  (length (List.filter (fun r => negb (skipped r)) rs) + length (List.filter skipped rs)
   = length rs)%nat.
Proof.
  induction rs as [|r rs IH]; simpl; [reflexivity|].
  destruct (skipped r); simpl; lia.
Qed.

(** A successful result has questions and no skip reason. *)
Definition sound (r : DirectPdfResult) : Prop :=
  success r = true -> questions r <> [] /\ skipped r = false.

Lemma form_sound NumberToString filePath r :
  ResultForm NumberToString filePath r -> sound r.
Proof. by intros [errs|why errs Hwhy|qs errs Hqs Hdistinct] Hs. Qed.

Lemma form_path NumberToString filePath r :
  ResultForm NumberToString filePath r -> Reconciler.filePath r = filePath.
Proof. by intros [errs|why errs Hwhy|qs errs Hqs Hdistinct]. Qed.

Lemma success_flat rs :
  Forall sound rs ->
  (0 <? length (List.filter success (List.filter (fun r => negb (skipped r)) rs)))%nat = true
  <-> flat_map kept rs <> [].
Proof.
  induction 1 as [|r rs Hr _ IH]; simpl; [done|].
  unfold kept at 1, counted.
  destruct (success r) eqn:Es.
  - destruct (Hr Es) as [Hq ->]. simpl. rewrite Es. simpl.
    split; [|done]. intros _. destruct (questions r); [done|]. done.
  - simpl. destruct (skipped r); simpl; rewrite ?Es; exact IH.
Qed.

Lemma imap_plain {A B} (g : A -> B) (l : list A) : imap (fun _ x => g x) l = g <$> l.
Proof. induction l as [|x l IH]; [reflexivity|]. simpl. f_equal. exact IH. Qed.

Lemma returned_all {A} (g : string -> option A) (outcome : string -> A) files :
  (forall f, f ∈ files -> g f = Some (outcome f)) ->
  returned ((fun f => Some (g f)) <$> files) = Some ((fun f => Some (outcome f)) <$> files).
Proof.
  induction files as [|f files IH]; intros Hall; [reflexivity|].
  rewrite !fmap_cons. rewrite (Hall f) by (apply elem_of_cons; by left).
  cbn [returned]. rewrite IH; [reflexivity|]. intros f' Hf'. apply Hall. apply elem_of_cons. by right.
Qed.

Lemma returned_inv {A} (g : string -> option A) files entries :
  returned ((fun f => Some (g f)) <$> files) = Some entries ->
  Forall2 (fun f e => exists r, e = Some r /\ g f = Some r) files entries.
Proof.
  revert entries. induction files as [|f files IH]; intros entries.
  - intros [= <-]. constructor.
  - rewrite fmap_cons. cbn [returned].
    destruct (g f) as [r|] eqn:E; [|done].
    destruct (returned _) as [rest|]; [|done]. simpl.
    intros [= <-]. constructor; [by exists r|by apply IH].
Qed.

(** X22. The files of a batch are always a prefix of the files found.  A
    limit of one or more keeps that many files (all of them when there are
    fewer); no limit and a limit of zero both keep every file; a negative
    limit drops that many files from the end. *)
Theorem maxFiles_keeps_a_prefix (maxFiles : option Z) (pdfFiles : list string) :
  let files := filesToProcess maxFiles pdfFiles in
  files `prefix_of` pdfFiles
  /\ (forall n, maxFiles = Some n -> 1 <= n ->
        Z.of_nat (length files) = Z.min n (Z.of_nat (length pdfFiles)))
  /\ (maxFiles = None \/ maxFiles = Some 0 -> files = pdfFiles)
  /\ (forall n, maxFiles = Some n -> n < 0 ->
        Z.of_nat (length files) = Z.max 0 (Z.of_nat (length pdfFiles) + n)).
Proof.
  intros files. unfold files, filesToProcess, slice0n.
  split; [|split; [|split]].
  - destruct maxFiles as [n|]; [|done].
    destruct (n =? 0); [done|]. destruct (0 <=? n); apply prefix_take.
  - intros n -> Hn. destruct (Z.eqb_spec n 0); [lia|].
    destruct (Z.leb_spec 0 n); [|lia]. rewrite length_take. lia.
  - by intros [->| ->].
  - intros n -> Hn. destruct (Z.eqb_spec n 0); [lia|].
    destruct (Z.leb_spec 0 n); [lia|]. rewrite length_take. lia.
Qed.

Lemma maxFiles_keeps_a_prefix_witness :
  filesToProcess (Some 2) ["a.pdf"; "b.pdf"; "c.pdf"] `prefix_of` ["a.pdf"; "b.pdf"; "c.pdf"]
  /\ Z.of_nat (length (filesToProcess (Some 2) ["a.pdf"; "b.pdf"; "c.pdf"])) = 2
  /\ filesToProcess (Some 0) ["a.pdf"; "b.pdf"; "c.pdf"] = ["a.pdf"; "b.pdf"; "c.pdf"]
  /\ Z.of_nat (length (filesToProcess (Some (-1)) ["a.pdf"; "b.pdf"; "c.pdf"])) = 2.
Proof.
  destruct (maxFiles_keeps_a_prefix (Some 2) ["a.pdf"; "b.pdf"; "c.pdf"])
    as (Hprefix & Hlimit & _ & _).
  destruct (maxFiles_keeps_a_prefix (Some 0) ["a.pdf"; "b.pdf"; "c.pdf"])
    as (_ & _ & Hall & _).
  destruct (maxFiles_keeps_a_prefix (Some (-1)) ["a.pdf"; "b.pdf"; "c.pdf"])
    as (_ & _ & _ & Hdrop).
  split; [exact Hprefix|].
  split; [rewrite (Hlimit 2 eq_refl); [reflexivity|lia]|].
  split; [apply Hall; by right|].
  rewrite (Hdrop (-1) eq_refl); [reflexivity|lia].
Defined.

Section Runs.
Variable NumberToString : number -> string.
Variable chooseFiles : list nat -> nat.
Variable chooseChunks : string -> list nat -> nat.
Variable convert : string -> Chunk -> jsval -> exc TaggedQuestion.
Variable respond : string -> Chunk -> Z -> exc jsval.
Variable readPdf : string -> exc Z.
Variable client : exc unit.

Abbreviation processFile :=
  (processFile NumberToString chooseChunks convert respond readPdf client).
Abbreviation processPdfsDirectly :=
  (processPdfsDirectly NumberToString chooseFiles chooseChunks convert respond readPdf
     client).

(** The batch normalises the allowed years once and every file normalises
    them again: the file's result is the one of the original context. *)
Lemma processFile_renormalized examContext options filePath :
  processFile (normalizedContext examContext) options filePath
  = processFile examContext options filePath.
Proof.
  assert (Hyears : normalizeYears (allowedYears (normalizedContext examContext))
                   = normalizeYears (allowedYears examContext)).
  { unfold normalizedContext.
    destruct (allowedYears examContext) as [[|y ys]|] eqn:E; rewrite ?E; try reflexivity.
    cbn [allowedYears]. apply renormalized. }
  assert (Hstrict : strictYearFiltering (normalizedContext examContext)
                    = strictYearFiltering examContext).
  { unfold normalizedContext. by destruct (allowedYears examContext) as [[|y ys]|]. }
  unfold Batch.processFile, processPdfWithClaude.
  by rewrite Hyears, Hstrict.
Qed.

(** X15. With at least one PDF found and a file concurrency of one or more,
    a batch whose files all come back returns, whatever the order in which
    the files complete, the summary of one result per file to process, in
    file order; each is the result that processPdfWithClaude gives for the
    context as the caller passed it, the second normalisation of the years
    changing nothing; and each result carries the path of its file. *)
Theorem batch_results_in_file_order (inputDir : string) (pdfFiles : list string)
    (examContext : EnhancedExamContext) (options : BatchOptions)
    (outcome : string -> DirectPdfResult) :
  pdfFiles <> [] ->
  1 <= default 4 (fileConcurrency options) ->
  let files := filesToProcess (maxFiles options) pdfFiles in
  (forall f, f ∈ files -> processFile examContext (perFile options) f = Some (outcome f)) ->
  processPdfsDirectly inputDir pdfFiles examContext options
  = Some (summarize (outcome <$> files))
  /\ Reconciler.filePath <$> (outcome <$> files) = files.
Proof.
  intros Hne HK files Hall. split.
  - unfold Batch.processPdfsDirectly.
    replace (length pdfFiles =? 0)%nat with false by (by destruct pdfFiles).
    fold files. rewrite runWithConcurrency_total by exact HK.
    rewrite (imap_plain
               (fun f => Some (processFile (normalizedContext examContext)
                                 (perFile options) f))).
    rewrite (returned_all _ outcome).
    + f_equal. f_equal. apply list_eq. intros i.
      rewrite list_lookup_imap, !list_lookup_fmap.
      by destruct (files !! i).
    + intros f Hf. rewrite processFile_renormalized. by apply Hall.
  - apply list_eq. intros i. rewrite !list_lookup_fmap.
    destruct (files !! i) as [f|] eqn:Hi; [|reflexivity]. simpl. f_equal.
    apply list_elem_of_lookup_2 in Hi.
    eapply form_path, processPdfWithClaude_form. exact (Hall f Hi).
Qed.

(** X16. The summary of every batch that returns is consistent with its
    results: processed and skipped files add up to the results; the total
    is the number of questions that flattenBatchResults returns; the batch
    succeeded exactly when that list is not empty; so after a successful
    batch the pipeline's check "No questions were extracted from PDFs"
    never fires. *)
Theorem batch_summary_consistent (inputDir : string) (pdfFiles : list string)
    (examContext : EnhancedExamContext) (options : BatchOptions)
    (batchResult : BatchProcessResult) :
  processPdfsDirectly inputDir pdfFiles examContext options = Some batchResult ->
  (totalFiles batchResult + skippedFiles batchResult = length (results batchResult))%nat
  /\ batchTotalQuestions batchResult = length (flattenBatchResults batchResult)
  /\ (batchSuccess batchResult = true <-> flattenBatchResults batchResult <> [])
  /\ runDirectPdfExtractionPipeline_step1 batchResult
     = (if batchSuccess batchResult then inr (flattenBatchResults batchResult)
        else inl "No PDFs were successfully processed").
Proof.
  assert (Hsum : forall rs, Forall sound rs ->
            let b := summarize rs in
            (totalFiles b + skippedFiles b = length (results b))%nat
            /\ batchTotalQuestions b = length (flattenBatchResults b)
            /\ (batchSuccess b = true <-> flattenBatchResults b <> [])
            /\ runDirectPdfExtractionPipeline_step1 b
               = (if batchSuccess b then inr (flattenBatchResults b)
                  else inl "No PDFs were successfully processed")).
  { intros rs Hrs b.
    assert (Hflat : flattenBatchResults b = flat_map kept rs).
    { unfold flattenBatchResults. simpl. by rewrite flattenLoop_flat. }
    assert (Hsucc : batchSuccess b = true <-> flattenBatchResults b <> []).
    { rewrite Hflat. simpl. by apply success_flat. }
    split; [apply split_count|]. split; [|split; [exact Hsucc|]].
    - rewrite Hflat. simpl. by rewrite total_flat.
    - unfold runDirectPdfExtractionPipeline_step1.
      destruct (batchSuccess b) eqn:Eb; [|reflexivity].
      assert (Hq : flattenBatchResults b <> []) by (by apply Hsucc).
      assert (Hr : (length (results b) =? 0)%nat = false).
      { simpl. destruct rs; [|reflexivity]. exfalso. apply Hq. by rewrite Hflat. }
      assert (Hl : (length (flattenBatchResults b) =? 0)%nat = false)
        by (by destruct (flattenBatchResults b)).
      cbn [negb orb]. by rewrite Hr, Hl. }
  assert (Hfail : forall message,
            let b := batchFailed message in
            (totalFiles b + skippedFiles b = length (results b))%nat
            /\ batchTotalQuestions b = length (flattenBatchResults b)
            /\ (batchSuccess b = true <-> flattenBatchResults b <> [])
            /\ runDirectPdfExtractionPipeline_step1 b
               = (if batchSuccess b then inr (flattenBatchResults b)
                  else inl "No PDFs were successfully processed")).
  { intros message. simpl. repeat split; done. }
  unfold Batch.processPdfsDirectly.
  destruct (length pdfFiles =? 0)%nat; [intros [= <-]; apply Hfail|].
  set (files := filesToProcess (maxFiles options) pdfFiles).
  destruct (Z_le_gt_dec 1 (default 4 (fileConcurrency options))) as [HK|HK].
  - rewrite runWithConcurrency_total by exact HK.
    rewrite (imap_plain
               (fun f => Some (processFile (normalizedContext examContext)
                                 (perFile options) f))).
    destruct (returned _) as [entries|] eqn:Hret; [|done].
    intros [= <-]. apply Hsum.
    apply returned_inv in Hret.
    apply Forall_forall. intros r Hr.
    apply list_elem_of_lookup in Hr as [i Hi].
    rewrite list_lookup_imap in Hi.
    destruct (entries !! i) as [e|] eqn:He; [|done]. simpl in Hi. injection Hi as <-.
    destruct (Forall2_lookup_r _ _ _ _ _ Hret He) as (f & _ & r & -> & Hrun).
    simpl. eapply form_sound, processPdfWithClaude_form. exact Hrun.
  - unfold runWithConcurrency. rewrite dispatch_no_runner by lia. simpl.
    intros [= <-]. apply Hsum. constructor.
Qed.

(** X17. Nothing to do is reported in two ways.  No PDF under the input
    directory gives the error "Batch processing failed: No PDF files found
    in <directory>"; a file concurrency of zero or less with PDFs present
    gives a failed batch without any result or error, no file having been
    opened.  In both cases the pipeline stops with "No PDFs were
    successfully processed". *)
Theorem batch_without_work (inputDir : string) (pdfFiles : list string)
    (examContext : EnhancedExamContext) (options : BatchOptions) :
  pdfFiles = [] \/ default 4 (fileConcurrency options) <= 0 ->
  exists batchResult,
    processPdfsDirectly inputDir pdfFiles examContext options = Some batchResult
    /\ batchResult
       = mkBatch false [] 0 0 0
           (if (length pdfFiles =? 0)%nat
            then ["Batch processing failed: No PDF files found in " +:+ inputDir]
            else [])
    /\ runDirectPdfExtractionPipeline_step1 batchResult
       = inl "No PDFs were successfully processed".
Proof.
  intros Hcase. unfold Batch.processPdfsDirectly.
  destruct (length pdfFiles =? 0)%nat eqn:Hlen.
  - eexists. split; [reflexivity|]. split; reflexivity.
  - destruct Hcase as [->|HK]; [done|].
    unfold runWithConcurrency. rewrite dispatch_no_runner by exact HK. simpl.
    eexists. split; [reflexivity|]. split; reflexivity.
Qed.

End Runs.

(** A batch of two files, twenty pages each, for the year 2023. *)
Definition sampleFiles : list string := ["in/cgl-2023.pdf"; "in/cgl-2019.pdf"].

Definition sampleBatch (options : BatchOptions) : option BatchProcessResult :=
  processPdfsDirectly plainNumber lifo (fun _ => fifo) (fun _ => sampleConvert)
    (fun _ => sampleService) (fun _ => inr 20) (inr tt) "in" sampleFiles only2023 options.

Definition sampleOutcome (filePath : string) : DirectPdfResult :=
  default (mkResult false "" "" [] 0 None [])
    (processFile plainNumber (fun _ => fifo) (fun _ => sampleConvert)
       (fun _ => sampleService) (fun _ => inr 20) (inr tt) only2023 chunksOf8 filePath).

Lemma batch_results_in_file_order_witness :
  sampleBatch (mkBatchOptions None None chunksOf8)
  = Some (summarize (sampleOutcome <$> sampleFiles))
  /\ Reconciler.filePath <$> (sampleOutcome <$> sampleFiles) = sampleFiles.
Proof.
  apply (batch_results_in_file_order plainNumber lifo (fun _ => fifo)
           (fun _ => sampleConvert) (fun _ => sampleService) (fun _ => inr 20) (inr tt)
           "in" sampleFiles only2023 (mkBatchOptions None None chunksOf8) sampleOutcome).
  - done.
  - simpl. lia.
  - intros f Hf. simpl in Hf. unfold sampleFiles in Hf.
    repeat (apply elem_of_cons in Hf as [->|Hf]; [vm_compute; reflexivity|]).
    by apply elem_of_nil in Hf.
Defined.

Lemma batch_summary_consistent_witness :
  exists batchResult,
    sampleBatch (mkBatchOptions None None chunksOf8) = Some batchResult
    /\ batchTotalQuestions batchResult = 7%nat
    /\ totalFiles batchResult = 1%nat
    /\ skippedFiles batchResult = 1%nat
    /\ batchTotalQuestions batchResult = length (flattenBatchResults batchResult)
    /\ (batchSuccess batchResult = true <-> flattenBatchResults batchResult <> []).
Proof.
  eexists. split; [vm_compute; reflexivity|].
  split; [reflexivity|]. split; [reflexivity|]. split; [reflexivity|].
  destruct (batch_summary_consistent plainNumber lifo (fun _ => fifo)
              (fun _ => sampleConvert) (fun _ => sampleService) (fun _ => inr 20) (inr tt)
              "in" sampleFiles only2023 (mkBatchOptions None None chunksOf8) _ eq_refl)
    as (_ & Htotal & Hsuccess & _).
  split; [exact Htotal|exact Hsuccess].
Defined.

Lemma batch_without_work_witness :
  sampleBatch (mkBatchOptions None (Some 0) chunksOf8) = Some (mkBatch false [] 0 0 0 []).
Proof.
  destruct (batch_without_work plainNumber lifo (fun _ => fifo)
              (fun _ => sampleConvert) (fun _ => sampleService) (fun _ => inr 20) (inr tt)
              "in" sampleFiles only2023 (mkBatchOptions None (Some 0) chunksOf8))
    as (batchResult & Hrun & -> & _); [right; simpl; lia|].
  exact Hrun.
Defined.

End BatchFacts.

Module SegmenterMore.
Import Segmenter SegmenterFacts.

Lemma splitLoop_closed fuel P S start :
  1 <= S -> 0 <= start -> P - start <= Z.of_nat fuel ->
  exists us, splitLoop fuel P S start [] = Some us
    /\ (Z.of_nat (length us) - 1) * S < Z.max 0 (P - start) <= Z.of_nat (length us) * S
    /\ forall i u, us !! i = Some u ->
         fromPage u = start + Z.of_nat i * S + 1
         /\ toPage u = Z.min (start + (Z.of_nat i + 1) * S) P.
Proof.
  intros HS. revert start. induction fuel as [|fuel IH]; intros start Hstart Hfuel.
  - simpl. destruct (Z.ltb_spec start P); [lia|].
    exists []. split; [reflexivity|]. split; [simpl; lia|]. intros i u Hi. done.
  - simpl. destruct (Z.ltb_spec start P) as [Hlt|Hge].
    + rewrite splitLoop_acc.
      destruct (IH (start + S)) as (us & -> & Hcount & Hat); [lia|lia|].
      eexists. split; [reflexivity|]. split.
      * simpl length. rewrite Nat2Z.inj_succ.
        assert (0 <= Z.of_nat (length us)) by lia.
        rewrite (Z.max_r 0 (P - start)) by lia.
        destruct (Z.max_spec 0 (P - (start + S))) as [[? Hm]|[? Hm]];
          rewrite Hm in Hcount.
        -- nia.
        -- assert (Z.of_nat (length us) = 0) as -> by nia. lia.
      * intros [|i] u Hi; simpl in Hi.
        -- injection Hi as <-. simpl. lia.
        -- destruct (Hat i u Hi) as [-> ->]. lia.
    + exists []. split; [reflexivity|]. split; [simpl; lia|]. intros i u Hi. done.
Qed.

(** X18. The units in closed form.  For a document of [P >= 1] pages cut
    into units of [S >= 1] pages there are [ceil(P / S)] units, and the unit
    of index [i] runs from page [i * S + 1] to page [min((i + 1) * S, P)]. *)
Theorem splitPdfIntoChunks_closed_form (P S : Z) :
  1 <= P -> 1 <= S ->
  exists units,
    splitPdfIntoChunks P S = Some units
    /\ Z.of_nat (length units) = (P + S - 1) / S
    /\ forall i u, units !! i = Some u ->
         fromPage u = Z.of_nat i * S + 1
         /\ toPage u = Z.min ((Z.of_nat i + 1) * S) P.
Proof.
  intros HP HS. unfold splitPdfIntoChunks.
  destruct (splitLoop_closed (Z.to_nat P) P S 0 HS) as (us & -> & Hcount & Hat);
    [lia|lia|].
  exists us. split; [reflexivity|]. split.
  - apply (Z.div_unique _ _ _ (P + S - 1 - S * Z.of_nat (length us))); nia.
  - intros i u Hi. destruct (Hat i u Hi) as [-> ->]. split; lia.
Qed.

Lemma splitPdfIntoChunks_closed_form_witness :
  exists units,
    splitPdfIntoChunks 20 8 = Some units
    /\ Z.of_nat (length units) = 3
    /\ forall i u, units !! i = Some u ->
         fromPage u = Z.of_nat i * 8 + 1 /\ toPage u = Z.min ((Z.of_nat i + 1) * 8) 20.
Proof.
  destruct (splitPdfIntoChunks_closed_form 20 8) as (units & Hsplit & Hcount & Hat);
    [lia|lia|].
  exists units. split; [exact Hsplit|]. split; [|exact Hat].
  rewrite Hcount. reflexivity.
Defined.

End SegmenterMore.

Module ResilientFacts.
Import Dispatcher JS Resilient DispatcherFacts.

(** A worker that rejects with [new Error("")] for "b", with [null] for
    "n", and resolves for the rest. *)
Definition odd_worker (item : string) (i : nat) : Rejection + string :=
  if String.eqb item "b" then inl (RejValue (VStr "") (inr "Error"))
  else if String.eqb item "n" then inl RejNull
  else inr ("done " +:+ item).

Lemma attemptResilient_value {T R} (worker : T -> nat -> Rejection + R) item i value :
  worker item i = inr value -> attemptResilient worker item i = inr (inr value).
Proof. unfold attemptResilient. by intros ->. Qed.

Lemma attemptResilient_caught {T R} (worker : T -> nat -> Rejection + R) item i err :
  worker item i = inl err ->
  attemptResilient worker item i
  = match caught err with inr e => inr (inl e) | inl message => inl message end.
Proof. unfold attemptResilient. intros ->. by destruct (caught err). Qed.

(** X19. The version of runWithConcurrency that stores [{ error }]: what
    the [catch] stores for a rejection is its [message] when that is
    truthy, and [String(err)] otherwise (for [new Error("")], "Error");
    reading [message] off [null] or [undefined] throws inside the [catch].
    With no runner, the call returns an array of holes, as long as the
    items.  With at least one runner, when the [catch] does not throw for
    any item, the call returns an array as long as the items, in which the
    entry of every item is its worker's value or what the [catch] stores
    for its rejection, whatever the completion order; when the [catch]
    throws for some item, the call rejects, with the message of such an
    item. *)
Theorem resilient_one_entry_per_item {T R} (choose : list nat -> nat) (items : list T)
    (worker : T -> nat -> Rejection + R) (K : Z) :
  (forall message asString,
     caught (RejValue message asString)
     = if truthy message then inr message
       else match asString with inr s => inr (VStr s) | inl thrown => inl thrown end)
  /\ caught RejNull = inl "Cannot read properties of null (reading 'message')"
  /\ caught RejUndefined = inl "Cannot read properties of undefined (reading 'message')"
  /\ (K <= 0 ->
      runWithConcurrency_resilient choose items worker K
      = Some (inr (replicate (length items) None)))
  /\ (1 <= K ->
      (forall i item err, items !! i = Some item -> worker item i = inl err ->
         exists e, caught err = inr e) ->
      exists entries,
        runWithConcurrency_resilient choose items worker K = Some (inr entries)
        /\ length entries = length items
        /\ forall i item, items !! i = Some item ->
             match worker item i with
             | inr value => entries !! i = Some (Some (inr value))
             | inl err => exists e, caught err = inr e /\ entries !! i = Some (Some (inl e))
             end)
  /\ (1 <= K ->
      forall i item err message,
        items !! i = Some item -> worker item i = inl err -> caught err = inl message ->
        exists message' i' item' err',
          runWithConcurrency_resilient choose items worker K = Some (inl message')
          /\ items !! i' = Some item' /\ worker item' i' = inl err'
          /\ caught err' = inl message').
Proof.
  split; [|split; [reflexivity|split; [reflexivity|split; [|split]]]].
  - intros message asString. simpl. destruct (truthy message); [reflexivity|].
    by destruct asString.
  - intros HK. unfold runWithConcurrency_resilient. by rewrite dispatch_no_runner by lia.
  - intros HK Hcatch.
    set (entry := fun (item : T) (i : nat) =>
           match worker item i with
           | inr value => inr value
           | inl err => inl (match caught err with inr e => e | inl _ => VNull end)
           end : settled R).
    rewrite (runWithConcurrency_resilient_isolates choose items worker entry K HK).
    + eexists. split; [reflexivity|]. split; [by rewrite length_imap|].
      intros i item Hi. rewrite list_lookup_imap, Hi. simpl. unfold entry.
      destruct (worker item i) as [err|value] eqn:Hw; [|reflexivity].
      destruct (Hcatch i item err Hi Hw) as [e He]. exists e. by rewrite He.
    + intros i item Hi. unfold entry.
      destruct (worker item i) as [err|value] eqn:Hw.
      * rewrite (attemptResilient_caught _ _ _ _ Hw).
        destruct (Hcatch i item err Hi Hw) as [e ->]. reflexivity.
      * by apply attemptResilient_value.
  - intros HK i item err message Hi Hw Hc.
    destruct (runWithConcurrency_resilient_rejects choose items worker K i item message HK Hi)
      as (message' & i' & item' & Hrun & Hi' & Hthrow).
    { rewrite (attemptResilient_caught _ _ _ _ Hw). by rewrite Hc. }
    destruct (worker item' i') as [err'|value] eqn:Hw'.
    + exists message', i', item', err'. split; [exact Hrun|]. split; [exact Hi'|].
      split; [exact Hw'|].
      rewrite (attemptResilient_caught _ _ _ _ Hw') in Hthrow.
      destruct (caught err'); congruence.
    + rewrite (attemptResilient_value _ _ _ _ Hw') in Hthrow. discriminate.
Qed.

Lemma resilient_one_entry_per_item_witness :
  (exists entries,
     runWithConcurrency_resilient lifo ["a"; "b"; "c"] odd_worker 2 = Some (inr entries)
     /\ entries !! 1%nat = Some (Some (inl (VStr "Error")))
     /\ entries !! 2%nat = Some (Some (inr "done c")))
  /\ runWithConcurrency_resilient lifo ["a"; "n"; "c"] odd_worker 2
     = Some (inl "Cannot read properties of null (reading 'message')").
Proof.
  split.
  - destruct (resilient_one_entry_per_item lifo ["a"; "b"; "c"] odd_worker 2)
      as (_ & _ & _ & _ & Hentries & _).
    destruct Hentries as (entries & Hrun & _ & Hat); [lia| |].
    + intros [|[|[|i]]] item err [= <-] [= <-]. by eexists.
    + exists entries. split; [exact Hrun|]. split.
      * destruct (Hat 1%nat "b" eq_refl) as (e & [= <-] & He). exact He.
      * exact (Hat 2%nat "c" eq_refl).
  - destruct (resilient_one_entry_per_item lifo ["a"; "n"; "c"] odd_worker 2)
      as (_ & _ & _ & _ & _ & Hrejects).
    destruct (Hrejects ltac:(lia) 1%nat "n" RejNull _ eq_refl eq_refl eq_refl)
      as (message' & i' & item' & err' & Hrun & Hi' & Hw' & Hc').
    rewrite Hrun. do 2 f_equal.
    destruct i' as [|[|[|i']]]; simpl in Hi'; try discriminate;
      injection Hi' as <-; vm_compute in Hw'; try discriminate.
    injection Hw' as <-. by injection Hc' as <-.
Defined.

End ResilientFacts.

Module YearFilterMore.
Import Regex YearFilter YearFilterFacts.

(** The most characters a match of [r] consumes. *)
Fixpoint maxlen (r : regex) : nat :=
  match r with
  | Eps => 0
  | Class _ => 1
  | Seq r1 r2 => maxlen r1 + maxlen r2
  | Opt r1 => maxlen r1
  | Rep lo hi r1 => (lo + (hi - lo)) * maxlen r1
  | WordB | Bol | Eol => 0
  | Group r1 => maxlen r1
  end.

(** [r] reads decimal digits only. *)
Fixpoint digits_only (r : regex) : Prop :=
  match r with
  | Class p => forall c, p c = true -> is_digit c = true
  | Seq r1 r2 => digits_only r1 /\ digits_only r2
  | Opt r1 | Rep _ _ r1 | Group r1 => digits_only r1
  | Eps | WordB | Bol | Eol => True
  end.

(** Every group of [r] reads two to four digits. *)
Fixpoint groups_digits (r : regex) : Prop :=
  match r with
  | Group r1 => digits_only r1 /\ (2 <= minlen r1)%nat /\ (maxlen r1 <= 4)%nat
  | Seq r1 r2 => groups_digits r1 /\ groups_digits r2
  | Opt r1 | Rep _ _ r1 => groups_digits r1
  | Eps | Class _ | WordB | Bol | Eol => True
  end.

Definition digits (l : list ascii) : Prop := Forall (fun c => is_digit c = true) l.

(** [st'] is reached from [st] by reading between [lo] and [hi] digits. *)
Definition reads (lo hi : nat) (st st' : mstate) : Prop :=
  exists used, rest st = used ++ rest st' /\ digits used /\ (lo <= length used <= hi)%nat.

Lemma reads_refl st : reads 0 0 st st.
Proof. exists []. split; [reflexivity|]. split; [constructor|simpl; lia]. Qed.

Lemma reads_trans a b c d s1 s2 s3 :
  reads a b s1 s2 -> reads c d s2 s3 -> reads (a + c) (b + d) s1 s3.
Proof.
  intros (u1 & E1 & D1 & L1) (u2 & E2 & D2 & L2). exists (u1 ++ u2).
  split; [by rewrite E1, E2, app_assoc|]. split; [by apply Forall_app|].
  rewrite length_app. lia.
Qed.

Lemma reads_weaken a b a' b' s s' :
  (a' <= a)%nat -> (b <= b')%nat -> reads a b s s' -> reads a' b' s s'.
Proof. intros Ha Hb (u & E & D & L). exists u. repeat split; try done; lia. Qed.

Definition matcher_reads (lo hi : nat) (m : mstate -> list mstate) : Prop :=
  forall st, Forall (reads lo hi st) (m st).

Lemma flat_map_reads a b c d (m k : mstate -> list mstate) :
  matcher_reads a b m -> matcher_reads c d k ->
  matcher_reads (a + c) (b + d) (fun st => flat_map k (m st)).
Proof.
  intros Hm Hk st. apply List.Forall_flat_map.
  eapply Forall_impl; [apply Hm|]. intros s1 H1. simpl.
  eapply Forall_impl; [apply Hk|]. intros s2 H2. simpl.
  by eapply reads_trans.
Qed.

Lemma upto_reads m a b n :
  matcher_reads a b m -> matcher_reads 0 (n * b) (upto m n).
Proof.
  intros Hm. induction n as [|n IH]; intros st; simpl.
  - constructor; [apply reads_refl|constructor].
  - apply Forall_app. split.
    + eapply Forall_impl; [apply (flat_map_reads a b 0 (n * b) m (upto m n) Hm IH)|].
      intros s. apply reads_weaken; lia.
    + constructor; [|constructor]. eapply reads_weaken; [| |apply reads_refl]; lia.
Qed.

Lemma times_reads m a b k c d n :
  matcher_reads a b m -> matcher_reads c d k ->
  matcher_reads (n * a + c) (n * b + d) (times m n k).
Proof.
  intros Hm Hk. induction n as [|n IH]; intros st; simpl.
  - apply Hk.
  - eapply Forall_impl; [apply (flat_map_reads _ _ _ _ m (times m n k) Hm IH)|].
    intros s. apply reads_weaken; lia.
Qed.

Lemma rmatch_reads r : digits_only r -> matcher_reads (minlen r) (maxlen r) (rmatch r).
Proof.
  induction r as [|p|r1 IH1 r2 IH2|r1 IH1|lo hi r1 IH1| | | |r1 IH1]; intros Hr st; simpl in *.
  - constructor; [apply reads_refl|constructor].
  - destruct (rest st) as [|c t] eqn:E; [constructor|].
    destruct (p c) eqn:Ep; constructor; [|constructor].
    exists [c]. simpl. rewrite E. split; [reflexivity|].
    split; [|lia]. constructor; [by apply Hr|constructor].
  - destruct Hr as [H1 H2].
    apply (flat_map_reads _ _ _ _ (rmatch r1) (rmatch r2) (IH1 H1) (IH2 H2)).
  - apply Forall_app. split.
    + eapply Forall_impl; [by apply IH1|]. intros s. apply reads_weaken; lia.
    + constructor; [|constructor]. eapply reads_weaken; [| |apply reads_refl]; lia.
  - eapply Forall_impl;
      [apply (times_reads _ _ _ _ _ _ lo (IH1 Hr) (upto_reads _ _ _ (hi - lo) (IH1 Hr)))|].
    intros s. apply reads_weaken; lia.
  - destruct (xorb _ _); constructor; [apply reads_refl|constructor].
  - destruct (prev st); constructor; [apply reads_refl|constructor].
  - destruct (rest st); constructor; [apply reads_refl|constructor].
  - apply Forall_map. eapply Forall_impl; [by apply IH1|].
    intros s (u & E & D & L). by exists u.
Qed.

(** What a capture in the input [s] is: a run of two to four digits of [s]. *)
Definition run_of (s c : list ascii) : Prop :=
  digits c /\ (2 <= length c <= 4)%nat /\ exists pre post, s = pre ++ c ++ post.

(** The matcher is somewhere in [s], with a run of [s] as capture if any. *)
Definition within (s : list ascii) (st : mstate) : Prop :=
  (exists pre, s = pre ++ rest st) /\ forall c, cap st = Some c -> run_of s c.

Lemma rmatch_within r s st : groups_digits r -> within s st -> Forall (within s) (rmatch r st).
Proof.
  revert st. induction r as [|p|r1 IH1 r2 IH2|r1 IH1|lo hi r1 IH1| | | |r1 IH1];
    intros st Hr Hst; simpl in *.
  - constructor; [done|constructor].
  - destruct (rest st) as [|c t] eqn:E; [constructor|].
    destruct (p c); constructor; [|constructor].
    destruct Hst as [[pre Hpre] Hcap]. split; [|exact Hcap].
    exists (pre ++ [c]). simpl. rewrite Hpre, E. by rewrite <- app_assoc.
  - destruct Hr as [H1 H2]. apply List.Forall_flat_map.
    eapply Forall_impl; [by apply IH1|]. intros s1 Hs1. by apply IH2.
  - apply Forall_app. split; [by apply IH1|constructor; [done|constructor]].
  - apply times_inv; [auto| |done]. intros s0 Hs0. apply upto_inv; auto.
  - destruct (xorb _ _); constructor; [done|constructor].
  - destruct (prev st); constructor; [done|constructor].
  - destruct (rest st); constructor; [done|constructor].
  - destruct Hr as (Hd & Hmin & Hmax). apply Forall_map.
    eapply Forall_impl; [apply (rmatch_reads r1 Hd st)|].
    intros st' (used & E & D & L). simpl.
    destruct Hst as [[pre Hpre] _].
    assert (Hused : take (length (rest st) - length (rest st')) (rest st) = used).
    { rewrite E, length_app.
      replace (length used + length (rest st') - length (rest st'))%nat
        with (length used) by lia.
      by rewrite take_app_length. }
    split; simpl.
    + exists (pre ++ used). by rewrite Hpre, E, app_assoc.
    + intros c [= <-]. rewrite Hused. split; [exact D|]. split; [lia|].
      exists pre, (rest st'). by rewrite Hpre, E.
Qed.

Lemma search_within r s before l st :
  groups_digits r -> (exists pre, s = pre ++ l) ->
  search r before l = Some st -> within s st.
Proof.
  intros Hr. revert before. induction l as [|c t IH]; intros before Hpre; simpl.
  - pose proof (rmatch_within r s (mkState before [] None) Hr) as H.
    destruct (rmatch r _) as [|st0 l0]; [done|].
    intros [= <-]. apply Forall_cons_1 in H as [H _]; [exact H|]. by split.
  - pose proof (rmatch_within r s (mkState before (c :: t) None) Hr) as H.
    destruct (rmatch r _) as [|st0 l0].
    + apply IH. destruct Hpre as [pre ->]. exists (pre ++ [c]). by rewrite <- app_assoc.
    + intros [= <-]. apply Forall_cons_1 in H as [H _]; [exact H|]. by split.
Qed.

Lemma match1_run r f y :
  groups_digits r -> match1 r f = Some (Some y) ->
  exists c, y = string_of_list_ascii c /\ run_of (list_ascii_of_string f) c.
Proof.
  intros Hr. unfold match1.
  destruct (search r None _) as [st|] eqn:E; [|done].
  apply (search_within r (list_ascii_of_string f)) in E; [|exact Hr|by exists []].
  destruct (cap st) as [c|] eqn:Ec; simpl; [|done].
  intros [= <-]. exists c. split; [reflexivity|]. by apply E.
Qed.

Lemma firstYear_run ps f y :
  Forall groups_digits ps -> firstYear ps f = Some y ->
  exists c, y = widen (string_of_list_ascii c) /\ run_of (list_ascii_of_string f) c.
Proof.
  induction ps as [|p ps IH]; intros Hg; simpl; [done|].
  apply Forall_cons_1 in Hg as [Hp Hps].
  destruct (match1 p f) as [[year|]|] eqn:E; [|done|by apply IH].
  intros [= <-]. destruct (match1_run _ _ _ Hp E) as (c & -> & Hc). by exists c.
Qed.

Lemma yearPatterns_digits : Forall groups_digits yearPatterns.
Proof.
  assert (Hd : digits_only digit) by (by intros c).
  assert (H2 : digits_only (chr "2")).
  { intros c Hc. apply Ascii.eqb_eq in Hc. by subst. }
  assert (H0 : digits_only (chr "0")).
  { intros c Hc. apply Ascii.eqb_eq in Hc. by subst. }
  unfold yearPatterns.
  repeat (constructor; [simpl; repeat split; try done; lia|]). constructor.
Qed.

Lemma string_of_list_app a b :
  string_of_list_ascii (a ++ b) = string_of_list_ascii a +:+ string_of_list_ascii b.
Proof.
  induction a as [|c a IH]; [reflexivity|].
  simpl. rewrite IH. reflexivity.
Qed.

(** On a run of two to four digits the widening of a detected year and the
    normalisation of an allowed year are the same function. *)
Lemma widen_normalizeYear c :
  digits c -> normalizeYear (string_of_list_ascii c) = widen (string_of_list_ascii c).
Proof.
  intros Hc. unfold normalizeYear, widen. rewrite length_string_of_list.
  destruct (test twoDigits _) eqn:E.
  - apply test_twoDigits_spec in E as (a & b & _ & _ & E).
    apply (f_equal String.length) in E. rewrite length_string_of_list in E.
    simpl in E. by rewrite E.
  - destruct (length c =? 2)%nat eqn:El; [|reflexivity].
    apply Nat.eqb_eq in El. destruct c as [|a [|b [|]]]; try done.
    apply Forall_cons_1 in Hc as [Ha Hc]. apply Forall_cons_1 in Hc as [Hb _].
    assert (test twoDigits (string_of_list_ascii [a; b]) = true); [|congruence].
    apply test_twoDigits_spec. by exists a, b.
Qed.

(** The widening of a capture, written out: two digits [ab] get "20" in
    front when the number [ab] is at most 30, and "19" otherwise; any other
    capture is left as it is. *)
Lemma widen_rule capture :
  digits (list_ascii_of_string capture) ->
  widen capture
  = match capture with
    | String a (String b EmptyString) =>
        (if 10 * digit_value a + digit_value b <=? 30 then "20" else "19") +:+ capture
    | _ => capture
    end.
Proof.
  intros Hc. unfold widen.
  destruct capture as [|a [|b [|d s]]]; try reflexivity.
  apply Forall_cons_1 in Hc as [Ha Hc]. apply Forall_cons_1 in Hc as [Hb _].
  simpl. unfold parseInt. simpl. rewrite Ha, Hb. simpl.
  replace (10 * (0 + digit_value a) + digit_value b)
    with (10 * digit_value a + digit_value b) by lia.
  by destruct (_ <=? 30).
Qed.

Lemma firstYear_first ps f i p capture :
  ps !! i = Some p ->
  (forall j earlier, (j < i)%nat -> ps !! j = Some earlier -> match1 earlier f = None) ->
  match1 p f = Some (Some capture) ->
  firstYear ps f = Some (widen capture).
Proof.
  revert i. induction ps as [|q ps IH]; intros i Hi Hearlier Hm; [done|].
  destruct i as [|i]; simpl in *.
  - injection Hi as ->. by rewrite Hm.
  - rewrite (Hearlier 0%nat q) by (done || lia).
    apply (IH i Hi); [|exact Hm].
    intros j earlier Hlt Hj. apply (Hearlier (S j)); [lia|exact Hj].
Qed.

Lemma firstYear_none ps f :
  Forall (fun p => match1 p f <> Some None) ps ->
  firstYear ps f = None <-> Forall (fun p => match1 p f = None) ps.
Proof.
  induction 1 as [|p ps Hp _ IH]; simpl; [by split|].
  destruct (match1 p f) as [[year|]|] eqn:E; [|done|].
  - split; [done|]. intros H. apply Forall_cons_1 in H as [H _]. congruence.
  - rewrite IH. split; [by constructor|]. intros H. by apply Forall_cons_1 in H as [_ H].
Qed.

(** C3 (as the code has it). shouldProcessPdf follows the decision table:
    without allowed years the file is processed, with no reason given; with
    a year detected that is among the allowed years it is processed; with a
    year detected that is not among them it is skipped, with the reason
    "Year <year> not in allowed years: <list>"; with no year detected it is
    processed when strict filtering is off and skipped when it is on, each
    with its reason.  The year is detected by four patterns tried in order:
    a year 20xx between word boundaries, two digits between word
    boundaries, "year" with an optional [_] or [-] and two to four digits,
    four digits with an optional [_] or [-] and "paper".  The first pattern
    that matches gives the year: its capture, with "20" in front when the
    capture is two digits that make a number of at most 30 and "19" in
    front when they make a larger number.  No year is detected exactly when
    no pattern matches.  A year of four digits that does not start with 20
    is not detected by the first pattern. *)
Theorem shouldProcessPdf_decision_table (fileName : string)
    (examContext : EnhancedExamContext) :
  let detected := extractYearFromFilename fileName in
  ((allowedYears examContext = None \/ allowedYears examContext = Some []) ->
   shouldProcessPdf fileName examContext = mkCheck true None None)
  /\ (forall allowed year,
        allowedYears examContext = Some allowed -> detected = Some year ->
        year ∈ allowed ->
        shouldProcessPdf fileName examContext
        = mkCheck true
            (Some ("Year " +:+ year +:+ " is in allowed years: "
                   +:+ String.concat ", " allowed))
            (Some year))
  /\ (forall allowed year,
        allowedYears examContext = Some allowed -> allowed <> [] ->
        detected = Some year -> year ∉ allowed ->
        shouldProcessPdf fileName examContext
        = mkCheck false
            (Some ("Year " +:+ year +:+ " not in allowed years: "
                   +:+ String.concat ", " allowed))
            (Some year))
  /\ (forall allowed,
        allowedYears examContext = Some allowed -> allowed <> [] -> detected = None ->
        shouldProcessPdf fileName examContext
        = if strictYearFiltering examContext
          then mkCheck false
                 (Some "No year detected in filename, strict filtering enabled") None
          else mkCheck true (Some "No year detected, strict filtering disabled") None)
  /\ (forall i pattern capture,
        yearPatterns !! i = Some pattern ->
        (forall j earlier, (j < i)%nat -> yearPatterns !! j = Some earlier ->
           match1 earlier fileName = None) ->
        match1 pattern fileName = Some (Some capture) ->
        detected
        = Some match capture with
               | String a (String b EmptyString) =>
                   (if 10 * digit_value a + digit_value b <=? 30 then "20" else "19")
                   +:+ capture
               | _ => capture
               end)
  /\ (detected = None <->
      Forall (fun pattern => match1 pattern fileName = None) yearPatterns)
  /\ Forall (fun pattern => match1 pattern fileName <> Some None) yearPatterns
  /\ (forall year, detected = Some year -> year <> "")
  /\ length yearPatterns = 4%nat
  /\ extractYearFromFilename "ssc-cgl-2023.pdf" = Some "2023"
  /\ extractYearFromFilename "cgl-1998.pdf" = None
  /\ extractYearFromFilename "ssc_2023.pdf" = None
  /\ extractYearFromFilename "23 2021.pdf" = Some "2021"
  /\ extractYearFromFilename "tier 30.pdf" = Some "2030"
  /\ extractYearFromFilename "tier 31.pdf" = Some "1931"
  /\ extractYearFromFilename "year_1999 21.pdf" = Some "2021"
  /\ extractYearFromFilename "CGL_Year_2019_shift1.pdf" = Some "2019"
  /\ extractYearFromFilename "year99_set.pdf" = Some "1999"
  /\ extractYearFromFilename "year123.pdf" = Some "123"
  /\ extractYearFromFilename "year97x_1998paper.pdf" = Some "1997"
  /\ extractYearFromFilename "x1998_Paper.pdf" = Some "1998".
Proof.
  intros detected.
  pose proof (prefilter_table fileName examContext) as Htable.
  fold detected in Htable.
  split; [|split; [|split; [|split; [|split; [|split; [|split; [|split; [|split]]]]]]]].
  - intros [H|H]; rewrite Htable; unfold decisionTable; by rewrite H.
  - intros allowed year Ha Hd Hin. rewrite Htable. unfold decisionTable.
    rewrite Ha, Hd. destruct allowed as [|y ys]; [by apply elem_of_nil in Hin|].
    unfold includes. by rewrite bool_decide_eq_true_2.
  - intros allowed year Ha Hne Hd Hin. rewrite Htable. unfold decisionTable.
    rewrite Ha, Hd. destruct allowed as [|y ys]; [done|].
    unfold includes. by rewrite bool_decide_eq_false_2.
  - intros allowed Ha Hne Hd. rewrite Htable. unfold decisionTable.
    rewrite Ha, Hd. by destruct allowed.
  - intros i pattern capture Hi Hearlier Hm. unfold detected, extractYearFromFilename.
    rewrite (firstYear_first _ _ i pattern capture Hi Hearlier Hm). f_equal.
    assert (Hg : groups_digits pattern).
    { eapply Forall_lookup_1; [apply yearPatterns_digits|exact Hi]. }
    destruct (match1_run _ _ _ Hg Hm) as (c & -> & Hd & _).
    apply widen_rule. by rewrite list_ascii_of_string_of_list_ascii.
  - exact (firstYear_none _ _ (yearPatterns_capture fileName)).
  - apply yearPatterns_capture.
  - intros year Hd ->. apply extractYear_min in Hd. simpl in Hd. lia.
  - reflexivity.
  - repeat split; vm_compute; reflexivity.
Qed.

Lemma shouldProcessPdf_decision_table_witness :
  extractYearFromFilename "tier 85.pdf" = Some "1985"
  /\ shouldProcessPdf "tier 85.pdf" (mkContext (Some ["2023"; "1985"]) true)
     = mkCheck true (Some "Year 1985 is in allowed years: 2023, 1985") (Some "1985").
Proof.
  destruct (shouldProcessPdf_decision_table "tier 85.pdf"
              (mkContext (Some ["2023"; "1985"]) true))
    as (_ & Hallowed & _ & _ & Hfirst & _).
  assert (Hyear : extractYearFromFilename "tier 85.pdf" = Some "1985").
  { apply (Hfirst 1%nat _ "85" eq_refl); [|vm_compute; reflexivity].
    intros [|j] earlier Hlt Hj; [|lia].
    simpl in Hj. injection Hj as <-. vm_compute. reflexivity. }
  split; [exact Hyear|].
  apply (Hallowed ["2023"; "1985"] "1985" eq_refl Hyear).
  apply (bool_decide_unpack _). vm_compute. exact I.
Defined.

(** A year of four digits that the patterns do not detect: 1998 stands
    between word boundaries and is among the allowed years, and the file is
    skipped, in strict mode, as one without a year. *)
Lemma shouldProcessPdf_decision_table_counterexample :
  extractYearFromFilename "cgl-1998.pdf" = None
  /\ shouldProcessPdf "cgl-1998.pdf" (mkContext (Some ["1998"]) true)
     = mkCheck false (Some "No year detected in filename, strict filtering enabled") None.
Proof. split; vm_compute; reflexivity. Qed.

(** X20. A detected year is read off the file name: the name contains a run
    of two to four decimal digits of which the year is the widening, so the
    year is a string of three or four digits; and an allowed-years list that
    names the run as it stands in the file name normalises to exactly the
    detected year. *)
Theorem detected_year_is_a_digit_run (fileName year : string) :
  extractYearFromFilename fileName = Some year ->
  exists before run after,
    fileName = before +:+ run +:+ after
    /\ digits (list_ascii_of_string run)
    /\ (2 <= String.length run <= 4)%nat
    /\ year = widen run
    /\ digits (list_ascii_of_string year)
    /\ (3 <= String.length year <= 4)%nat
    /\ normalizeYears (Some [run]) = [year].
Proof.
  intros H. apply (firstYear_run _ _ _ yearPatterns_digits) in H
    as (c & -> & Hd & Hlen & pre & post & Hin).
  exists (string_of_list_ascii pre), (string_of_list_ascii c), (string_of_list_ascii post).
  rewrite list_ascii_of_string_of_list_ascii, length_string_of_list.
  split; [by rewrite <- !string_of_list_app, <- Hin, string_of_list_ascii_of_string|].
  split; [exact Hd|]. split; [exact Hlen|]. split; [reflexivity|].
  assert (Hwide : digits (list_ascii_of_string (widen (string_of_list_ascii c)))
                  /\ (3 <= String.length (widen (string_of_list_ascii c)) <= 4)%nat).
  { unfold widen. rewrite length_string_of_list.
    destruct (length c =? 2)%nat eqn:El.
    - apply Nat.eqb_eq in El.
      destruct (le30 _);
        [change ("20" +:+ string_of_list_ascii c)
           with (String "2" (String "0" (string_of_list_ascii c)))
        |change ("19" +:+ string_of_list_ascii c)
           with (String "1" (String "9" (string_of_list_ascii c)))];
        simpl; rewrite list_ascii_of_string_of_list_ascii, length_string_of_list;
        (split; [repeat (constructor; [reflexivity|]); exact Hd|lia]).
    - apply Nat.eqb_neq in El.
      rewrite list_ascii_of_string_of_list_ascii, length_string_of_list.
      split; [exact Hd|lia]. }
  split; [apply Hwide|]. split; [apply Hwide|].
  unfold normalizeYears. simpl map.
  rewrite trim_clean.
  - assert (nonempty (string_of_list_ascii c) = true) as ->.
    { destruct c; [simpl in Hlen; lia|reflexivity]. }
    simpl. by rewrite widen_normalizeYear.
  - rewrite list_ascii_of_string_of_list_ascii.
    eapply Forall_impl; [exact Hd|]. intros a. apply digit_not_space.
Qed.

Lemma detected_year_is_a_digit_run_witness :
  exists before run after,
    "tier 85 set.pdf" = before +:+ run +:+ after
    /\ (2 <= String.length run <= 4)%nat
    /\ "1985" = widen run
    /\ normalizeYears (Some [run]) = ["1985"].
Proof.
  destruct (detected_year_is_a_digit_run "tier 85 set.pdf" "1985")
    as (before & run & after & Hname & _ & Hlen & Hwiden & _ & _ & Hallowed);
    [vm_compute; reflexivity|].
  by exists before, run, after.
Defined.

(** X21. What normalizeYears returns: no entry is empty, none has white
    space around it, none is a year of two digits; every entry is the
    normalisation of an entry of the input, in input order, so the result is
    never longer than the input; and an absent list gives the empty list. *)
Theorem normalizeYears_shape (years : option (list string)) :
  Forall (fun y => y <> "" /\ trim y = y /\ test twoDigits y = false) (normalizeYears years)
  /\ normalizeYears years
     = normalizeYear <$> List.filter nonempty (trim <$> default [] years)
  /\ (length (normalizeYears years) <= length (default [] years))%nat.
Proof.
  assert (Heq : normalizeYears years
                = normalizeYear <$> List.filter nonempty (trim <$> default [] years)).
  { by destruct years as [[|y ys]|]. }
  split; [|split; [exact Heq|]].
  - eapply Forall_impl; [apply normalizeYears_normal|].
    intros y (Ht & Hn & Hy). split; [by destruct y|]. split; [exact Ht|].
    unfold normalizeYear in Hy. destruct (test twoDigits y); [|reflexivity].
    apply (f_equal String.length) in Hy.
    destruct (le30 _); rewrite length_append in Hy; simpl in Hy; lia.
  - rewrite Heq, length_fmap.
    etransitivity; [apply List.filter_length_le|]. by rewrite length_fmap.
Qed.

End YearFilterMore.


Module FinderFacts.
Import Segmenter YearFilter JS UnitProcessor Dispatcher Reconciler Batch Finder.

(** Induction on a tree, with the entries of a directory as premisses. *)
Fixpoint FsNode_nested_ind (P : FsNode -> Prop)
    (HMissing : P Missing) (HFile : P File) (HUnlisted : P (Dir None))
    (HDir : forall items, Forall (fun entry => P entry.2) items -> P (Dir (Some items)))
    (node : FsNode) {struct node} : P node :=
  match node with
  | Missing => HMissing
  | File => HFile
  | Dir None => HUnlisted
  | Dir (Some items) =>
      HDir items
        ((fix entries (l : list (string * FsNode)) : Forall (fun entry => P entry.2) l :=
            match l with
            | [] => List.Forall_nil _
            | entry :: rest =>
                @List.Forall_cons _ _ entry rest
                  (FsNode_nested_ind P HMissing HFile HUnlisted HDir entry.2)
                  (entries rest)
            end) items)
  end.

(** Every node of the tree can be examined and every directory listed. *)
#[warnings="-register-all"] Inductive readable : FsNode -> Prop :=
  | readable_file : readable File
  | readable_dir items :
      Forall (fun entry => readable entry.2) items -> readable (Dir (Some items)).

Section Search.
Variable join : string -> string -> string.
Variable extname : string -> string.

Abbreviation searchRecursive := (searchRecursive join extname).
Abbreviation searchItems := (searchItems join extname).
Abbreviation findPdfFiles := (findPdfFiles join extname).
Abbreviation isPdf := (isPdf extname).

(** [located currentDir node dir item]: below [node], whose path is
    [currentDir], the directory of path [dir] has a file entry [item]. *)
Inductive located : string -> FsNode -> string -> string -> Prop :=
  | located_here currentDir items item :
      (item, File) ∈ items -> located currentDir (Dir (Some items)) currentDir item
  | located_below currentDir items name sub dir item :
      (name, sub) ∈ items -> located (join currentDir name) sub dir item ->
      located currentDir (Dir (Some items)) dir item.

Lemma searchRecursive_dir currentDir items :
  searchRecursive currentDir (Dir (Some items)) = searchItems currentDir items.
Proof. induction items as [|[item child] rest IH]; [reflexivity|]. simpl. by rewrite <- IH. Qed.

Lemma found_is_located node :
  forall currentDir p, p ∈ searchRecursive currentDir node ->
    exists dir item, located currentDir node dir item /\ p = join dir item
                     /\ isPdf item = true.
Proof.
  induction node as [| | |items IH] using FsNode_nested_ind; intros currentDir p;
    try (simpl; by intros ?%elem_of_nil).
  rewrite searchRecursive_dir.
  assert (Hitems : forall rest, rest `suffix_of` items ->
            p ∈ searchItems currentDir rest ->
            exists dir item, located currentDir (Dir (Some items)) dir item
                             /\ p = join dir item /\ isPdf item = true).
  { induction rest as [|[name child] rest IHrest]; intros Hsuffix; simpl.
    - by intros ?%elem_of_nil.
    - assert (Hin : (name, child) ∈ items).
      { destruct Hsuffix as [pre ->]. apply elem_of_app. right. apply elem_of_cons. by left. }
      assert (Hrest : rest `suffix_of` items).
      { destruct Hsuffix as [pre ->]. exists (pre ++ [(name, child)]).
        by rewrite <- app_assoc. }
      destruct child as [| |entries].
      + by intros ?%elem_of_nil.
      + destruct (isPdf name) eqn:Hpdf; [|by apply IHrest].
        intros [->|Hp]%elem_of_cons; [|by apply IHrest].
        exists currentDir, name. split; [by apply located_here|done].
      + intros [Hp|Hp]%elem_of_app; [|by apply IHrest].
        rewrite Forall_forall in IH.
        destruct (IH _ Hin (join currentDir name) p Hp) as (dir & item & Hloc & -> & Hpdf).
        exists dir, item. split; [|done]. by eapply located_below. }
  by apply Hitems.
Qed.

Lemma located_is_found node :
  readable node ->
  forall currentDir dir item, located currentDir node dir item -> isPdf item = true ->
    join dir item ∈ searchRecursive currentDir node.
Proof.
  induction node as [| | |items IH] using FsNode_nested_ind; intros Hread currentDir dir item Hloc Hpdf;
    try (by inversion Hloc).
  rewrite searchRecursive_dir.
  inversion Hread as [|items' Hall]; subst.
  rewrite Forall_forall in IH. rewrite Forall_forall in Hall.
  assert (Hitems : forall rest, rest `suffix_of` items ->
            ((item, File) ∈ rest /\ dir = currentDir
             \/ exists name sub, (name, sub) ∈ rest
                  /\ located (join currentDir name) sub dir item) ->
            join dir item ∈ searchItems currentDir rest).
  { induction rest as [|[name child] rest IHrest]; intros Hsuffix Hcase.
    - destruct Hcase as [[Hin _]|(name & sub & Hin & _)]; by apply elem_of_nil in Hin.
    - assert (Hin : (name, child) ∈ items).
      { destruct Hsuffix as [pre ->]. apply elem_of_app. right. apply elem_of_cons. by left. }
      assert (Hrest : rest `suffix_of` items).
      { destruct Hsuffix as [pre ->]. exists (pre ++ [(name, child)]).
        by rewrite <- app_assoc. }
      pose proof (Hall _ Hin) as Hchild. simpl in Hchild.
      assert (Hlater : ((item, File) ∈ rest /\ dir = currentDir
                        \/ exists name' sub, (name', sub) ∈ rest
                             /\ located (join currentDir name') sub dir item) ->
                       join dir item ∈ searchItems currentDir rest) by (by apply IHrest).
      simpl. destruct child as [| |entries].
      + inversion Hchild.
      + destruct Hcase as [[[Heq|Hlist]%elem_of_cons ->]|(name' & sub & [Heq|Hlist]%elem_of_cons & Hsub)].
        * injection Heq as ->. rewrite Hpdf. apply elem_of_cons. by left.
        * destruct (isPdf name); [apply elem_of_cons; right|]; apply Hlater; left; done.
        * injection Heq as -> ->. inversion Hsub.
        * destruct (isPdf name); [apply elem_of_cons; right|]; apply Hlater; right; eauto.
      + apply elem_of_app.
        destruct Hcase as [[[Heq|Hlist]%elem_of_cons ->]|(name' & sub & [Heq|Hlist]%elem_of_cons & Hsub)].
        * discriminate.
        * right. apply Hlater. by left.
        * injection Heq as -> ->. left. by apply (IH _ Hin).
        * right. apply Hlater. right. eauto. }
  apply Hitems; [done|].
  inversion Hloc; subst; [by left|right; eauto].
Qed.

(** X23. What findPdfFiles returns.  Every path returned is the join of a
    directory of the tree with the name of a file entry of that directory
    whose extension is ".pdf" in any letter case (a directory named like a
    PDF is searched, not returned); and when every node of the tree can be
    examined and every directory listed, each such file is returned. *)
Theorem findPdfFiles_returns_the_pdf_files (dirPath : string) (root : FsNode) (p : string) :
  (p ∈ findPdfFiles dirPath root ->
     exists dir item, located dirPath root dir item /\ p = join dir item
                      /\ toLowerCase (extname item) = ".pdf")
  /\ (readable root ->
      forall dir item, located dirPath root dir item ->
        toLowerCase (extname item) = ".pdf" ->
        join dir item ∈ findPdfFiles dirPath root).
Proof.
  split.
  - intros Hp. destruct (found_is_located root dirPath p Hp) as (dir & item & Hloc & -> & Hpdf).
    exists dir, item. split; [exact Hloc|]. split; [reflexivity|].
    by apply String.eqb_eq in Hpdf.
  - intros Hread dir item Hloc Hext. apply located_is_found; [done|done|].
    unfold Finder.isPdf. by apply String.eqb_eq.
Qed.

Lemma searchItems_unlisted currentDir name before after :
  searchItems currentDir (before ++ (name, Dir None) :: after)
  = searchItems currentDir (before ++ after).
Proof.
  induction before as [|[item child] before IH]; [reflexivity|].
  simpl. by rewrite IH.
Qed.

Lemma searchItems_stops currentDir name before after :
  Forall (fun entry => entry.2 <> Missing) before ->
  searchItems currentDir (before ++ (name, Missing) :: after)
  = searchItems currentDir before.
Proof.
  induction 1 as [|[item child] before Hchild _ IH]; [reflexivity|].
  simpl in *. rewrite IH. by destruct child.
Qed.

(** X24. Where findPdfFiles loses files.  A directory that cannot be listed
    contributes nothing and the search goes on with its siblings; an entry
    that cannot be examined ends the search of its directory, so the
    entries listed after it are not looked at, while the files found before
    it stay; and an input directory that cannot be listed, or is no
    directory at all, gives the empty list, not an error. *)
Theorem findPdfFiles_losses (dirPath name : string)
    (before after : list (string * FsNode)) :
  findPdfFiles dirPath (Dir (Some (before ++ (name, Dir None) :: after)))
  = findPdfFiles dirPath (Dir (Some (before ++ after)))
  /\ (Forall (fun entry => entry.2 <> Missing) before ->
      findPdfFiles dirPath (Dir (Some (before ++ (name, Missing) :: after)))
      = findPdfFiles dirPath (Dir (Some before)))
  /\ findPdfFiles dirPath (Dir None) = []
  /\ findPdfFiles dirPath Missing = []
  /\ findPdfFiles dirPath File = [].
Proof.
  unfold Finder.findPdfFiles. rewrite !searchRecursive_dir.
  split; [apply searchItems_unlisted|]. split; [|by repeat split].
  intros Hbefore. by apply searchItems_stops.
Qed.

End Search.

(** A join and an extension for the examples: the directory, a slash and
    the name; the name from its last dot on. *)
Definition simpleJoin (dir item : string) : string := dir +:+ "/" +:+ item.

Fixpoint afterLastDot (s : string) (current : option string) : option string :=
  match s with
  | EmptyString => current
  | String c s' =>
      if Ascii.eqb c "." then afterLastDot s' (Some (String c s')) else afterLastDot s' current
  end.

Definition simpleExtname (item : string) : string := default "" (afterLastDot item None).

Definition sampleTree : FsNode :=
  Dir (Some [("a.PDF", File); ("notes.txt", File);
             ("old", Dir (Some [("b.pdf", File)]));
             ("c.pdf", File)]).

Lemma findPdfFiles_returns_the_pdf_files_witness :
  "in/old/b.pdf" ∈ findPdfFiles simpleJoin simpleExtname "in" sampleTree.
Proof.
  apply (proj2 (findPdfFiles_returns_the_pdf_files simpleJoin simpleExtname "in"
                  sampleTree "") ltac:(repeat constructor) "in/old" "b.pdf").
  - apply (located_below simpleJoin "in" _ "old" (Dir (Some [("b.pdf", File)]))).
    + apply elem_of_cons. right. apply elem_of_cons. right. apply elem_of_cons. by left.
    + apply located_here. apply elem_of_cons. by left.
  - reflexivity.
Defined.

Lemma findPdfFiles_losses_witness :
  findPdfFiles simpleJoin simpleExtname "in"
    (Dir (Some ([("a.PDF", File)] ++ ("broken", Missing) :: [("c.pdf", File)])))
  = ["in/a.PDF"].
Proof.
  destruct (findPdfFiles_losses simpleJoin simpleExtname "in" "broken"
              [("a.PDF", File)] [("c.pdf", File)]) as (_ & Hstop & _).
  rewrite Hstop; [reflexivity|]. repeat constructor. done.
Defined.

End FinderFacts.
